(** * A shallow embedding of the PDF image-compression pipeline

    The development follows [src/compression/pdf_processor.py] and
    [src/compression/image_optimizer.py].  Python integers are [Z], byte
    strings are lists of bytes, [float] values are the rationals they
    denote (every arithmetic operation rounds to binary64, see
    [Binary64]), exceptions are values of [exn], and the two mutable
    objects of a compression run, the document and the optimisation
    cache, are threaded through a state monad whose state survives a
    raised exception, as it does in the interpreter. *)

From Stdlib Require Import ZArith QArith Qround Qabs Qpower Lia Lra Lqa.
From Stdlib Require Import Strings.Byte.
From stdpp Require Import gmap strings list.

(* ================================================================== *)
(** * Part I: the program *)
(* ================================================================== *)

(** ** Exceptions and results *)

(** The exception classes that the modelled libraries raise.  A
    constructor stands for the class and the classes derived from it,
    which is what an [except] clause matches. *)
Inductive exn : Type :=
  | ValueError
  | AttributeError
  | KeyError
  | IndexError
  | ZeroDivisionError
  | RuntimeError
  | OSError
  | MemoryError
  | VipsError.

Inductive result (A : Type) : Type :=
  | Ok (a : A)
  | Raise (e : exn).
Arguments Ok {A} a.
Arguments Raise {A} e.

#[global] Instance result_ret : MRet result := fun A a => Ok a.
#[global] Instance result_bind : MBind result := fun A B f m =>
  match m with
  | Ok a => f a
  | Raise e => Raise e
  end.

Definition is_Ok {A} (r : result A) : bool :=
  match r with Ok _ => true | Raise _ => false end.

(** ** Byte strings *)

Abbreviation bytes := (list byte).

#[global] Instance byte_eq_dec : EqDecision byte := Byte.byte_eq_dec.
#[global] Instance byte_countable : Countable byte :=
  inj_countable Byte.to_N Byte.of_N Byte.of_to_N.

(** [len(b)] *)
Definition len (b : bytes) : Z := Z.of_nat (length b).

(** ** Python [float] arithmetic *)

(** A finite binary64 value is represented by the rational it denotes.
    [round] maps a rational to the nearest value with a 53-bit
    significand, ties to the even significand, which is what every
    IEEE-754 operation of the interpreter does with its exact result.
    The exponent range is not bounded: the model has neither overflow to
    infinity nor gradual underflow, and agrees with the interpreter as
    long as magnitudes stay between 2^-1022 and 2^1024. *)
Module Binary64.
Local Open Scope Q_scope.

(** [ilog2 q] is the integer [k] with [2^k <= q < 2^(k+1)], for [0 < q]. *)
Definition ilog2 (q : Q) : Z :=
  let k := (Z.log2 (Qnum q) - Z.log2 (Zpos (Qden q)))%Z in
  if Qle_bool (2 ^ k) q then k else (k - 1)%Z.

(** Nearest integer, ties to even. *)
Definition rne (x : Q) : Z :=
  let f := Qfloor x in
  match Qcompare (x - inject_Z f) (1 # 2) with
  | Lt => f
  | Gt => (f + 1)%Z
  | Eq => if Z.even f then f else (f + 1)%Z
  end.

Definition round (x : Q) : Q :=
  if Qeq_bool x 0 then 0
  else let e := (ilog2 (Qabs x) - 52)%Z in
       Qred (inject_Z (rne (x / 2 ^ e)) * 2 ^ e).

(** [float(n)] for an [int] [n] *)
Definition of_int (n : Z) : Q := round (inject_Z n).

(** [x * y] and [x / y] on floats *)
Definition mul (x y : Q) : Q := round (x * y).
Definition div (x y : Q) : Q := round (x / y).

(** [n * x] for an [int] [n] and a [float] [x]: [n] is converted first. *)
Definition int_mul (n : Z) (x : Q) : Q := mul (of_int n) x.

(** [a / b] for two [int]s: the correctly rounded quotient, or
    [ZeroDivisionError]. *)
Definition int_truediv (a b : Z) : result Q :=
  if (b =? 0)%Z then Raise ZeroDivisionError
  else Ok (round (inject_Z a / inject_Z b)).

Definition ltb (x y : Q) : bool := negb (Qle_bool y x).

(** [max(x, y)] keeps [x] unless [y > x]; [min(x, y)] keeps [x] unless
    [y < x]. *)
Definition max (x y : Q) : Q := if ltb x y then y else x.
Definition min (x y : Q) : Q := if ltb y x then y else x.

(** [int(x)] truncates towards zero; [math.floor(x)] rounds down. *)
Definition to_int (x : Q) : Z := if Qle_bool 0 x then Qfloor x else Qceiling x.
Definition floor (x : Q) : Z := Qfloor x.

(** [m >= x] for an [int] [m] and a [float] [x]: the comparison is exact. *)
Definition int_geb (m : Z) (x : Q) : bool := Qle_bool x (inject_Z m).

(** The literals [0.98], [1e-3] and [72.0]. *)
Definition lit_0_98 : Q := round (98 # 100).
Definition lit_1e_3 : Q := round (1 # 1000).
Definition lit_72_0 : Q := 72.
End Binary64.

(** ** The host document model (PyMuPDF) *)

Module fitz.
(** [fitz.Rect], reduced to the two properties the planner reads. *)
Module Rect.
Record t : Type := { width : Q; height : Q }.
End Rect.

(** What [page.get_image_bbox] returns: a rectangle, or a tuple whose
    first item is the rectangle. *)
Inductive bbox_candidate : Type :=
  | BBoxRect (r : Rect.t)
  | BBoxTuple (r : Rect.t).

(** An entry of [page.get_images(full=True)].  Only items 0 and 1 of
    the tuple are read: the object id and the object id of the soft
    mask (0 when there is none). *)
Record image_info : Type := { xref : Z; smask : Z }.

(** A page, given by the behaviour of the two queries made on it. *)
Record Page : Type := {
  number : nat;
  get_images : result (list image_info);
  get_image_bbox : image_info -> result bbox_candidate
}.

(** The dictionary returned by [doc.extract_image(xref)]; the key
    [bpc] may be absent. *)
Record base_image : Type := {
  image : bytes;
  ext : string;
  width : Z;
  height : Z;
  bpc : option Z
}.

(** A document: its pages and its stored images by object id. *)
Record Document : Type := {
  pages : list Page;
  images : gmap Z base_image
}.
End fitz.
Import fitz.

(** ** pdf_processor.compute_target_dimensions *)

(** The per-axis pixel maximum: [max(int(max_dpi * max(extent / 72.0, 1e-3)), 1)]. *)
Definition max_px (max_dpi : Z) (extent : Q) : Z :=
  let inches := Binary64.max (Binary64.div extent Binary64.lit_72_0) Binary64.lit_1e_3 in
  Z.max (Binary64.to_int (Binary64.int_mul max_dpi inches)) 1.

(** [max(1, int(math.floor(n * scale)))] *)
Definition scaled_px (n : Z) (scale : Q) : Z :=
  Z.max 1 (Binary64.floor (Binary64.int_mul n scale)).

(** The rectangle read from the value returned by the placement query. *)
Definition rect_of (candidate : bbox_candidate) : Rect.t :=
  match candidate with
  | BBoxTuple r => r
  | BBoxRect r => r
  end.

Definition compute_target_dimensions (page : Page) (image_info : image_info)
    (original_width original_height : Z) (max_dpi : option Z) : result (Z * Z) :=
  match max_dpi with
  | None => Ok (original_width, original_height)
  | Some max_dpi =>
      if (max_dpi =? 0)%Z || (max_dpi <=? 0)%Z
      then Ok (original_width, original_height)
      else
        match get_image_bbox page image_info with
        | Raise ValueError => Ok (original_width, original_height)
        | Raise AttributeError => Ok (original_width, original_height)
        | Raise e => Raise e
        | Ok bbox_candidate =>
            let bbox := rect_of bbox_candidate in
            let max_width_px := max_px max_dpi (Rect.width bbox) in
            let max_height_px := max_px max_dpi (Rect.height bbox) in
            if (original_width <=? max_width_px)%Z
               && (original_height <=? max_height_px)%Z
            then Ok (original_width, original_height)
            else
              sw ← Binary64.int_truediv max_width_px original_width;
              sh ← Binary64.int_truediv max_height_px original_height;
              let scale := Binary64.min sw sh in
              Ok (scaled_px original_width scale, scaled_px original_height scale)
        end
  end.

(** The single scale factor [min(max_w / original_w, max_h / original_h)]. *)
Definition scale_factor (max_width_px max_height_px original_width original_height : Z) : Q :=
  Binary64.min (Binary64.round (inject_Z max_width_px / inject_Z original_width))
               (Binary64.round (inject_Z max_height_px / inject_Z original_height)).

(** ** pdf_processor.get_compression_stats *)

(** The returned dictionary, one field per key. *)
Module CompressionStats.
Record t : Type := {
  original_size : Z;
  compressed_size : Z;
  reduction_bytes : Z;
  reduction_percent : Q
}.
End CompressionStats.

Definition get_compression_stats (original_bytes compressed_bytes : bytes)
    : result CompressionStats.t :=
  let original_size := len original_bytes in
  let compressed_size := len compressed_bytes in
  let reduction_bytes := (original_size - compressed_size)%Z in
  ratio ← Binary64.int_truediv reduction_bytes original_size;
  let reduction_percent := Binary64.mul ratio (Binary64.of_int 100) in
  Ok {| CompressionStats.original_size := original_size;
        CompressionStats.compressed_size := compressed_size;
        CompressionStats.reduction_bytes := reduction_bytes;
        CompressionStats.reduction_percent := reduction_percent |}.

(** ** Strings *)

(** [str.lower] and [str.upper] on ASCII letters. *)
Definition lower_char (c : Ascii.ascii) : Ascii.ascii :=
  let n := Ascii.N_of_ascii c in
  if (65 <=? n)%N && (n <=? 90)%N then Ascii.ascii_of_N (n + 32) else c.

Definition upper_char (c : Ascii.ascii) : Ascii.ascii :=
  let n := Ascii.N_of_ascii c in
  if (97 <=? n)%N && (n <=? 122)%N then Ascii.ascii_of_N (n - 32) else c.

Fixpoint lower (s : string) : string :=
  match s with
  | EmptyString => EmptyString
  | String c r => String (lower_char c) (lower r)
  end.

Fixpoint upper (s : string) : string :=
  match s with
  | EmptyString => EmptyString
  | String c r => String (upper_char c) (upper r)
  end.

(** [s in (a, b, ...)] *)
Definition str_in (s : string) (l : list string) : bool :=
  existsb (String.eqb s) l.

(** ** The decoded image (Pillow) *)

Module PIL.
(** The first item of [image.getchannel("A").getextrema()]. *)
Inductive extremum : Type :=
  | ExtInt (z : Z)
  | ExtFloat (q : Q)
  | ExtOther.

(** The value of [image.info["transparency"]] when the key is present. *)
Inductive transparency : Type :=
  | TranspBytes (table : bytes)
  | TranspIndex (index : Z).

Record Image : Type := {
  mode : string;
  alpha_lowest : extremum;
  info_transparency : option transparency;
  raster : bytes
}.

(** Keyword arguments of [Image.save]. *)
Inductive save_kwargs : Type :=
  | NoKwargs
  | JpegKwargs (quality : Z) (optimize progressive : bool) (subsampling : Z)
  | PngKwargs (optimize : bool) (compress_level : Z).
End PIL.

(** ** image_optimizer._has_transparency *)

Definition _has_transparency (image : PIL.Image) (smask_present : bool) : bool :=
  if smask_present then true
  else if str_in (PIL.mode image) ["RGBA"; "LA"]%string then
    match PIL.alpha_lowest image with
    | PIL.ExtInt lowest => (lowest <? 255)%Z
    | PIL.ExtFloat lowest => (Binary64.to_int lowest <? 255)%Z
    | PIL.ExtOther => false
    end
  else if String.eqb (PIL.mode image) "P" then
    match PIL.info_transparency image with
    | None => false
    | Some (PIL.TranspBytes _) => true
    | Some (PIL.TranspIndex transparency) => negb (transparency =? 255)%Z
    end
  else false.

(** ** The libraries behind the pipeline *)

(** What [pyvips] is asked to write. *)
Inductive vips_write : Type :=
  | WriteJpg (Q : Z)
  | WritePng (compression : Z)
  | WriteOther (suffix : string).

(** The digest, the Pillow operations and the pyvips operations are
    library code: each is a function of its arguments that returns a
    value or raises.  [Image_open] stands for [Image.open] followed by
    [load]; [vips_write_to_buffer] stands for what follows
    [new_from_buffer] in the pyvips backend: the loaded image is resized
    by the two scale factors when they are given, brought to sRGB when a
    JPEG is written from another interpretation, and written. *)
Class Libs : Type := {
  sha1 : bytes -> bytes;
  Image_open : bytes -> result PIL.Image;
  Image_resize : PIL.Image -> Z * Z -> result PIL.Image;
  Image_convert : PIL.Image -> string -> result PIL.Image;
  Image_save : PIL.Image -> string -> PIL.save_kwargs -> result bytes;
  vips_new_from_buffer : bytes -> result unit;
  vips_write_to_buffer : bytes -> option (Q * Q) -> vips_write -> result bytes
}.

(** ** The cache entry *)

Record ImageOptimizationResult : Type := {
  optimized : bool;
  data : option bytes;
  original_size : Z;
  optimized_size : Z
}.

(** ** image_optimizer._optimize_image_with_pyvips *)

Definition vips_should_convert_png (image_ext : string) (has_alpha : bool)
    (convert_large_pngs_to_jpeg : bool) (png_to_jpeg_threshold original_size bpc : Z) : bool :=
  String.eqb image_ext "png"
  && convert_large_pngs_to_jpeg
  && negb has_alpha
  && (png_to_jpeg_threshold <=? original_size)%Z
  && (8 <=? bpc)%Z.

Definition vips_save_format (image_ext : string) (has_alpha : bool)
    (convert_large_pngs_to_jpeg : bool) (png_to_jpeg_threshold original_size bpc : Z) : string :=
  if vips_should_convert_png image_ext has_alpha convert_large_pngs_to_jpeg
       png_to_jpeg_threshold original_size bpc
  then "jpeg" else image_ext.

Definition _optimize_image_with_pyvips `{Libs} (image_bytes : bytes) (image_ext : string)
    (original_width original_height target_width target_height : Z)
    (has_alpha : bool) (image_quality : Z) (convert_large_pngs_to_jpeg : bool)
    (png_to_jpeg_threshold original_size bpc : Z) : result bytes :=
  _ ← vips_new_from_buffer image_bytes;
  let needs_resize :=
    negb ((target_width =? original_width)%Z && (target_height =? original_height)%Z) in
  resize ←
    (if needs_resize then
       hscale ← Binary64.int_truediv target_width original_width;
       vscale ← Binary64.int_truediv target_height original_height;
       Ok (Some (hscale, vscale))
     else Ok None);
  let save_format :=
    vips_save_format image_ext has_alpha convert_large_pngs_to_jpeg
      png_to_jpeg_threshold original_size bpc in
  if String.eqb save_format "jpeg" || String.eqb save_format "jpg" then
    vips_write_to_buffer image_bytes resize (WriteJpg image_quality)
  else if String.eqb save_format "png" then
    vips_write_to_buffer image_bytes resize (WritePng 6)
  else
    vips_write_to_buffer image_bytes resize (WriteOther (String.append "." save_format)).

(** ** The state of a compression run *)

Inductive backend : Type := Pyvips | Pillow.

(** The calls whose occurrence the specification speaks about: a backend
    starting to encode the bytes of an image (the [try] block for
    pyvips, the [with Image.open] block for Pillow),
    [page.replace_image], and an exception swallowed by the per-image
    [except] clause. *)
Inductive event : Type :=
  | EvEncode (b : backend) (image_bytes : bytes)
  | EvReplace (xref : Z) (stream : bytes)
  | EvCaught (xref : Z) (e : exn).

Record State : Type := {
  doc : Document;
  cache : gmap bytes ImageOptimizationResult;
  trace : list event
}.

(** The stored image with its bytes replaced.  The other fields are
    kept as they were, whereas the library stores the format and the
    size of the new image; the loop does not read an object again after
    its replacement. *)
Definition with_stream (base : base_image) (stream : bytes) : base_image :=
  {| image := stream; ext := ext base; width := width base;
     height := height base; bpc := bpc base |}.

(** The state with more events, with one more cache entry, with one
    stored stream replaced. *)
Definition add_events (st : State) (evs : list event) : State :=
  {| doc := doc st; cache := cache st; trace := trace st ++ evs |}.

Definition add_entry (st : State) (digest : bytes) (entry : ImageOptimizationResult) : State :=
  {| doc := doc st; cache := <[digest := entry]> (cache st); trace := trace st |}.

Definition put_stream (st : State) (xref : Z) (base : base_image) (stream : bytes) : State :=
  {| doc := {| pages := pages (doc st);
               images := <[xref := with_stream base stream]> (images (doc st)) |};
     cache := cache st; trace := trace st |}.

(** Computations that read and update the state and may raise.  The
    state reached when an exception is raised is kept. *)
Definition M (A : Type) : Type := State -> result A * State.

#[global] Instance M_ret : MRet M := fun A a st => (Ok a, st).
#[global] Instance M_bind : MBind M := fun A B f m st =>
  match m st with
  | (Ok a, st') => f a st'
  | (Raise e, st') => (Raise e, st')
  end.

Definition lift {A} (r : result A) : M A := fun st => (r, st).

(** [try: body except Exception as e: handler] *)
Definition try_except {A} (body : M A) (handler : exn -> M A) : M A := fun st =>
  match body st with
  | (Ok a, st') => (Ok a, st')
  | (Raise e, st') => handler e st'
  end.

Definition log (ev : event) : M unit := fun st => (Ok tt, add_events st [ev]).

(** [doc.extract_image(xref)] followed by the first subscript of the
    result: an object id that holds no image yields an empty dictionary,
    and reading a key of it raises [KeyError].  (The library may also
    raise [ValueError] from the call itself; the loop catches
    either.) *)
Definition extract_image (xref : Z) : M base_image := fun st =>
  match images (doc st) !! xref with
  | Some base => (Ok base, st)
  | None => (Raise KeyError, st)
  end.

(** [page.replace_image(xref, stream=...)]: the stored bytes of the
    object are replaced in place; an object id that is not an image
    raises [ValueError].  The object that the library adds to the page
    besides is not modelled. *)
Definition replace_image (xref : Z) (stream : bytes) : M unit := fun st =>
  let called := add_events st [EvReplace xref stream] in
  match images (doc st) !! xref with
  | Some base => (Ok tt, put_stream called xref base stream)
  | None => (Raise ValueError, called)
  end.

(** [cache.get(digest)] and [cache[digest] = entry] *)
Definition cache_get (digest : bytes) : M (option ImageOptimizationResult) := fun st =>
  (Ok (cache st !! digest), st).

Definition cache_set (digest : bytes) (entry : ImageOptimizationResult) : M unit := fun st =>
  (Ok tt, add_entry st digest entry).

(** ** image_optimizer: the steps shared by both backends *)

(** The branch taken on a cache hit. *)
Definition replay_cached (xref : Z) (cached : ImageOptimizationResult) : M (bool * Z * Z) :=
  match optimized cached, data cached with
  | true, Some stream =>
      _ ← replace_image xref stream;
      mret (true, original_size cached, optimized_size cached)
  | _, _ => mret (false, original_size cached, original_size cached)
  end.

(** The entry written for a skipped or rejected image. *)
Definition not_optimized (original_size : Z) : ImageOptimizationResult :=
  {| optimized := false; data := None;
     original_size := original_size; optimized_size := original_size |}.

Definition record_not_optimized (digest : bytes) (original_size : Z) : M (bool * Z * Z) :=
  _ ← cache_set digest (not_optimized original_size);
  mret (false, original_size, original_size).

(** [optimized_size >= original_size * 0.98] *)
Definition no_gain (optimized_size original_size : Z) : bool :=
  Binary64.int_geb optimized_size (Binary64.int_mul original_size Binary64.lit_0_98).

(** The acceptance gate that follows the encoder in both backends. *)
Definition accept_or_reject (xref : Z) (digest : bytes) (original_size : Z)
    (optimized_bytes : bytes) : M (bool * Z * Z) :=
  let optimized_size := len optimized_bytes in
  if no_gain optimized_size original_size then
    record_not_optimized digest original_size
  else
    _ ← replace_image xref optimized_bytes;
    _ ← cache_set digest
          {| optimized := true; data := Some optimized_bytes;
             original_size := original_size; optimized_size := optimized_size |};
    mret (true, original_size, optimized_size).

(** [bool(smask)] *)
Definition smask_present (info : image_info) : bool := negb (smask info =? 0)%Z.

Definition needs_resize (target original : Z * Z) : bool :=
  negb ((fst target =? fst original)%Z && (snd target =? snd original)%Z).

(** ** image_optimizer._optimize_image_with_pil *)

Definition pil_should_convert_png (has_alpha : bool) (convert_large_pngs_to_jpeg : bool)
    (png_to_jpeg_threshold original_size bpc : Z) : bool :=
  convert_large_pngs_to_jpeg
  && negb has_alpha
  && (png_to_jpeg_threshold <=? original_size)%Z
  && (8 <=? bpc)%Z.

Definition pil_save_format (image_ext : string) (has_alpha : bool)
    (convert_large_pngs_to_jpeg : bool) (png_to_jpeg_threshold original_size bpc : Z) : string :=
  if String.eqb image_ext "png"
     && pil_should_convert_png has_alpha convert_large_pngs_to_jpeg
          png_to_jpeg_threshold original_size bpc
  then "jpeg" else image_ext.

Definition convert_unless `{Libs} (keep : list string) (pil_image : PIL.Image)
    : result PIL.Image :=
  if str_in (PIL.mode pil_image) keep then Ok pil_image
  else Image_convert pil_image "RGB".

(** The [with Image.open(image_stream)] block: decoding, transparency
    detection, resizing, mode conversion and saving. *)
Definition pil_encode `{Libs} (image_bytes : bytes) (image_ext : string)
    (original target : Z * Z) (smask_present : bool) (image_quality : Z)
    (convert_large_pngs_to_jpeg : bool) (png_to_jpeg_threshold original_size bpc : Z)
    : result bytes :=
  pil_image ← Image_open image_bytes;
  let has_alpha := _has_transparency pil_image smask_present in
  pil_image ← (if needs_resize target original
               then Image_resize pil_image target else Ok pil_image);
  let save_format :=
    pil_save_format image_ext has_alpha convert_large_pngs_to_jpeg
      png_to_jpeg_threshold original_size bpc in
  pil_image ←
    (if String.eqb image_ext "png" then
       if pil_should_convert_png has_alpha convert_large_pngs_to_jpeg
            png_to_jpeg_threshold original_size bpc
       then convert_unless ["RGB"; "L"]%string pil_image
       else if String.eqb (PIL.mode pil_image) "P" && negb has_alpha
            then Image_convert pil_image "RGB" else Ok pil_image
     else Ok pil_image);
  pil_image ←
    (if String.eqb save_format "jpeg"
     then convert_unless ["RGB"; "L"]%string pil_image else Ok pil_image);
  let format_name :=
    if String.eqb save_format "jpeg" then "JPEG"%string
    else if String.eqb save_format "png" then "PNG"%string
    else upper image_ext in
  let save_kwargs :=
    if String.eqb save_format "jpeg" then PIL.JpegKwargs image_quality false false 2
    else if String.eqb save_format "png" then PIL.PngKwargs false 6
    else PIL.NoKwargs in
  Image_save pil_image format_name save_kwargs.

(** The first statements of the [try] block of [optimize_image]:
    transparency detection, then the call of the pyvips backend. *)
Definition pyvips_encode `{Libs} (image_bytes : bytes) (image_ext : string)
    (original target : Z * Z) (smask_present : bool) (image_quality : Z)
    (convert_large_pngs_to_jpeg : bool) (png_to_jpeg_threshold original_size bpc : Z)
    : result bytes :=
  has_alpha ←
    (if smask_present || String.eqb image_ext "png" then
       pil_image ← Image_open image_bytes;
       Ok (_has_transparency pil_image smask_present)
     else Ok false);
  _optimize_image_with_pyvips image_bytes image_ext
    (fst original) (snd original) (fst target) (snd target)
    has_alpha image_quality convert_large_pngs_to_jpeg
    png_to_jpeg_threshold original_size bpc.

Section Optimizer.
Context `{Libs}.

(** The type of [compute_target_dimensions_fn]. *)
Definition planner : Type :=
  Page -> image_info -> Z -> Z -> option Z -> result (Z * Z).

Definition _optimize_image_with_pil (page : Page) (image_info : image_info)
    (image_quality : Z) (max_dpi : option Z)
    (skip_small_images : bool) (small_image_threshold : Z)
    (convert_large_pngs_to_jpeg : bool) (png_to_jpeg_threshold : Z)
    (compute_target_dimensions_fn : planner) : M (bool * Z * Z) :=
  let xref := xref image_info in
  base_image ← extract_image xref;
  let image_bytes := image base_image in
  let original_size := len image_bytes in
  let digest := sha1 image_bytes in
  cached ← cache_get digest;
  match cached with
  | Some cached => replay_cached xref cached
  | None =>
      if skip_small_images && (original_size <=? small_image_threshold)%Z
      then record_not_optimized digest original_size
      else
        let image_ext := lower (ext base_image) in
        let original_width := width base_image in
        let original_height := height base_image in
        let bpc := default 8%Z (bpc base_image) in
        if (bpc <=? 1)%Z && negb (String.eqb image_ext "png")
        then record_not_optimized digest original_size
        else
          target ← lift (compute_target_dimensions_fn page image_info
                           original_width original_height max_dpi);
          _ ← log (EvEncode Pillow image_bytes);
          optimized_bytes ← lift
            (pil_encode image_bytes image_ext (original_width, original_height) target
               (smask_present image_info) image_quality convert_large_pngs_to_jpeg
               png_to_jpeg_threshold original_size bpc);
          accept_or_reject xref digest original_size optimized_bytes
  end.

(** The body of the [try] block of [optimize_image]. *)
Definition pyvips_attempt (xref : Z) (digest image_bytes : bytes) (image_ext : string)
    (original target : Z * Z) (image_info : image_info) (image_quality : Z)
    (convert_large_pngs_to_jpeg : bool) (png_to_jpeg_threshold original_size bpc : Z)
    : M (bool * Z * Z) :=
  _ ← log (EvEncode Pyvips image_bytes);
  optimized_bytes ← lift
    (pyvips_encode image_bytes image_ext original target
       (smask_present image_info) image_quality convert_large_pngs_to_jpeg
       png_to_jpeg_threshold original_size bpc);
  accept_or_reject xref digest original_size optimized_bytes.

Definition optimize_image (page : Page) (image_info : image_info)
    (image_quality : Z) (max_dpi : option Z)
    (skip_small_images : bool) (small_image_threshold : Z)
    (convert_large_pngs_to_jpeg : bool) (png_to_jpeg_threshold : Z)
    (compute_target_dimensions_fn : planner) : M (bool * Z * Z) :=
  let xref := xref image_info in
  base_image ← extract_image xref;
  let image_bytes := image base_image in
  let original_size := len image_bytes in
  let digest := sha1 image_bytes in
  cached ← cache_get digest;
  match cached with
  | Some cached => replay_cached xref cached
  | None =>
      if skip_small_images && (original_size <=? small_image_threshold)%Z
      then record_not_optimized digest original_size
      else
        let image_ext := lower (ext base_image) in
        let original_width := width base_image in
        let original_height := height base_image in
        let bpc := default 8%Z (bpc base_image) in
        if (bpc <=? 1)%Z && negb (String.eqb image_ext "png")
        then record_not_optimized digest original_size
        else
          target ← lift (compute_target_dimensions_fn page image_info
                           original_width original_height max_dpi);
          try_except
            (pyvips_attempt xref digest image_bytes image_ext
               (original_width, original_height) target image_info image_quality
               convert_large_pngs_to_jpeg png_to_jpeg_threshold original_size bpc)
            (fun _ =>
               _optimize_image_with_pil page image_info image_quality max_dpi
                 skip_small_images small_image_threshold
                 convert_large_pngs_to_jpeg png_to_jpeg_threshold
                 compute_target_dimensions_fn)
  end.
End Optimizer.

(** ** pdf_processor._iter_unique_images *)

(** The images of one page whose object id has not been seen yet, and
    the object ids seen afterwards. *)
Fixpoint unseen_images (page : Page) (listed : list image_info) (seen_xrefs : gset Z)
    : list (Page * image_info) * gset Z :=
  match listed with
  | [] => ([], seen_xrefs)
  | image_info :: rest =>
      if decide (xref image_info ∈ seen_xrefs)
      then unseen_images page rest seen_xrefs
      else
        let '(more, seen) := unseen_images page rest ({[xref image_info]} ∪ seen_xrefs) in
        ((page, image_info) :: more, seen)
  end.

(** The generator, as the pairs it yields and the exception, if any,
    that ends it (raised by the listing of a page).  The listing of a
    page is taken as a property of the page that the loop does not
    change, so the pairs are computed ahead of the loop; the exception
    still reaches the loop only after the pairs yielded before it have
    been processed.  With PyMuPDF a replacement also adds an object to
    the resources of the page, which a listing made after it can show:
    what is said below about a run is said about the objects of the
    opened document. *)
Fixpoint iter_pages (pages : list Page) (seen_xrefs : gset Z)
    : list (Page * image_info) * option exn :=
  match pages with
  | [] => ([], None)
  | page :: rest =>
      match get_images page with
      | Raise e => ([], Some e)
      | Ok listed =>
          let '(items, seen) := unseen_images page listed seen_xrefs in
          let '(more, status) := iter_pages rest seen in
          (items ++ more, status)
      end
  end.

Definition _iter_unique_images (doc : Document) : list (Page * image_info) * option exn :=
  iter_pages (pages doc) ∅.

(** ** pdf_processor._compress_document *)

Section Processor.
Context `{Libs}.

(** The [for] loop over the yielded pairs.  An exception raised by
    [optimize_image] is swallowed and the loop goes on. *)
Fixpoint compress_loop (items : list (Page * image_info))
    (quality : Z) (effective_dpi : option Z)
    (skip_small_images : bool) (small_image_threshold : Z)
    (convert_large_pngs_to_jpeg : bool) (png_to_jpeg_threshold : Z)
    (totals : Z * Z * Z) : M (Z * Z * Z) :=
  match items with
  | [] => mret totals
  | (page, image_info) :: rest => fun st =>
      let continue totals :=
        compress_loop rest quality effective_dpi skip_small_images
          small_image_threshold convert_large_pngs_to_jpeg png_to_jpeg_threshold totals in
      match optimize_image page image_info quality effective_dpi skip_small_images
              small_image_threshold convert_large_pngs_to_jpeg png_to_jpeg_threshold
              compute_target_dimensions st with
      | (Raise e, st') =>
          continue totals (add_events st' [EvCaught (xref image_info) e])
      | (Ok (optimized, original_size, optimized_size), st') =>
          let '(images_replaced, total_original, total_optimized) := totals in
          if optimized : bool
          then continue (images_replaced + 1, total_original + original_size,
                         total_optimized + optimized_size)%Z st'
          else continue totals st'
      end
  end.

Definition _compress_document (image_quality : Z) (max_dpi : option Z)
    (skip_small_images : bool) (small_image_threshold : Z)
    (convert_large_pngs_to_jpeg : bool) (png_to_jpeg_threshold : Z)
    : M (Z * Z * Z) := fun st =>
  let quality := Z.max 1 (Z.min image_quality 100) in
  let effective_dpi := max_dpi in
  let st0 := {| doc := doc st; cache := ∅; trace := trace st |} in
  let '(items, status) := _iter_unique_images (doc st) in
  match compress_loop items quality effective_dpi skip_small_images
          small_image_threshold convert_large_pngs_to_jpeg png_to_jpeg_threshold
          (0, 0, 0)%Z st0 with
  | (Ok totals, st') =>
      match status with
      | None => (Ok totals, st')
      | Some e => (Raise e, st')
      end
  | (Raise e, st') => (Raise e, st')
  end.

(** [compress_pdf], from the opened document to the document that is
    saved; parsing and serialisation belong to the host library. *)
Definition compress_pdf (opened : Document) (image_quality : Z) (max_dpi : option Z)
    (skip_small_images : bool) (small_image_threshold : Z)
    (convert_large_pngs_to_jpeg : bool) (png_to_jpeg_threshold : Z) : result Document :=
  match _compress_document image_quality max_dpi skip_small_images small_image_threshold
          convert_large_pngs_to_jpeg png_to_jpeg_threshold
          {| doc := opened; cache := ∅; trace := [] |} with
  | (Ok _, st') => Ok (doc st')
  | (Raise e, _) => Raise e
  end.
End Processor.

(** ** Observations used in the statements *)

(** The bytes stored under an object id. *)
Definition stored_bytes (st : State) (xref : Z) : option bytes :=
  image <$> images (doc st) !! xref.

(** The entry written for an accepted image. *)
Definition accepted (original_size : Z) (optimized_bytes : bytes) : ImageOptimizationResult :=
  {| optimized := true; data := Some optimized_bytes;
     original_size := original_size; optimized_size := len optimized_bytes |}.

(** The two skip tests that precede encoding. *)
Definition skipped (skip_small_images : bool) (small_image_threshold : Z)
    (base : base_image) : bool :=
  (skip_small_images && (len (image base) <=? small_image_threshold)%Z)
  || ((default 8%Z (bpc base) <=? 1)%Z && negb (String.eqb (lower (ext base)) "png")).

(** What the acceptance gate does with the bytes produced for the image
    stored as [base] under [xref]. *)
Definition gate_outcome (xref : Z) (digest : bytes) (base : base_image)
    (optimized_bytes : bytes) (st : State) : result (bool * Z * Z) * State :=
  let original_size := len (image base) in
  if no_gain (len optimized_bytes) original_size then
    (Ok (false, original_size, original_size),
     add_entry st digest (not_optimized original_size))
  else
    (Ok (true, original_size, len optimized_bytes),
     add_entry (add_events (put_stream st xref base optimized_bytes)
                  [EvReplace xref optimized_bytes])
       digest (accepted original_size optimized_bytes)).

(** The bytes produced by the encoder for the stored image [base]: those
    of the primary backend, or those of the fallback when the primary
    raises. *)
Definition dual_backend_encode `{Libs} (info : image_info) (image_quality : Z)
    (convert_large_pngs_to_jpeg : bool) (png_to_jpeg_threshold : Z)
    (base : base_image) (target : Z * Z) : result bytes :=
  match pyvips_encode (image base) (lower (ext base)) (width base, height base)
          target (smask_present info) image_quality convert_large_pngs_to_jpeg
          png_to_jpeg_threshold (len (image base)) (default 8%Z (bpc base)) with
  | Ok optimized_bytes => Ok optimized_bytes
  | Raise _ =>
      pil_encode (image base) (lower (ext base)) (width base, height base)
        target (smask_present info) image_quality convert_large_pngs_to_jpeg
        png_to_jpeg_threshold (len (image base)) (default 8%Z (bpc base))
  end.

(** Events counted in a trace: encoding attempts of a backend on bytes
    with a given digest, replacements, and swallowed exceptions. *)
Definition is_encode `{Libs} (b : backend) (digest : bytes) (ev : event) : bool :=
  match ev with
  | EvEncode b' image_bytes =>
      bool_decide (sha1 image_bytes = digest)
      && match b, b' with Pyvips, Pyvips | Pillow, Pillow => true | _, _ => false end
  | _ => false
  end.

Definition is_replace (ev : event) : bool :=
  match ev with EvReplace _ _ => true | _ => false end.

Definition is_caught (ev : event) : bool :=
  match ev with EvCaught _ _ => true | _ => false end.

Definition count (p : event -> bool) (tr : list event) : nat :=
  length (List.filter p tr).

(** The bytes an occurrence ends with once the outcome [entry] for bytes
    [image_bytes] has been applied to it. *)
Definition final_bytes (entry : ImageOptimizationResult) (image_bytes : bytes) : bytes :=
  match optimized entry, data entry with
  | true, Some stream => stream
  | _, _ => image_bytes
  end.

(** Every entry marked as optimized carries its bytes. *)
Definition cache_wf (cache : gmap bytes ImageOptimizationResult) : Prop :=
  forall digest entry,
    cache !! digest = Some entry -> optimized entry = true -> is_Some (data entry).

(** The state in which [compress_pdf] starts on an opened document. *)
Definition initial (opened : Document) : State :=
  {| doc := opened; cache := ∅; trace := [] |}.

(** The object ids of the yielded pairs. *)
Definition xrefs_of (items : list (Page * image_info)) : list Z :=
  map (fun item => xref (snd item)) items.

(** The exception of the attempt on [xref] was swallowed. *)
Definition caught_at (xref : Z) (tr : list event) : Prop :=
  exists e, EvCaught xref e ∈ tr.

(** Events that are encoding attempts on [image_bytes], at most one per
    backend. *)
Definition encodes_only `{Libs} (image_bytes : bytes) (evs : list event) : Prop :=
  count is_caught evs = 0%nat
  /\ count is_replace evs = 0%nat
  /\ forall b digest,
       (count (is_encode b digest) evs <= 1)%nat
       /\ ((0 < count (is_encode b digest) evs)%nat -> sha1 image_bytes = digest).

(** What one call of [optimize_image] on the object [xref], returning
    [r], may do to the state: pages and other objects are untouched,
    cache entries are kept, the events added are at most one encoding
    attempt per backend, made only for a digest that was not cached, and
    a call that returns leaves the occurrence with the final bytes of
    its cached outcome, while a call that raises changes neither the
    document nor the cache. *)
Record call_effect `{Libs} (xref : Z) (st : State) (r : result (bool * Z * Z))
    (st' : State) : Prop := {
  ce_pages : pages (doc st') = pages (doc st);
  ce_frame : forall y, y <> xref -> images (doc st') !! y = images (doc st) !! y;
  ce_cache_kept : forall digest entry,
    cache st !! digest = Some entry -> cache st' !! digest = Some entry;
  ce_cache_wf : cache_wf (cache st) -> cache_wf (cache st');
  ce_trace : exists evs,
    trace st' = trace st ++ evs
    /\ count is_caught evs = 0%nat
    /\ forall b digest,
         (count (is_encode b digest) evs <= 1)%nat
         /\ ((0 < count (is_encode b digest) evs)%nat -> is_Ok r = true ->
             cache st !! digest = None /\ is_Some (cache st' !! digest));
  ce_outcome : is_Ok r = true -> forall base,
    images (doc st) !! xref = Some base ->
    exists entry,
      cache st' !! sha1 (image base) = Some entry
      /\ stored_bytes st' xref = Some (final_bytes entry (image base));
  ce_raise : forall e, r = Raise e -> doc st' = doc st /\ cache st' = cache st
}.

(** The state after one iteration of the loop of [_compress_document]. *)
Definition after_item `{Libs} (quality : Z) (effective_dpi : option Z)
    (skip_small_images : bool) (small_image_threshold : Z)
    (convert_large_pngs_to_jpeg : bool) (png_to_jpeg_threshold : Z)
    (st : State) (item : Page * image_info) : State :=
  match optimize_image (fst item) (snd item) quality effective_dpi skip_small_images
          small_image_threshold convert_large_pngs_to_jpeg png_to_jpeg_threshold
          compute_target_dimensions st with
  | (Raise e, st') => add_events st' [EvCaught (xref (snd item)) e]
  | (Ok _, st') => st'
  end.

(** What holds between two iterations, [done] being the object ids
    processed so far and [stored] the images of the opened document. *)
Record run_inv `{Libs} (stored : gmap Z base_image) (done : list Z) (st : State)
    : Prop := {
  ri_wf : cache_wf (cache st);
  ri_count : forall b digest,
    (count (is_encode b digest) (trace st)
     <= count is_caught (trace st)
        + match cache st !! digest with Some _ => 1 | None => 0 end)%nat;
  ri_untouched : forall x, x ∉ done -> images (doc st) !! x = stored !! x;
  ri_done : forall x base,
    x ∈ done -> stored !! x = Some base -> ~ caught_at x (trace st) ->
    exists entry,
      cache st !! sha1 (image base) = Some entry
      /\ stored_bytes st x = Some (final_bytes entry (image base))
}.

(** ** Sample pages, documents and libraries *)

Module Sample.

Definition info1 : image_info := {| xref := 1; smask := 0 |}.
Definition info2 : image_info := {| xref := 2; smask := 0 |}.

(** A page that places its images in a 100pt by 100pt box. *)
Definition page_placed (listed : list image_info) : Page :=
  {| number := 0; get_images := Ok listed;
     get_image_bbox := fun _ => Ok (BBoxRect {| Rect.width := 100; Rect.height := 100 |}) |}.

(** A page whose placement query raises [e]. *)
Definition page_unplaced (e : exn) (listed : list image_info) : Page :=
  {| number := 0; get_images := Ok listed;
     get_image_bbox := fun _ => Raise e |}.

(** Decoded images: RGBA with a given lowest alpha, and palette mode
    with given transparency metadata. *)
Definition rgba (lowest : Z) : PIL.Image :=
  {| PIL.mode := "RGBA"; PIL.alpha_lowest := PIL.ExtInt lowest;
     PIL.info_transparency := None; PIL.raster := [] |}.

Definition palette (t : option PIL.transparency) : PIL.Image :=
  {| PIL.mode := "P"; PIL.alpha_lowest := PIL.ExtOther;
     PIL.info_transparency := t; PIL.raster := [] |}.

Definition rgb : PIL.Image :=
  {| PIL.mode := "RGB"; PIL.alpha_lowest := PIL.ExtOther;
     PIL.info_transparency := None; PIL.raster := [] |}.

(** Libraries whose digest is the identity and whose two backends keep
    the first half of the bytes they are given. *)
Definition halving : Libs :=
  {| sha1 := fun image_bytes => image_bytes;
     Image_open := fun image_bytes =>
       Ok {| PIL.mode := "RGB"; PIL.alpha_lowest := PIL.ExtOther;
             PIL.info_transparency := None; PIL.raster := image_bytes |};
     Image_resize := fun pil_image _ => Ok pil_image;
     Image_convert := fun pil_image _ => Ok pil_image;
     Image_save := fun pil_image _ _ =>
       Ok (take (length (PIL.raster pil_image) / 2) (PIL.raster pil_image));
     vips_new_from_buffer := fun _ => Ok tt;
     vips_write_to_buffer := fun image_bytes _ _ =>
       Ok (take (length image_bytes / 2) image_bytes) |}.

(** Libraries whose two backends raise on every input. *)
Definition failing : Libs :=
  {| sha1 := fun image_bytes => image_bytes;
     Image_open := fun _ => Raise OSError;
     Image_resize := fun _ _ => Raise OSError;
     Image_convert := fun _ _ => Raise OSError;
     Image_save := fun _ _ _ => Raise OSError;
     vips_new_from_buffer := fun _ => Raise VipsError;
     vips_write_to_buffer := fun _ _ _ => Raise VipsError |}.

Definition payload : bytes := [x01; x02; x03; x04].

(** A 10 x 10 JPEG with the given declared bits per component. *)
Definition jpeg (bits : Z) : base_image :=
  {| image := payload; ext := "jpeg"; width := 10; height := 10;
     bpc := Some bits |}.

(** One page listing the objects 1 and 2, which store the same bytes;
    object 2 declares one bit per component. *)
Definition two_objects : Document :=
  {| pages := [page_placed [info1; info2]];
     images := <[1%Z := jpeg 8]> (<[2%Z := jpeg 1]> ∅) |}.

(** The same bytes under two object ids, both with 8 bits per component. *)
Definition twins : Document :=
  {| pages := [page_placed [info1; info2]];
     images := <[1%Z := jpeg 8]> (<[2%Z := jpeg 8]> ∅) |}.

(** A document whose second page cannot be listed. *)
Definition broken_listing : Document :=
  {| pages := [page_placed [info1];
               {| number := 1; get_images := Raise RuntimeError;
                  get_image_bbox := fun _ => Raise RuntimeError |}];
     images := <[1%Z := jpeg 8]> ∅ |}.

(** The same bytes under two object ids placed on two pages; the
    placement query of the first page raises [RuntimeError]. *)
Definition twins_on_two_pages : Document :=
  {| pages := [page_unplaced RuntimeError [info1]; page_placed [info2]];
     images := <[1%Z := jpeg 8]> (<[2%Z := jpeg 8]> ∅) |}.

End Sample.

(** ** Observations on the sizes recorded in a run *)

(** A replacement of the stream of one object. *)
Definition is_replace_at (xref : Z) (ev : event) : bool :=
  match ev with
  | EvReplace x _ => bool_decide (x = xref)
  | _ => false
  end.

(** A cache entry under [digest] comes from an image of the opened
    document that has been processed, with that digest and that size; an
    entry marked as optimized comes from an image that was not skipped
    and carries bytes that passed the gate against that size. *)
Definition entry_sound `{Libs} (skip_small_images : bool) (small_image_threshold : Z)
    (stored : gmap Z base_image) (done : list Z)
    (digest : bytes) (entry : ImageOptimizationResult) : Prop :=
  exists x base,
    x ∈ done /\ stored !! x = Some base /\ sha1 (image base) = digest
    /\ original_size entry = len (image base)
    /\ (optimized entry = true ->
        skipped skip_small_images small_image_threshold base = false
        /\ exists stream,
             data entry = Some stream /\ optimized_size entry = len stream
             /\ no_gain (len stream) (len (image base)) = false).

(** What holds between two iterations of the loop of
    [_compress_document] about sizes and replacements, [done] being the
    object ids processed so far and [totals] the three counters. *)
Record size_inv `{Libs} (skip_small_images : bool) (small_image_threshold : Z)
    (opened : Document) (done : list Z) (totals : Z * Z * Z) (st : State) : Prop := {
  si_pages : pages (doc st) = pages opened;
  si_cache : forall digest entry,
    cache st !! digest = Some entry ->
    entry_sound skip_small_images small_image_threshold (images opened) done digest entry;
  si_images : forall x,
    images (doc st) !! x = images opened !! x
    \/ exists base entry stream,
         images opened !! x = Some base
         /\ cache st !! sha1 (image base) = Some entry
         /\ optimized entry = true /\ data entry = Some stream
         /\ images (doc st) !! x = Some (with_stream base stream);
  si_untouched : forall x, x ∉ done -> images (doc st) !! x = images opened !! x;
  si_replaced : forall x,
    (count (is_replace_at x) (trace st) <= 1)%nat
    /\ (x ∉ done -> count (is_replace_at x) (trace st) = 0%nat);
  si_totals :
    (fst (fst totals) = Z.of_nat (count is_replace (trace st))
     /\ fst (fst totals) <= Z.of_nat (length done)
     /\ 0 <= snd totals
     /\ snd totals + fst (fst totals) <= snd (fst totals))%Z
}.

(** The counters after an iteration that returned [(optimized, a, b)]. *)
Definition counted (totals : Z * Z * Z) (optimized : bool) (a b : Z) : Z * Z * Z :=
  if optimized
  then (fst (fst totals) + 1, snd (fst totals) + a, snd totals + b)%Z
  else totals.

(** No two stored payloads of different content share a digest. *)
Definition collision_free `{Libs} (stored : gmap Z base_image) : Prop :=
  forall x y bx by',
    stored !! x = Some bx -> stored !! y = Some by' ->
    sha1 (image bx) = sha1 (image by') -> image bx = image by'.



(** ** Paths (pathlib) *)

(** A path is given by its anchor (drive and root, empty for a relative
    path) and the names that follow it.  The operations are those of
    [PurePath] that the program uses; [stem] and [suffix] split the
    final name at its last dot as CPython does up to version 3.13:
    [i = name.rfind(".")], and the split is made when
    [0 < i < len(name) - 1]. *)
Module pathlib.

Record PurePath : Type := { anchor : string; names : list string }.

#[global] Instance PurePath_eq_dec : EqDecision PurePath.
Proof. solve_decision. Defined.

(** [path.name], [path.parent] and [path / child] for a single name
    [child]. *)
Definition name (path : PurePath) : string := List.last (names path) ""%string.

Definition parent (path : PurePath) : PurePath :=
  {| anchor := anchor path; names := removelast (names path) |}.

Definition joinpath (path : PurePath) (child : string) : PurePath :=
  {| anchor := anchor path; names := names path ++ [child] |}.

(** The character ".". *)
Definition dot : Ascii.ascii := Ascii.ascii_of_nat 46.

(** The name split at its last dot, the dot going to the second part. *)
Fixpoint rsplit_dot (s : string) : option (string * string) :=
  match s with
  | EmptyString => None
  | String c rest =>
      match rsplit_dot rest with
      | Some (before, after) => Some (String c before, after)
      | None => if Ascii.eqb c dot then Some (EmptyString, s) else None
      end
  end.

(** [0 < i < len(name) - 1] for the split at index [i]. *)
Definition splits (before after : string) : bool :=
  negb (String.eqb before "") && negb (String.eqb after ".").

Definition suffix (name : string) : string :=
  match rsplit_dot name with
  | Some (before, after) => if splits before after then after else ""%string
  | None => ""%string
  end.

Definition stem (name : string) : string :=
  match rsplit_dot name with
  | Some (before, after) => if splits before after then before else name
  | None => name
  end.

(** [path.parts] and [path.parents] *)
Definition parts (path : PurePath) : list string :=
  (if String.eqb (anchor path) "" then [] else [anchor path]) ++ names path.

Fixpoint ancestors (root : string) (below : list string) : list PurePath :=
  match below with
  | [] => []
  | n :: rest =>
      {| anchor := root; names := [] |}
      :: map (fun p => {| anchor := root; names := n :: names p |}) (ancestors root rest)
  end.

Definition parents (path : PurePath) : list PurePath :=
  rev (ancestors (anchor path) (names path)).

End pathlib.
Import pathlib.

(** ** pdf_processor.compress_pdf_file *)

(** The file system and the document library behind
    [compress_pdf_file]: [Path.mkdir(parents=True, exist_ok=True)],
    [fitz.open(str(path))] and
    [doc.save(str(path), garbage=4, deflate=True, clean=True)], each a
    function of the state of the world that returns or raises. *)
Class Files : Type := {
  world : Type;
  mkdir : PurePath -> world -> result unit * world;
  fitz_open : PurePath -> world -> result Document * world;
  fitz_save : Document -> PurePath -> world -> result unit * world
}.

(** The output path used when none is given. *)
Definition default_output (input_path : PurePath) : PurePath :=
  joinpath (parent input_path)
    (stem (name input_path) ++ "_compressed" ++ suffix (name input_path))%string.

Definition compress_pdf_file `{Libs} `{Files} (input_path : PurePath)
    (output_path : option PurePath) (image_quality : Z) (max_dpi : option Z)
    (skip_small_images : bool) (small_image_threshold : Z)
    (convert_large_pngs_to_jpeg : bool) (png_to_jpeg_threshold : Z)
    : world -> result PurePath * world := fun w =>
  let output_path :=
    match output_path with
    | None => default_output input_path
    | Some output_path => output_path
    end in
  match mkdir (parent output_path) w with
  | (Raise e, w) => (Raise e, w)
  | (Ok _, w) =>
      match fitz_open input_path w with
      | (Raise e, w) => (Raise e, w)
      | (Ok opened, w) =>
          match _compress_document image_quality max_dpi skip_small_images
                  small_image_threshold convert_large_pngs_to_jpeg png_to_jpeg_threshold
                  (initial opened) with
          | (Raise e, _) => (Raise e, w)
          | (Ok _, st) =>
              match fitz_save (doc st) output_path w with
              | (Raise e, w) => (Raise e, w)
              | (Ok _, w) => (Ok output_path, w)
              end
          end
      end
  end.

(** ** gui.path_validator.is_path_restricted *)

(** The operating system as [is_path_restricted] sees it: whether
    [platform.system()] is ["Windows"] (paths then are Windows paths),
    [Path.home()], [path.resolve()], [path.exists()], [path.iterdir()]
    and [path.is_dir()].  The function only reads the file system, so
    each query is a function of its argument; each of them can raise. *)
Class Os : Type := {
  windows : bool;
  home : result PurePath;
  resolve : PurePath -> result PurePath;
  exists_ : PurePath -> result bool;
  iterdir : PurePath -> result (list PurePath);
  is_dir : PurePath -> result bool
}.

Section PathValidator.
Context `{Os}.

(** Windows paths compare without regard to case (of ASCII letters
    here). *)
Definition casefold (path : PurePath) : PurePath :=
  if windows
  then {| anchor := lower (anchor path); names := map lower (names path) |}
  else path.

(** [p == q] *)
Definition same_path (p q : PurePath) : bool :=
  bool_decide (casefold p = casefold q).

(** [restricted in path.parents] *)
Definition among_parents (restricted path : PurePath) : bool :=
  existsb (same_path restricted) (parents path).

(** [str(path)] *)
Definition path_str (path : PurePath) : string :=
  match names path with
  | [] => if String.eqb (anchor path) "" then "." else anchor path
  | _ => anchor path ++ String.concat (if windows then "\" else "/") (names path)
  end%string.

(** A line break. *)
Definition nl : string := String (Ascii.ascii_of_nat 10) EmptyString.

Definition system_message (restricted : PurePath) : string :=
  ("Cannot process files in: " ++ path_str restricted ++ nl ++ nl
   ++ "System directories are not allowed.")%string.

Definition drive_root_message (folder_path : PurePath) : string :=
  ("Cannot process files in drive root: " ++ path_str folder_path ++ nl ++ nl
   ++ "Please select a specific folder.")%string.

Definition root_only_message (restricted : PurePath) : string :=
  ("Cannot process files in: " ++ path_str restricted ++ nl ++ nl
   ++ "Please select a specific subfolder (e.g., Downloads\MyProject or OneDrive\ClientFiles).")%string.

(** [Path("C:\\name")] and [Path("/name")] *)
Definition on_drive_c (child : string) : PurePath :=
  {| anchor := "C:\"; names := [child] |}.

Definition under_root (child : string) : PurePath :=
  {| anchor := "/"; names := [child] |}.

(** The candidates that exist, in their order. *)
Fixpoint existing (candidates : list PurePath) : result (list PurePath) :=
  match candidates with
  | [] => Ok []
  | onedrive_path :: rest =>
      present ← exists_ onedrive_path;
      more ← existing rest;
      Ok (if present : bool then onedrive_path :: more else more)
  end.

(** The loop over the entries of the home directory: the entries
    appended, and the exception that ended the loop if one did. *)
Fixpoint keep_onedrives (items : list PurePath) : list PurePath * option exn :=
  match items with
  | [] => ([], None)
  | item :: rest =>
      match is_dir item with
      | Raise e => ([], Some e)
      | Ok directory =>
          let '(more, stopped) := keep_onedrives rest in
          (if directory && String.prefix "OneDrive - " (name item)
           then item :: more else more, stopped)
      end
  end.

(** The directories found by listing the home directory; an [OSError]
    ends the search with what was found before it. *)
Definition company_onedrives (home_dir : PurePath) : result (list PurePath) :=
  match iterdir home_dir with
  | Ok items =>
      match keep_onedrives items with
      | (found, None) | (found, Some OSError) => Ok found
      | (_, Some e) => Raise e
      end
  | Raise OSError => Ok []
  | Raise e => Raise e
  end.

(** The two lists built at the start: [system_paths], blocked with all
    that lies below them, and [root_only_paths], blocked themselves
    only. *)
Definition restricted_lists : result (list PurePath * list PurePath) :=
  if windows then
    home_dir ← home;
    let system_paths :=
      [on_drive_c "Windows"; on_drive_c "Program Files"; on_drive_c "Program Files (x86)";
       on_drive_c "ProgramData"; on_drive_c "$Recycle.Bin"; joinpath home_dir "AppData"] in
    let root_only_paths :=
      [home_dir; joinpath home_dir "Desktop"; joinpath home_dir "Documents";
       joinpath home_dir "Downloads"; joinpath home_dir "Pictures";
       joinpath home_dir "Music"; joinpath home_dir "Videos"] in
    personal ← existing [joinpath home_dir "OneDrive"; joinpath home_dir "OneDrive - Personal"];
    let root_only_paths := root_only_paths ++ personal in
    found ← company_onedrives home_dir;
    Ok (system_paths, root_only_paths ++ found)
  else
    home_dir ← home;
    let system_paths :=
      [under_root "etc"; under_root "bin"; under_root "sbin"; under_root "usr";
       under_root "var"; under_root "System"; under_root "Library"; under_root "private"] in
    let root_only_paths :=
      [home_dir; joinpath home_dir "Desktop"; joinpath home_dir "Documents";
       joinpath home_dir "Downloads"; joinpath home_dir "Pictures";
       joinpath home_dir "Music"; joinpath home_dir "Movies"] in
    Ok (system_paths, root_only_paths).

(** The first loop: a system path blocks itself and what lies below it.
    An [OSError] or [ValueError] raised while resolving an entry skips
    the entry. *)
Fixpoint check_system_paths (folder_path : PurePath) (system_paths : list PurePath)
    : result (option string) :=
  match system_paths with
  | [] => Ok None
  | restricted :: rest =>
      match resolve restricted with
      | Ok restricted =>
          if same_path folder_path restricted || among_parents restricted folder_path
          then Ok (Some (system_message restricted))
          else check_system_paths folder_path rest
      | Raise OSError | Raise ValueError => check_system_paths folder_path rest
      | Raise e => Raise e
      end
  end.

(** The second loop: a root-only path blocks itself only. *)
Fixpoint check_root_only_paths (folder_path : PurePath) (root_only_paths : list PurePath)
    : result (option string) :=
  match root_only_paths with
  | [] => Ok None
  | restricted :: rest =>
      match resolve restricted with
      | Ok restricted =>
          if same_path folder_path restricted
          then Ok (Some (root_only_message restricted))
          else check_root_only_paths folder_path rest
      | Raise OSError | Raise ValueError => check_root_only_paths folder_path rest
      | Raise e => Raise e
      end
  end.

Definition is_path_restricted (folder_path : PurePath) : result (bool * string) :=
  folder_path ← resolve folder_path;
  lists ← restricted_lists;
  let '(system_paths, root_only_paths) := lists in
  blocked ← check_system_paths folder_path system_paths;
  match blocked with
  | Some message => Ok (true, message)
  | None =>
      if (length (parts folder_path) <=? 1)%nat
      then Ok (true, drive_root_message folder_path)
      else
        blocked ← check_root_only_paths folder_path root_only_paths;
        match blocked with
        | Some message => Ok (true, message)
        | None => Ok (false, ""%string)
        end
  end.

End PathValidator.

(** ** More [float] operations *)

Module Binary64Ops.
Local Open Scope Q_scope.

(** [x + y] and [x - y] on floats *)
Definition add (x y : Q) : Q := Binary64.round (x + y).
Definition sub (x y : Q) : Q := Binary64.round (x - y).

(** [x // y] on floats, for a divisor other than zero: the floor of the
    exact quotient, as a float.  The interpreter derives it from the
    exact remainder [fmod(x, y)] and obtains this value as long as the
    quotient is below 2^53. *)
Definition floordiv (x y : Q) : Q := Binary64.of_int (Qfloor (x / y)).

(** [x / n] for a float [x] and an [int] [n] *)
Definition div_int (x : Q) (n : Z) : result Q :=
  if (n =? 0)%Z then Raise ZeroDivisionError
  else Ok (Binary64.div x (Binary64.of_int n)).
End Binary64Ops.

(** ** gui.app: the sliders *)

(** The [command] of the two [ttk.Scale] widgets,
    [int(float(v) // step * step)] with step 2 for the quality and 10
    for the DPI; [v] is the float read from the position of the
    slider. *)
Definition snap (step : Z) (v : Q) : Z :=
  Binary64.to_int
    (Binary64.mul (Binary64Ops.floordiv v (Binary64.of_int step)) (Binary64.of_int step)).

(** ** gui.app.PDFCompressorApp.compress_pdfs *)

Inductive colour : Type := Red | Green | Orange.

(** The messages written to the status box and shown in message boxes.
    The text of a message is determined by its kind and by the values
    formatted into it, which is what a constructor carries. *)
Inductive note : Type :=
  | NoteScanning
  | NotePyvipsVersion (version : string)
  | NotePyvipsMissing (e : exn)
  | NoteBlank
  | NoteNoFiles
  | NoteFound (total_files : Z)
  | NoteSettings (image_quality max_dpi : Z)
  | NoteCancelled (processed total_files : Z)
  | NoteProcessing (idx total_files : Z) (name : string)
  | NoteCompressed (original_size compressed_size : Z) (reduction elapsed : Q)
  | NoteNoReduction (elapsed : Q)
  | NoteNotCreated
  | NoteError (e : exn)
  | NoteRule (leading_break : bool)
  | NoteTitle (cancelled : bool)
  | NoteProcessed (processed total_files : Z)
  | NoteCompressedCount (compressed_count : Z)
  | NoteSkippedCount (skipped_count : Z)
  | NoteTotalSize (total_original_size total_compressed_size : Z) (total_reduction : Q)
  | NoteTotalTime (total_time : Q)
  | NoteAverage (seconds : Q)
  | NoteComplete (compressed_count total_original_size total_compressed_size : Z)
      (total_reduction : Q)
  | NoteFatal (e : exn).

(** The desktop behind the application, on the world of [Files]: the
    status box ([self.log]), the import of pyvips, the file system
    queries and updates made through [Path] (a size, [st_size], is a
    natural number), the clock, the flag set by the Cancel button, the
    progress bar, [root.update()], the message boxes, and the last
    statements of the [finally] block (flags reset, buttons
    reconfigured).  Every operation is a function
    of the state of the world; those that can raise return a result.
    [folder.rglob] is a generator: [rglob_pdf] gives the paths it
    yields and how the iteration ends, and the loop body runs for each
    path before the next one is asked for. *)
Class Desktop `{Files} : Type := {
  status_log : note -> option colour -> world -> result unit * world;
  import_pyvips : world -> result string * world;
  rglob_pdf : PurePath -> world -> list PurePath * result unit;
  is_file : PurePath -> world -> result bool;
  stat_size : PurePath -> world -> result N * world;
  path_exists : PurePath -> world -> result bool;
  path_replace : PurePath -> PurePath -> world -> result unit * world;
  path_unlink : PurePath -> world -> result unit * world;
  time_time : world -> Q * world;
  cancel_requested : world -> bool;
  set_progress : Q -> world -> result unit * world;
  root_update : world -> result unit * world;
  showinfo : note -> world -> result unit * world;
  showerror : note -> world -> result unit * world;
  add_handler : world -> world;
  reset_widgets : world -> result unit * world
}.

(** The calls on the file system that the statements speak about. *)
Inductive call : Type :=
  | CallCompress (input_path output_path : PurePath)
  | CallStat (path : PurePath) (size : result N)
  | CallReplace (source target : PurePath)
  | CallUnlink (path : PurePath)
  | CallLog (message : note).

(** The state of one run of [compress_pdfs]: the world, the calls made
    so far, and the local counters of the method, which keep their value
    when an exception is raised. *)
Record Session `{Files} : Type := {
  host : world;
  calls : list call;
  compressed_count : Z;
  skipped_count : Z;
  total_original_size : Z;
  total_compressed_size : Z;
  total_time : Q
}.

Section Gui.
Context `{Libs} `{Desktop}.

Definition Gui (A : Type) : Type := Session -> result A * Session.

#[global] Instance Gui_ret : MRet Gui := fun A a s => (Ok a, s).
#[global] Instance Gui_bind : MBind Gui := fun A B f m s =>
  match m s with
  | (Ok a, s') => f a s'
  | (Raise e, s') => (Raise e, s')
  end.

Definition with_host (s : Session) (w : world) (made : list call) : Session :=
  {| host := w; calls := calls s ++ made;
     compressed_count := compressed_count s; skipped_count := skipped_count s;
     total_original_size := total_original_size s;
     total_compressed_size := total_compressed_size s; total_time := total_time s |}.

(** A host operation, and the calls it is recorded as. *)
Definition perform {A} (op : world -> result A * world) (made : result A -> list call)
    : Gui A := fun s =>
  let '(r, w) := op (host s) in (r, with_host s w (made r)).

Definition query {A} (op : world -> A) : Gui A := fun s => (Ok (op (host s)), s).

(** A look at the world that may raise. *)
Definition ask {A} (op : world -> result A) : Gui A := fun s => (op (host s), s).

(** A computation that may raise and touches nothing, and a look at the
    counters. *)
Definition compute {A} (r : result A) : Gui A := fun s => (r, s).

Definition locals : Gui Session := fun s => (Ok s, s).

Definition say (message : note) (colour : option colour) : Gui unit :=
  perform (status_log message colour) (fun _ => [CallLog message]).

Definition now : Gui Q := perform (fun w => let '(t, w) := time_time w in (Ok t, w)) (fun _ => []).

(** Updates of the counters. *)
Definition add_time (elapsed : Q) : Gui unit := fun s =>
  (Ok tt,
   {| host := host s; calls := calls s;
      compressed_count := compressed_count s; skipped_count := skipped_count s;
      total_original_size := total_original_size s;
      total_compressed_size := total_compressed_size s;
      total_time := Binary64Ops.add (total_time s) elapsed |}).

Definition count_compressed (original_size compressed_size : Z) : Gui unit := fun s =>
  (Ok tt,
   {| host := host s; calls := calls s;
      compressed_count := compressed_count s + 1; skipped_count := skipped_count s;
      total_original_size := total_original_size s + original_size;
      total_compressed_size := total_compressed_size s + compressed_size;
      total_time := total_time s |}).

Definition count_skipped (original_size : Z) : Gui unit := fun s =>
  (Ok tt,
   {| host := host s; calls := calls s;
      compressed_count := compressed_count s; skipped_count := skipped_count s + 1;
      total_original_size := total_original_size s + original_size;
      total_compressed_size := total_compressed_size s + original_size;
      total_time := total_time s |}).

(** [pdf_path.parent / f"_compressed_{pdf_path.name}"] *)
Definition temp_output (pdf_path : PurePath) : PurePath :=
  joinpath (parent pdf_path) ("_compressed_" ++ name pdf_path)%string.

(** The call of [compress_pdf_file] with the two settings of the
    application and the defaults of the other parameters.  It is
    recorded as one call; the warnings that the log handler passes on
    to the status box while it runs are not recorded apart. *)
Definition compress_to (pdf_path temp_output : PurePath) (image_quality max_dpi : Z)
    : Gui unit :=
  perform
    (fun w =>
       let '(r, w) := compress_pdf_file pdf_path (Some temp_output) image_quality
                        (Some max_dpi) true 500000 true 200000 w in
       (_ ← r; Ok tt, w))
    (fun _ => [CallCompress pdf_path temp_output]).

(** The body of the [try] block of the loop. *)
Definition process_pdf (idx total_files : Z) (pdf_path : PurePath) (original_size : Z)
    (image_quality max_dpi : Z) : Gui unit :=
  _ ← say (NoteProcessing idx total_files (name pdf_path)) None;
  start_time ← now;
  let temp_output := temp_output pdf_path in
  _ ← compress_to pdf_path temp_output image_quality max_dpi;
  end_time ← now;
  let elapsed := Binary64Ops.sub end_time start_time in
  _ ← add_time elapsed;
  present ← ask (path_exists temp_output);
  if present : bool then
    st_size ← perform (stat_size temp_output) (fun r => [CallStat temp_output r]);
    let compressed_size := Z.of_N st_size in
    if (compressed_size <? original_size)%Z then
      _ ← perform (path_replace temp_output pdf_path)
            (fun _ => [CallReplace temp_output pdf_path]);
      ratio ← compute (Binary64.int_truediv compressed_size original_size);
      let reduction :=
        Binary64.mul (Binary64Ops.sub (Binary64.of_int 1) ratio) (Binary64.of_int 100) in
      _ ← say (NoteCompressed original_size compressed_size reduction elapsed) (Some Green);
      count_compressed original_size compressed_size
    else
      _ ← perform (path_unlink temp_output) (fun _ => [CallUnlink temp_output]);
      _ ← say (NoteNoReduction elapsed) None;
      count_skipped original_size
  else
    _ ← say NoteNotCreated (Some Red);
    count_skipped original_size.

(** One iteration after the test of the Cancel flag: the [try] block,
    its [except Exception] clause, and the update of the progress bar. *)
Definition handle_pdf (idx total_files : Z) (pdf_path : PurePath) (original_size : Z)
    (image_quality max_dpi : Z) : Gui unit := fun s =>
  let after :=
    match process_pdf idx total_files pdf_path original_size image_quality max_dpi s with
    | (Ok _, s) => (Ok tt, s)
    | (Raise e, s) =>
        (_ ← say (NoteError e) (Some Red); count_skipped original_size) s
    end in
  match after with
  | (Ok _, s) =>
      (progress ← compute (Binary64.int_truediv idx total_files);
       _ ← perform (set_progress (Binary64.mul progress (Binary64.of_int 100))) (fun _ => []);
       perform root_update (fun _ => [])) s
  | (Raise e, s) => (Raise e, s)
  end.

(** The [for] loop over the files found, [idx] counting from 1. *)
Fixpoint compress_each (pdf_files : list (PurePath * Z)) (idx total_files : Z)
    (image_quality max_dpi : Z) : Gui unit :=
  match pdf_files with
  | [] => compute (Ok tt)
  | (pdf_path, original_size) :: rest => fun s =>
      if cancel_requested (host s) then
        say (NoteCancelled (idx - 1) total_files) (Some Red) s
      else
        match handle_pdf idx total_files pdf_path original_size image_quality max_dpi s with
        | (Ok _, s) => compress_each rest (idx + 1) total_files image_quality max_dpi s
        | (Raise e, s) => (Raise e, s)
        end
  end.

(** The scan of the folder: the regular files among the matches whose
    size exceeds 5 MiB, with their sizes. *)
Fixpoint scan (found : list PurePath) : Gui (list (PurePath * Z)) :=
  match found with
  | [] => compute (Ok [])
  | pdf_path :: rest =>
      regular ← ask (is_file pdf_path);
      if regular : bool then
        st_size ← perform (stat_size pdf_path) (fun r => [CallStat pdf_path r]);
        let size := Z.of_N st_size in
        more ← scan rest;
        compute (Ok (if (5 * 1024 * 1024 <? size)%Z then (pdf_path, size) :: more else more))
      else scan rest
  end.

(** The summary written after the loop. *)
Definition summarize (total_files : Z) : Gui unit :=
  cancelled ← query cancel_requested;
  _ ← (if cancelled : bool then compute (Ok tt)
       else perform (set_progress (Binary64.of_int 100)) (fun _ => []));
  s ← locals;
  total_reduction ←
    (if (0 <? total_original_size s)%Z then
       ratio ← compute (Binary64.int_truediv (total_compressed_size s)
                          (total_original_size s));
       compute (Ok (Binary64.mul (Binary64Ops.sub (Binary64.of_int 1) ratio)
                      (Binary64.of_int 100)))
     else compute (Ok 0%Q));
  _ ← say (NoteRule true) None;
  cancelled ← query cancel_requested;
  _ ← say (NoteTitle cancelled) None;
  _ ← say (NoteRule false) None;
  let processed := (compressed_count s + skipped_count s)%Z in
  _ ← say (NoteProcessed processed total_files) None;
  _ ← say (NoteCompressedCount (compressed_count s)) None;
  _ ← say (NoteSkippedCount (skipped_count s)) None;
  _ ← (if (0 <? total_original_size s)%Z then
         say (NoteTotalSize (total_original_size s) (total_compressed_size s)
                total_reduction) None
       else compute (Ok tt));
  _ ← (if Binary64.ltb 0 (total_time s) && (0 <? processed)%Z then
         _ ← say (NoteTotalTime (total_time s)) None;
         average ← compute (Binary64Ops.div_int (total_time s) processed);
         say (NoteAverage average) None
       else compute (Ok tt));
  cancelled ← query cancel_requested;
  if cancelled : bool then compute (Ok tt)
  else perform (showinfo (NoteComplete (compressed_count s) (total_original_size s)
                            (total_compressed_size s) total_reduction)) (fun _ => []).

(** The [try] block that reports whether pyvips can be imported. *)
Definition report_pyvips : Gui unit := fun s =>
  match perform import_pyvips (fun _ => []) s with
  | (Ok version, s) =>
      match say (NotePyvipsVersion version) (Some Green) s with
      | (Ok _, s) => (Ok tt, s)
      | (Raise e, s) => say (NotePyvipsMissing e) (Some Red) s
      end
  | (Raise e, s) => say (NotePyvipsMissing e) (Some Red) s
  end.

(** What is done with the files found by the scan. *)
Definition compress_found (pdf_files : list (PurePath * Z)) (image_quality max_dpi : Z)
    : Gui unit :=
  let total_files := Z.of_nat (length pdf_files) in
  if (total_files =? 0)%Z then say NoteNoFiles (Some Orange)
  else
    _ ← say (NoteFound total_files) None;
    _ ← say (NoteSettings image_quality max_dpi) None;
    _ ← compress_each pdf_files 1 total_files image_quality max_dpi;
    summarize total_files.

(** The body of the outer [try] block. *)
Definition compress_folder (folder : PurePath) (image_quality max_dpi : Z) : Gui unit :=
  _ ← say NoteScanning None;
  _ ← report_pyvips;
  _ ← say NoteBlank None;
  found ← query (rglob_pdf folder);
  pdf_files ← scan (fst found);
  _ ← compute (snd found);
  compress_found pdf_files image_quality max_dpi.

(** [compress_pdfs]: the handler is registered, the body runs, an
    exception of the body is reported, and the [finally] block restores
    the widgets whatever happened. *)
Definition compress_pdfs (folder : PurePath) (image_quality max_dpi : Z) : Gui unit :=
  fun s =>
  let s := with_host s (add_handler (host s)) [] in
  let '(r, s) :=
    match compress_folder folder image_quality max_dpi s with
    | (Ok _, s) => (Ok tt, s)
    | (Raise e, s) =>
        (_ ← say (NoteFatal e) (Some Red);
         perform (showerror (NoteFatal e)) (fun _ => [])) s
    end in
  match perform reset_widgets (fun _ => []) s with
  | (Ok _, s) => (r, s)
  | (Raise e, s) => (Raise e, s)
  end.

(** The session in which [compress_pdfs] starts. *)
Definition session (w : world) : Session :=
  {| host := w; calls := []; compressed_count := 0; skipped_count := 0;
     total_original_size := 0; total_compressed_size := 0; total_time := 0 |}.

(** *** Observations on a run of [compress_pdfs] *)

(** What the calls [made] do to files, [pdf_files] being the files
    found with the sizes they had at the scan.  A compression reads one
    of the files found and writes its temporary output.  A replacement
    moves the temporary output of one of the files found onto that
    file, right after the size of the temporary output has been read
    and found smaller than the size the file had at the scan.  A
    deletion removes the temporary output of one of the files found,
    right after its size has been read and found not smaller. *)
Definition in_order (pdf_files : list (PurePath * Z)) (made : list call) : Prop :=
  forall i c,
    made !! i = Some c ->
    match c with
    | CallCompress input_path output_path =>
        exists original_size,
          (input_path, original_size) ∈ pdf_files
          /\ output_path = temp_output input_path
    | CallReplace source target =>
        exists j st_size original_size,
          i = S j /\ made !! j = Some (CallStat source (Ok st_size))
          /\ (Z.of_N st_size < original_size)%Z
          /\ (target, original_size) ∈ pdf_files
          /\ source = temp_output target
    | CallUnlink path =>
        exists j st_size target original_size,
          i = S j /\ made !! j = Some (CallStat path (Ok st_size))
          /\ (original_size <= Z.of_N st_size)%Z
          /\ (target, original_size) ∈ pdf_files
          /\ path = temp_output target
    | CallStat _ _ | CallLog _ => True
    end.

(** A call that changes no file: the reading of a size, or a
    message. *)
Definition reads (c : call) : Prop :=
  match c with
  | CallStat _ _ | CallLog _ => True
  | _ => False
  end.

(** The file and its size come from the calls [scanned]: one of them
    read this size, above 5 MiB, for this file. *)
Definition seen_in (scanned : list call) (f : PurePath * Z) : Prop :=
  (5 * 1024 * 1024 < snd f)%Z
  /\ exists st_size,
       CallStat (fst f) (Ok st_size) ∈ scanned /\ Z.of_N st_size = snd f.

(** What the figures of three messages must satisfy. *)
Definition sane (c : call) : Prop :=
  match c with
  | CallLog (NoteCompressed original_size compressed_size _ _) =>
      (0 <= compressed_size < original_size)%Z
  | CallLog (NoteProcessed processed total_files) =>
      (0 <= processed <= total_files)%Z
  | CallLog (NoteTotalSize total_original total_compressed total_reduction) =>
      (0 <= total_compressed <= total_original)%Z
      /\ (0 <= total_reduction)%Q /\ (total_reduction <= 100)%Q
  | _ => True
  end.

(** The counters are in order: none is negative, and the bytes counted
    after compression are at most the bytes counted before. *)
Definition tally_ok (s : Session) : Prop :=
  (0 <= compressed_count s /\ 0 <= skipped_count s
   /\ 0 <= total_compressed_size s <= total_original_size s)%Z.

(** What a part of the method that handles at most [n] of the files
    [pdf_files] does to the session. *)
Record gui_effect (pdf_files : list (PurePath * Z)) (n : Z) (s s' : Session) : Prop := {
  ge_calls : exists made,
    calls s' = calls s ++ made
    /\ in_order pdf_files made /\ Forall sane made;
  ge_tally : tally_ok s -> tally_ok s';
  ge_counted :
    (compressed_count s + skipped_count s <= compressed_count s' + skipped_count s'
     <= compressed_count s + skipped_count s + n)%Z
}.

(** What the part of the method before the loop does to the session:
    it only reads sizes and writes messages, it leaves the counters as
    they are, and the files [pdf_files] are seen in the calls it
    makes. *)
Record survey (pdf_files : list (PurePath * Z)) (s s' : Session) : Prop := {
  sv_calls : exists scanned,
    calls s' = calls s ++ scanned
    /\ Forall reads scanned /\ Forall sane scanned
    /\ Forall (seen_in scanned) pdf_files;
  sv_counters :
    compressed_count s' = compressed_count s
    /\ skipped_count s' = skipped_count s
    /\ total_original_size s' = total_original_size s
    /\ total_compressed_size s' = total_compressed_size s
}.

(** What a run does from a session whose counters are in order and
    show no file yet: it first sees some files, and then handles no
    more than these. *)
Definition folder_effect (s : Session) (out : result unit * Session) : Prop :=
  tally_ok s -> (compressed_count s + skipped_count s = 0)%Z ->
  exists pdf_files seen,
    survey pdf_files s seen
    /\ gui_effect pdf_files (Z.of_nat (length pdf_files)) seen (snd out).

(** What a part that handles one file does: it counts the file when it
    returns and counts nothing when it raises. *)
Definition counted_effect (pdf_files : list (PurePath * Z)) (s : Session)
    (out : result unit * Session) : Prop :=
  gui_effect pdf_files (if is_Ok (fst out) then 1 else 0) s (snd out).

End Gui.

(** ** More sample libraries *)

Module Bench.

(** Libraries without a usable pyvips: loading a buffer raises, while
    Pillow decodes every buffer as a palette image, converts to the
    requested mode and writes the first half of the raster. *)
Definition pillow_only : Libs :=
  {| sha1 := fun image_bytes => image_bytes;
     Image_open := fun image_bytes =>
       Ok {| PIL.mode := "P"; PIL.alpha_lowest := PIL.ExtOther;
             PIL.info_transparency := None; PIL.raster := image_bytes |};
     Image_resize := fun pil_image _ => Ok pil_image;
     Image_convert := fun pil_image mode =>
       Ok {| PIL.mode := mode; PIL.alpha_lowest := PIL.alpha_lowest pil_image;
             PIL.info_transparency := PIL.info_transparency pil_image;
             PIL.raster := PIL.raster pil_image |};
     Image_save := fun pil_image _ _ =>
       Ok (take (length (PIL.raster pil_image) / 2) (PIL.raster pil_image));
     vips_new_from_buffer := fun _ => Raise RuntimeError;
     vips_write_to_buffer := fun _ _ _ => Raise RuntimeError |}.

(** Libraries whose Pillow cannot open anything, with a pyvips that
    keeps the first half of the bytes. *)
Definition pyvips_only : Libs :=
  {| sha1 := fun image_bytes => image_bytes;
     Image_open := fun _ => Raise OSError;
     Image_resize := fun _ _ => Raise OSError;
     Image_convert := fun _ _ => Raise OSError;
     Image_save := fun _ _ _ => Raise OSError;
     vips_new_from_buffer := fun _ => Ok tt;
     vips_write_to_buffer := fun image_bytes _ _ =>
       Ok (take (length image_bytes / 2) image_bytes) |}.

(** A 10 x 10 PNG with 8 bits per component. *)
Definition png : base_image :=
  {| image := Sample.payload; ext := "PNG"; width := 10; height := 10;
     bpc := Some 8%Z |}.

(** One page listing object 1, a PNG, and object 2, a JPEG. *)
Definition mixed : Document :=
  {| pages := [Sample.page_placed [Sample.info1; Sample.info2]];
     images := <[1%Z := png]> (<[2%Z := Sample.jpeg 8]> ∅) |}.

Definition report_pdf : PurePath :=
  {| anchor := "/"; names := ["home"; "ada"; "Documents"; "reports"; "q3.pdf"]%string |}.

(** A Unix desktop without symbolic links: every path resolves to
    itself. *)
Definition desk : Os :=
  {| windows := false;
     home := Ok {| anchor := "/"; names := ["home"; "ada"]%string |};
     resolve := fun path => Ok path;
     exists_ := fun _ => Ok true;
     iterdir := fun _ => Ok [];
     is_dir := fun _ => Ok true |}.

(** A Windows desktop with a company OneDrive folder in the home
    directory. *)
Definition pc : Os :=
  {| windows := true;
     home := Ok {| anchor := "C:\"; names := ["Users"; "ada"]%string |};
     resolve := fun path => Ok path;
     exists_ := fun _ => Ok false;
     iterdir := fun path =>
       Ok [joinpath path "OneDrive - Contoso"; joinpath path "Desktop"];
     is_dir := fun _ => Ok true |}.

(** A disk that knows the size of every file: a document is opened
    from where it was saved, and a saved copy takes 4 MiB. *)
Definition disk : Files :=
  {| world := list (PurePath * (Document * N));
     mkdir := fun _ w => (Ok tt, w);
     fitz_open := fun path w =>
       match List.find (fun entry => bool_decide (fst entry = path)) w with
       | Some entry => (Ok (fst (snd entry)), w)
       | None => (Raise OSError, w)
       end;
     fitz_save := fun saved path w => (Ok tt, (path, (saved, 4194304%N)) :: w) |}.

Definition lookup_file (path : PurePath) (w : list (PurePath * (Document * N)))
    : option (Document * N) :=
  option_map snd (List.find (fun entry => bool_decide (fst entry = path)) w).

Definition without (path : PurePath) (w : list (PurePath * (Document * N)))
    : list (PurePath * (Document * N)) :=
  List.filter (fun entry => negb (bool_decide (fst entry = path))) w.

(** A desktop on that disk with a silent status box, a clock that
    stands still and no Cancel: the search yields every file below the
    folder, in the order of the disk. *)
Definition disk_world : Type := list (PurePath * (Document * N)).

Definition office : @Desktop disk :=
  @Build_Desktop disk
    (* status_log *)
    (fun _ _ (w : disk_world) => (Ok tt, w))
    (* import_pyvips *)
    (fun w : disk_world => (Ok "8.15.1"%string, w))
    (* rglob_pdf *)
    (fun folder (w : disk_world) =>
       (List.filter (fun path => bool_decide (folder ∈ parents path)) (map fst w), Ok tt))
    (* is_file *)
    (fun path (w : disk_world) => Ok (bool_decide (is_Some (lookup_file path w))))
    (* stat_size *)
    (fun path (w : disk_world) =>
       match lookup_file path w with
       | Some entry => (Ok (snd entry), w)
       | None => (Raise OSError, w)
       end)
    (* path_exists *)
    (fun path (w : disk_world) => Ok (bool_decide (is_Some (lookup_file path w))))
    (* path_replace *)
    (fun source target (w : disk_world) =>
       match lookup_file source w with
       | Some entry => (Ok tt, (target, entry) :: without target (without source w))
       | None => (Raise OSError, w)
       end)
    (* path_unlink *)
    (fun path (w : disk_world) =>
       match lookup_file path w with
       | Some _ => (Ok tt, without path w)
       | None => (Raise OSError, w)
       end)
    (* time_time *)
    (fun w : disk_world => (0%Q, w))
    (* cancel_requested *)
    (fun _ : disk_world => false)
    (* set_progress *)
    (fun _ (w : disk_world) => (Ok tt, w))
    (* root_update *)
    (fun w : disk_world => (Ok tt, w))
    (* showinfo *)
    (fun _ (w : disk_world) => (Ok tt, w))
    (* showerror *)
    (fun _ (w : disk_world) => (Ok tt, w))
    (* add_handler *)
    (fun w : disk_world => w)
    (* reset_widgets *)
    (fun w : disk_world => (Ok tt, w)).

Definition notes_pdf : PurePath :=
  {| anchor := "/"; names := ["home"; "ada"; "Documents"; "notes.pdf"]%string |}.

Definition documents : PurePath :=
  {| anchor := "/"; names := ["home"; "ada"; "Documents"]%string |}.

(** The calls of a run other than the messages. *)
Definition file_calls (made : list call) : list call :=
  List.filter (fun c => match c with CallLog _ => false | _ => true end) made.

End Bench.

(* ================================================================== *)
(** * Part II: properties *)
(* ================================================================== *)

(** ** Rounding to binary64 *)

Module Binary64Facts.
Import Binary64.
Local Open Scope Q_scope.

Lemma pow2_pos (k : Z) : 0 < 2 ^ k.
Proof. apply Qpower_0_lt. reflexivity. Qed.

Lemma pow2_succ (k : Z) : 2 ^ (k + 1) == 2 * 2 ^ k.
Proof. rewrite Qpower_plus by discriminate. ring. Qed.

Lemma pow2_le (a b : Z) : (a <= b)%Z -> 2 ^ a <= 2 ^ b.
Proof. intros. apply Qpower_le_compat_l; [lia | discriminate]. Qed.

Lemma pow2_lt_inv (a b : Z) : 2 ^ a < 2 ^ b -> (a < b)%Z.
Proof. intros. apply (Qpower_lt_compat_l_inv 2); [assumption | reflexivity]. Qed.

Lemma pow2_inject (n : Z) : (0 <= n)%Z -> inject_Z (2 ^ n) == 2 ^ n.
Proof. intros. apply (Zpower_Qpower 2 n). assumption. Qed.

Lemma ilog2_spec (q : Q) : 0 < q -> 2 ^ ilog2 q <= q /\ q < 2 ^ (ilog2 q + 1).
Proof.
intros Hq. destruct q as [n d]. unfold ilog2. cbn [Qnum Qden].
assert (Hn : (0 < n)%Z) by (unfold Qlt in Hq; cbn in Hq; lia).
pose proof (Z.log2_spec n Hn) as [Hn1 Hn2].
pose proof (Z.log2_spec (Zpos d) (Pos2Z.is_pos d)) as [Hd1 Hd2].
pose proof (Z.log2_nonneg n) as Ha. pose proof (Z.log2_nonneg (Zpos d)) as Hb.
set (a := Z.log2 n) in *. set (b := Z.log2 (Zpos d)) in *.
assert (Hq1 : inject_Z n == (n # d) * inject_Z (Zpos d)).
{ unfold Qeq, Qmult, inject_Z. cbn. lia. }
assert (HA1 : 2 ^ a <= inject_Z n) by (rewrite <- pow2_inject by lia; rewrite <- Zle_Qle; lia).
assert (HA2 : inject_Z n < 2 * 2 ^ a).
{ rewrite <- pow2_succ, <- pow2_inject by lia. rewrite <- Zlt_Qlt. replace (a + 1)%Z with (Z.succ a) by lia. lia. }
assert (HB1 : 2 ^ b <= inject_Z (Zpos d)) by (rewrite <- pow2_inject by lia; rewrite <- Zle_Qle; lia).
assert (HB2 : inject_Z (Zpos d) < 2 * 2 ^ b).
{ rewrite <- pow2_succ, <- pow2_inject by lia. rewrite <- Zlt_Qlt. replace (b + 1)%Z with (Z.succ b) by lia. lia. }
assert (Hab : 2 ^ a == 2 ^ (a - b) * 2 ^ b).
{ rewrite <- Qpower_plus by discriminate. replace (a - b + b)%Z with a by lia. reflexivity. }
pose proof (pow2_pos (a - b)) as Hp. pose proof (pow2_pos b) as Hpb.
set (D := inject_Z (Z.pos d)) in *. set (N := inject_Z n) in *.
set (P := 2 ^ (a - b)) in *. set (B := 2 ^ b) in *. set (A := 2 ^ a) in *.
destruct (Qle_bool P (n # d)) eqn:Hc.
- apply Qle_bool_iff in Hc. split; [exact Hc |].
  rewrite pow2_succ. fold P. nra.
- assert (Hlt : (n # d) < P).
  { apply Qnot_le_lt. intros Hle. apply Qle_bool_iff in Hle. congruence. }
  replace (a - b - 1 + 1)%Z with (a - b)%Z by lia. fold P. split; [| exact Hlt].
  assert (HP : P == 2 * 2 ^ (a - b - 1)).
  { unfold P. rewrite <- pow2_succ. replace (a - b - 1 + 1)%Z with (a - b)%Z by lia. reflexivity. }
  pose proof (pow2_pos (a - b - 1)). set (P' := 2 ^ (a - b - 1)) in *. nra.
Qed.

Lemma ilog2_unique (q : Q) (k : Z) : 2 ^ k <= q -> q < 2 ^ (k + 1) -> ilog2 q = k.
Proof.
intros H1 H2.
assert (Hq : 0 < q) by (eapply Qlt_le_trans; [apply pow2_pos | exact H1]).
destruct (ilog2_spec q Hq) as [H3 H4].
assert (ilog2 q < k + 1)%Z by (apply pow2_lt_inv; eapply Qle_lt_trans; eassumption).
assert (k < ilog2 q + 1)%Z by (apply pow2_lt_inv; eapply Qle_lt_trans; eassumption).
lia.
Qed.

#[global] Instance rne_proper : Proper (Qeq ==> eq) rne.
Proof.
intros x y E. unfold rne.
assert (F : Qfloor x = Qfloor y) by (apply Qfloor_comp; exact E).
rewrite F.
assert (C : Qcompare (x - inject_Z (Qfloor y)) (1 # 2) = Qcompare (y - inject_Z (Qfloor y)) (1 # 2)).
{ apply Qcompare_comp; [| reflexivity]. apply Qplus_comp; [exact E | reflexivity]. }
rewrite C. reflexivity.
Qed.

Lemma rne_bounds (x : Q) : (Qfloor x <= rne x <= Qfloor x + 1)%Z.
Proof.
unfold rne. destruct (Qcompare _ _); [destruct (Z.even _) | |]; lia.
Qed.

Lemma rne_Z (z : Z) : rne (inject_Z z) = z.
Proof.
unfold rne. rewrite Qfloor_Z.
assert (E : Qcompare (inject_Z z - inject_Z z) (1 # 2) = Lt).
{ rewrite <- Qlt_alt. ring_simplify. reflexivity. }
rewrite E. reflexivity.
Qed.

Lemma rne_mono (x y : Q) : x <= y -> (rne x <= rne y)%Z.
Proof.
intros Hxy. pose proof (Qfloor_resp_le x y Hxy) as Hf.
destruct (Z.eq_dec (Qfloor x) (Qfloor y)) as [E | N].
- unfold rne. rewrite <- E.
  destruct (Qcompare (x - inject_Z (Qfloor x)) (1 # 2)) eqn:Cx;
    destruct (Qcompare (y - inject_Z (Qfloor x)) (1 # 2)) eqn:Cy;
    try (destruct (Z.even (Qfloor x))); try lia; exfalso.
  all: try (apply Qeq_alt in Cx); try (apply Qeq_alt in Cy);
       try (rewrite <- Qlt_alt in Cx); try (rewrite <- Qlt_alt in Cy);
       try (rewrite <- Qgt_alt in Cx); try (rewrite <- Qgt_alt in Cy); lra.
- pose proof (rne_bounds x). pose proof (rne_bounds y). lia.
Qed.

Lemma round_unfold (x : Q) : ~ x == 0 ->
round x == inject_Z (rne (x / 2 ^ (ilog2 (Qabs x) - 52))) * 2 ^ (ilog2 (Qabs x) - 52).
Proof.
intros Hx. unfold round. destruct (Qeq_bool x 0) eqn:E.
- apply Qeq_bool_iff in E. contradiction.
- apply Qred_correct.
Qed.

(** Significand of a positive number, scaled to its binade. *)
Lemma scaled_range (x : Q) : 0 < x ->
2 ^ 52 <= x / 2 ^ (ilog2 x - 52) /\ x / 2 ^ (ilog2 x - 52) < 2 ^ 53.
Proof.
intros Hx. destruct (ilog2_spec x Hx) as [H1 H2].
set (k := ilog2 x) in *.
assert (E1 : 2 ^ k == 2 ^ 52 * 2 ^ (k - 52)).
{ rewrite <- Qpower_plus by discriminate. replace (52 + (k - 52))%Z with k by lia. reflexivity. }
assert (E2 : 2 ^ (k + 1) == 2 ^ 53 * 2 ^ (k - 52)).
{ rewrite <- Qpower_plus by discriminate. replace (53 + (k - 52))%Z with (k + 1)%Z by lia. reflexivity. }
pose proof (pow2_pos (k - 52)) as Hp.
split.
- apply Qle_shift_div_l; [exact Hp |]. rewrite <- E1. exact H1.
- apply Qlt_shift_div_r; [exact Hp |]. rewrite <- E2. exact H2.
Qed.

Lemma significand_range (x : Q) : 0 < x ->
(2 ^ 52 <= rne (x / 2 ^ (ilog2 x - 52)) <= 2 ^ 53)%Z.
Proof.
intros Hx. destruct (scaled_range x Hx) as [H1 H2].
split.
- rewrite <- (rne_Z (2 ^ 52)). apply rne_mono.
  rewrite pow2_inject by lia. exact H1.
- rewrite <- (rne_Z (2 ^ 53)). apply rne_mono.
  rewrite pow2_inject by lia. apply Qlt_le_weak. exact H2.
Qed.

Lemma Qabs_pos_id (x : Q) : 0 < x -> Qabs x == x.
Proof. intros. apply Qabs_pos. apply Qlt_le_weak. assumption. Qed.

Lemma ilog2_proper_pos (x y : Q) : 0 < x -> x == y -> ilog2 x = ilog2 y.
Proof.
intros Hx E. destruct (ilog2_spec x Hx) as [H1 H2].
symmetry. apply ilog2_unique; rewrite <- E; assumption.
Qed.

Lemma round_pos_unfold (x : Q) : 0 < x ->
round x == inject_Z (rne (x / 2 ^ (ilog2 x - 52))) * 2 ^ (ilog2 x - 52).
Proof.
intros Hx. rewrite round_unfold by (intros E; rewrite E in Hx; discriminate).
assert (E : ilog2 (Qabs x) = ilog2 x).
{ apply ilog2_proper_pos; [| apply Qabs_pos_id; assumption].
  rewrite Qabs_pos_id; assumption. }
rewrite E. reflexivity.
Qed.

Lemma round_pos (x : Q) : 0 < x -> 0 < round x.
Proof.
intros Hx. rewrite round_pos_unfold by assumption.
pose proof (significand_range x Hx) as [H1 _].
apply Qmult_lt_0_compat; [| apply pow2_pos].
replace 0 with (inject_Z 0) by reflexivity. rewrite <- Zlt_Qlt. lia.
Qed.

Lemma round_mono_pos (x y : Q) : 0 < x -> x <= y -> round x <= round y.
Proof.
intros Hx Hxy.
assert (Hy : 0 < y) by (eapply Qlt_le_trans; eassumption).
rewrite (round_pos_unfold x Hx), (round_pos_unfold y Hy).
destruct (ilog2_spec x Hx) as [X1 X2]. destruct (ilog2_spec y Hy) as [Y1 Y2].
pose proof (significand_range x Hx) as [MX1 MX2].
pose proof (significand_range y Hy) as [MY1 MY2].
set (kx := ilog2 x) in *. set (ky := ilog2 y) in *.
assert (Hk : (kx <= ky)%Z).
{ assert (kx < ky + 1)%Z; [| lia]. apply pow2_lt_inv.
  eapply Qle_lt_trans; [exact X1 |]. eapply Qle_lt_trans; eassumption. }
destruct (Z.eq_dec kx ky) as [E | N].
- rewrite <- E. apply Qmult_le_compat_r; [| apply Qlt_le_weak, pow2_pos].
  rewrite <- Zle_Qle. apply rne_mono.
  apply Qmult_le_compat_r; [assumption |].
  apply Qlt_le_weak, Qinv_lt_0_compat, pow2_pos.
- apply Qle_trans with (2 ^ ky).
  + apply Qle_trans with (2 ^ (kx + 1)); [| apply pow2_le; lia].
    assert (E2 : 2 ^ (kx + 1) == inject_Z (2 ^ 53) * 2 ^ (kx - 52)).
    { rewrite pow2_inject by lia. rewrite <- Qpower_plus by discriminate.
      replace (53 + (kx - 52))%Z with (kx + 1)%Z by lia. reflexivity. }
    rewrite E2. apply Qmult_le_compat_r; [| apply Qlt_le_weak, pow2_pos].
    rewrite <- Zle_Qle. exact MX2.
  + assert (E1 : 2 ^ ky == inject_Z (2 ^ 52) * 2 ^ (ky - 52)).
    { rewrite pow2_inject by lia. rewrite <- Qpower_plus by discriminate.
      replace (52 + (ky - 52))%Z with ky by lia. reflexivity. }
    rewrite E1. apply Qmult_le_compat_r; [| apply Qlt_le_weak, pow2_pos].
    rewrite <- Zle_Qle. exact MY1.
Qed.

Lemma round_mono (x y : Q) : 0 <= x -> x <= y -> round x <= round y.
Proof.
intros Hx Hxy. destruct (Qlt_le_dec 0 x) as [P | Z].
- apply round_mono_pos; assumption.
- assert (E : x == 0) by (apply Qle_antisym; assumption).
  assert (E0 : round x = 0).
  { unfold round. apply Qeq_bool_iff in E. rewrite E. reflexivity. }
  rewrite E0. destruct (Qlt_le_dec 0 y) as [Py | Zy].
  + apply Qlt_le_weak, round_pos. assumption.
  + assert (Ey : y == 0) by (apply Qle_antisym; [assumption | rewrite <- E; assumption]).
    unfold round. apply Qeq_bool_iff in Ey. rewrite Ey. apply Qle_refl.
Qed.

(** Numbers with at most 53 significant bits are fixed by rounding. *)
Lemma round_exact (a e : Z) : (0 <= a < 2 ^ 53)%Z -> round (inject_Z a * 2 ^ e) == inject_Z a * 2 ^ e.
Proof.
intros [Ha0 Ha]. destruct (Z.eq_dec a 0%Z) as [-> | Hn].
- assert (E : inject_Z 0 * 2 ^ e == 0) by ring.
  unfold round. apply Qeq_bool_iff in E. rewrite E. apply Qeq_bool_iff in E. rewrite E. reflexivity.
- set (x := inject_Z a * 2 ^ e).
  assert (Hx : 0 < x).
  { apply Qmult_lt_0_compat; [| apply pow2_pos].
    replace 0 with (inject_Z 0) by reflexivity. rewrite <- Zlt_Qlt. lia. }
  rewrite round_pos_unfold by assumption.
  destruct (ilog2_spec x Hx) as [X1 X2]. set (k := ilog2 x) in *.
  assert (Hk : (k - 52 <= e)%Z).
  { assert (k < 53 + e)%Z; [| lia]. apply pow2_lt_inv.
    eapply Qle_lt_trans; [exact X1 |]. unfold x.
    rewrite Qpower_plus by discriminate.
    apply Qmult_lt_compat_r; [apply pow2_pos |].
    rewrite <- pow2_inject by lia. rewrite <- Zlt_Qlt. lia. }
  assert (Es : x / 2 ^ (k - 52) == inject_Z (a * 2 ^ (e - (k - 52)))).
  { unfold x. rewrite inject_Z_mult, pow2_inject by lia.
    unfold Zminus at 2. rewrite (Qpower_plus 2 e) by discriminate. rewrite Qpower_opp.
    field. pose proof (pow2_pos (k - 52)). lra. }
  rewrite Es, rne_Z. rewrite inject_Z_mult, pow2_inject by lia.
  unfold x. rewrite <- Qmult_assoc. rewrite <- Qpower_plus by discriminate.
  replace (e - (k - 52) + (k - 52))%Z with e by lia. reflexivity.
Qed.

#[global] Instance round_proper : Proper (Qeq ==> eq) round.
Proof.
intros x y E. unfold round.
destruct (Qeq_bool x 0) eqn:Bx.
- apply Qeq_bool_iff in Bx. assert (By : y == 0) by (rewrite <- E; exact Bx).
  apply Qeq_bool_iff in By. rewrite By. reflexivity.
- assert (By : Qeq_bool y 0 = false).
  { destruct (Qeq_bool y 0) eqn:B; [| reflexivity].
    apply Qeq_bool_iff in B. assert (X : x == 0) by (rewrite E; exact B).
    apply Qeq_bool_iff in X. congruence. }
  rewrite By.
  assert (Hx : 0 < Qabs x).
  { destruct (Qlt_le_dec 0 (Qabs x)) as [P | N]; [exact P |].
    exfalso. assert (Z : Qabs x == 0) by (apply Qle_antisym; [exact N | apply Qabs_nonneg]).
    pose proof (Qle_Qabs x) as A1. pose proof (Qle_Qabs (- x)) as A2.
    rewrite Qabs_opp in A2. assert (X : x == 0) by lra.
    apply Qeq_bool_iff in X. congruence. }
  assert (L : ilog2 (Qabs x) = ilog2 (Qabs y)).
  { apply ilog2_proper_pos; [exact Hx |]. apply Qabs_wd. exact E. }
  rewrite <- L. apply Qred_complete.
  assert (R : rne (x / 2 ^ (ilog2 (Qabs x) - 52)) = rne (y / 2 ^ (ilog2 (Qabs x) - 52))).
  { apply rne_proper. apply Qmult_comp; [exact E | reflexivity]. }
  rewrite R. reflexivity.
Qed.

Lemma round_Z (n : Z) : (0 <= n < 2 ^ 53)%Z -> round (inject_Z n) == inject_Z n.
Proof.
intros H. pose proof (round_exact n 0 H) as E.
assert (P : inject_Z n * 2 ^ 0 == inject_Z n) by (cbn; ring).
rewrite (round_proper _ _ P) in E. rewrite E. exact P.
Qed.

Lemma round_1 : round 1 == 1.
Proof. apply (round_Z 1). lia. Qed.

Lemma ltb_spec (x y : Q) : reflect (x < y) (ltb x y).
Proof.
  unfold ltb. destruct (Qle_bool y x) eqn:E; constructor.
  - apply Qle_bool_iff in E. apply Qle_not_lt. exact E.
  - apply Qnot_le_lt. intros L. apply Qle_bool_iff in L. congruence.
Qed.

Lemma min_le_l (x y : Q) : min x y <= x.
Proof. unfold min. destruct (ltb_spec y x); [apply Qlt_le_weak; assumption | apply Qle_refl]. Qed.

Lemma min_le_r (x y : Q) : min x y <= y.
Proof. unfold min. destruct (ltb_spec y x); [apply Qle_refl | apply Qnot_lt_le; assumption]. Qed.

Lemma min_pos (x y : Q) : 0 < x -> 0 < y -> 0 < min x y.
Proof. intros. unfold min. destruct (ltb y x); assumption. Qed.

Lemma inject_Z_pos (n : Z) : (0 < n)%Z -> 0 < inject_Z n.
Proof. intros. replace 0 with (inject_Z 0) by reflexivity. rewrite <- Zlt_Qlt. assumption. Qed.

(** The rounded quotient of two positive integers is positive, and at
    most 1 when the numerator is the smaller one. *)
Lemma quotient_pos (a b : Z) : (0 < a)%Z -> (0 < b)%Z -> 0 < round (inject_Z a / inject_Z b).
Proof.
  intros Ha Hb. apply round_pos. apply Qlt_shift_div_l.
  - apply inject_Z_pos. assumption.
  - rewrite Qmult_0_l. apply inject_Z_pos. assumption.
Qed.

Lemma quotient_le_1 (a b : Z) : (0 < a)%Z -> (a <= b)%Z -> round (inject_Z a / inject_Z b) <= 1.
Proof.
  intros Ha Hab. rewrite <- round_1. apply round_mono.
  - apply Qle_shift_div_l; [apply inject_Z_pos; lia |].
    rewrite Qmult_0_l. apply Qlt_le_weak, inject_Z_pos. assumption.
  - apply Qle_shift_div_r; [apply inject_Z_pos; lia |].
    rewrite Qmult_1_l. rewrite <- Zle_Qle. assumption.
Qed.

(** Scaling an exactly representable integer by a factor in (0, 1]
    never exceeds it. *)
Lemma int_mul_le (n : Z) (s : Q) :
  (0 < n < 2 ^ 53)%Z -> 0 < s -> s <= 1 -> int_mul n s <= inject_Z n.
Proof.
  intros Hn Hs0 Hs1. unfold int_mul, mul, of_int.
  assert (E : round (inject_Z n) == inject_Z n) by (apply round_Z; lia).
  assert (P : 0 < inject_Z n) by (apply inject_Z_pos; lia).
  assert (R : round (round (inject_Z n) * s) = round (inject_Z n * s)).
  { apply round_proper. rewrite E. reflexivity. }
  rewrite R. rewrite <- E at 2. apply round_mono; nra.
Qed.

End Binary64Facts.

(** ** The dimension planner *)

Lemma scaled_px_bounds (n : Z) (s : Q) :
  (0 < n < 2 ^ 53)%Z -> (0 < s)%Q -> (s <= 1)%Q -> (1 <= scaled_px n s <= n)%Z.
Proof.
  intros Hn Hs0 Hs1. unfold scaled_px, Binary64.floor. split; [lia |].
  apply Z.max_lub; [lia |].
  pose proof (Qfloor_resp_le _ _ (Binary64Facts.int_mul_le n s Hn Hs0 Hs1)) as L.
  rewrite Qfloor_Z in L. exact L.
Qed.

Lemma max_px_pos (dpi : Z) (extent : Q) : (1 <= max_px dpi extent)%Z.
Proof. unfold max_px. lia. Qed.

Lemma scale_factor_range (mw mh ow oh : Z) :
  (0 < mw)%Z -> (0 < mh)%Z -> (0 < ow)%Z -> (0 < oh)%Z -> (mw < ow \/ mh < oh)%Z ->
  (0 < scale_factor mw mh ow oh)%Q /\ (scale_factor mw mh ow oh <= 1)%Q.
Proof.
  intros Hmw Hmh How Hoh Hlt. unfold scale_factor. split.
  - apply Binary64Facts.min_pos; apply Binary64Facts.quotient_pos; assumption.
  - destruct Hlt as [L | L].
    + eapply Qle_trans; [apply Binary64Facts.min_le_l |].
      apply Binary64Facts.quotient_le_1; lia.
    + eapply Qle_trans; [apply Binary64Facts.min_le_r |].
      apply Binary64Facts.quotient_le_1; lia.
Qed.

(** What the planner computes once the placement rectangle is known and
    the ceiling is in force. *)
Lemma compute_target_dimensions_placed (page : Page) (info : image_info)
    (ow oh dpi : Z) (candidate : bbox_candidate) :
  (0 < dpi)%Z -> (ow <> 0)%Z -> (oh <> 0)%Z ->
  get_image_bbox page info = Ok candidate ->
  let mw := max_px dpi (Rect.width (rect_of candidate)) in
  let mh := max_px dpi (Rect.height (rect_of candidate)) in
  compute_target_dimensions page info ow oh (Some dpi) =
    if (ow <=? mw)%Z && (oh <=? mh)%Z then Ok (ow, oh)
    else Ok (scaled_px ow (scale_factor mw mh ow oh),
             scaled_px oh (scale_factor mw mh ow oh)).
Proof.
  intros Hd How Hoh Hb mw mh. unfold compute_target_dimensions.
  replace (dpi =? 0)%Z with false by lia. replace (dpi <=? 0)%Z with false by lia.
  cbn [orb]. rewrite Hb.
  fold mw mh.
  destruct ((ow <=? mw)%Z && (oh <=? mh)%Z); [reflexivity |].
  unfold Binary64.int_truediv.
  replace (ow =? 0)%Z with false by lia. replace (oh =? 0)%Z with false by lia.
  reflexivity.
Qed.

Lemma compute_target_dimensions_disabled (page : Page) (info : image_info)
    (ow oh dpi : Z) :
  (dpi <= 0)%Z -> compute_target_dimensions page info ow oh (Some dpi) = Ok (ow, oh).
Proof.
  intros Hd. unfold compute_target_dimensions.
  replace (dpi <=? 0)%Z with true by lia. rewrite orb_true_r. reflexivity.
Qed.

(** C8.  Whatever the placement rectangle and whatever the original
    dimensions, a DPI ceiling that is [None], zero or negative makes
    [compute_target_dimensions] return exactly the original width and
    height: no resize is planned. *)
Theorem dpi_ceiling_disabled_keeps_dimensions (page : Page) (info : image_info)
    (original_width original_height : Z) (max_dpi : option Z) :
  (max_dpi = None \/ exists d, max_dpi = Some d /\ (d <= 0)%Z) ->
  compute_target_dimensions page info original_width original_height max_dpi
  = Ok (original_width, original_height).
Proof.
  intros [-> | (d & -> & Hd)].
  - reflexivity.
  - apply compute_target_dimensions_disabled. exact Hd.
Qed.

(** Scenario A of the specification: 800 x 600 pixels in a 100pt square
    at 72 dpi are planned as 100 x 75. *)
Example planner_scenario_a :
  compute_target_dimensions (Sample.page_placed []) Sample.info1 800 600 (Some 72%Z)
  = Ok (100, 75)%Z.
Proof. vm_compute. reflexivity. Qed.

(** C3, as the code has it.  For positive original dimensions below
    2^53 and a known placement rectangle, and, when a positive ceiling
    is given, a ceiling below 2^53 with per-axis pixel maxima [max_px]
    (the ceiling times the size in inches, truncated, at least 1) of at
    most 2^53, [compute_target_dimensions] returns a pair [(w, h)] with
    [1 <= w <= original_width] and [1 <= h <= original_height]; and
    when an original dimension exceeds its per-axis pixel maximum, both
    axes are scaled by the single factor
    [min(max_w / original_w, max_h / original_h)], floored and clamped
    to at least 1.  In this range every [int] converts to [float]
    exactly and no product leaves the range of [float]. *)
Theorem planner_never_upscales (page : Page) (info : image_info)
    (original_width original_height : Z) (max_dpi : option Z)
    (candidate : bbox_candidate) :
  (0 < original_width < 2 ^ 53)%Z ->
  (0 < original_height < 2 ^ 53)%Z ->
  get_image_bbox page info = Ok candidate ->
  (forall dpi, max_dpi = Some dpi -> (0 < dpi)%Z ->
     (dpi < 2 ^ 53)%Z
     /\ (max_px dpi (Rect.width (rect_of candidate)) <= 2 ^ 53)%Z
     /\ (max_px dpi (Rect.height (rect_of candidate)) <= 2 ^ 53)%Z) ->
  exists w h,
    compute_target_dimensions page info original_width original_height max_dpi = Ok (w, h)
    /\ (1 <= w <= original_width)%Z /\ (1 <= h <= original_height)%Z
    /\ forall dpi, max_dpi = Some dpi -> (0 < dpi)%Z ->
         let max_w := max_px dpi (Rect.width (rect_of candidate)) in
         let max_h := max_px dpi (Rect.height (rect_of candidate)) in
         (max_w < original_width \/ max_h < original_height)%Z ->
         w = scaled_px original_width
               (scale_factor max_w max_h original_width original_height)
         /\ h = scaled_px original_height
                  (scale_factor max_w max_h original_width original_height).
Proof.
  intros How Hoh Hb _.
  destruct max_dpi as [dpi |].
  2:{ exists original_width, original_height.
      split; [reflexivity |]. split; [lia |]. split; [lia |]. intros ? [=]. }
  destruct (Z_le_gt_dec dpi 0) as [Hd | Hd].
  { exists original_width, original_height.
    split; [apply compute_target_dimensions_disabled; exact Hd |].
    split; [lia |]. split; [lia |].
    intros d [= <-]. lia. }
  rewrite (compute_target_dimensions_placed page info _ _ dpi candidate) by (assumption || lia).
  set (mw := max_px dpi (Rect.width (rect_of candidate))).
  set (mh := max_px dpi (Rect.height (rect_of candidate))).
  pose proof (max_px_pos dpi (Rect.width (rect_of candidate))) as Pw.
  pose proof (max_px_pos dpi (Rect.height (rect_of candidate))) as Ph.
  fold mw in Pw. fold mh in Ph.
  destruct ((original_width <=? mw)%Z && (original_height <=? mh)%Z) eqn:Fit.
  - exists original_width, original_height.
    split; [reflexivity |]. split; [lia |]. split; [lia |].
    intros d [= <-] _. cbv zeta. fold mw mh.
    apply andb_true_iff in Fit. lia.
  - assert (L : (mw < original_width \/ mh < original_height)%Z).
    { apply andb_false_iff in Fit. lia. }
    destruct (scale_factor_range mw mh original_width original_height) as [S0 S1];
      try lia.
    eexists _, _. split; [reflexivity |].
    split; [apply scaled_px_bounds; [lia | assumption | assumption] |].
    split; [apply scaled_px_bounds; [lia | assumption | assumption] |].
    intros d [= <-] _. cbv zeta. fold mw mh. intros _. split; reflexivity.
Qed.

Lemma planner_never_upscales_witness :
  exists w h,
    compute_target_dimensions (Sample.page_placed []) Sample.info1 800 600 (Some 72%Z)
    = Ok (w, h)
    /\ (1 <= w <= 800)%Z /\ (1 <= h <= 600)%Z
    /\ forall dpi, Some 72%Z = Some dpi -> (0 < dpi)%Z ->
         let max_w :=
           max_px dpi (Rect.width (rect_of (BBoxRect {| Rect.width := 100; Rect.height := 100 |}))) in
         let max_h :=
           max_px dpi (Rect.height (rect_of (BBoxRect {| Rect.width := 100; Rect.height := 100 |}))) in
         (max_w < 800 \/ max_h < 600)%Z ->
         w = scaled_px 800 (scale_factor max_w max_h 800 600)
         /\ h = scaled_px 600 (scale_factor max_w max_h 800 600).
Proof.
  apply (planner_never_upscales (Sample.page_placed []) Sample.info1 800 600 (Some 72%Z)
           (BBoxRect {| Rect.width := 100; Rect.height := 100 |})).
  - lia.
  - lia.
  - reflexivity.
  - intros dpi [= <-] _. vm_compute. repeat split; discriminate.
Defined.

(** C3, as stated for every positive dimension, fails: a width of
    2^60 + 129 is converted to the float 2^60 + 256, the scale factor
    rounds to 1.0, and the planned width exceeds the original one.  All
    values of this run are far below 2^1024, the end of the range of
    [float]. *)
Lemma planner_upscales_beyond_exact_range :
  compute_target_dimensions
    {| number := 0; get_images := Ok [];
       get_image_bbox := fun _ => Ok (BBoxRect {| Rect.width := 144; Rect.height := 72 |}) |}
    Sample.info1 (2 ^ 60 + 129) (2 ^ 60 + 1) (Some (2 ^ 60)%Z)
  = Ok (2 ^ 60 + 256, 2 ^ 60)%Z
  /\ (2 ^ 60 + 129 < 2 ^ 60 + 256)%Z.
Proof. split; vm_compute; reflexivity. Qed.

Lemma dpi_ceiling_disabled_keeps_dimensions_witness :
  compute_target_dimensions (Sample.page_placed []) Sample.info1 1000 800 (Some 0%Z)
  = Ok (1000, 800)%Z.
Proof.
  apply (dpi_ceiling_disabled_keeps_dimensions (Sample.page_placed []) Sample.info1
           1000 800 (Some 0%Z)).
  right. exists 0%Z. split; [reflexivity | lia].
Defined.

(** C7, as the code has it.  When the placement query raises
    [ValueError] or [AttributeError], [compute_target_dimensions]
    returns the original width and height unchanged, whatever the
    ceiling; any other exception raised by the query, with a positive
    ceiling, is raised by [compute_target_dimensions] itself. *)
Theorem bbox_lookup_failure_policy (page : Page) (info : image_info)
    (original_width original_height : Z) (max_dpi : option Z) (e : exn) :
  get_image_bbox page info = Raise e ->
  (e = ValueError \/ e = AttributeError ->
     compute_target_dimensions page info original_width original_height max_dpi
     = Ok (original_width, original_height))
  /\ (e <> ValueError -> e <> AttributeError ->
      forall dpi, max_dpi = Some dpi -> (0 < dpi)%Z ->
      compute_target_dimensions page info original_width original_height max_dpi
      = Raise e).
Proof.
  intros Hb. split.
  - intros He. unfold compute_target_dimensions.
    destruct max_dpi as [dpi |]; [| reflexivity].
    destruct ((dpi =? 0)%Z || (dpi <=? 0)%Z); [reflexivity |].
    rewrite Hb. destruct He as [-> | ->]; reflexivity.
  - intros N1 N2 dpi -> Hd. unfold compute_target_dimensions.
    replace (dpi =? 0)%Z with false by lia. replace (dpi <=? 0)%Z with false by lia.
    cbn [orb]. rewrite Hb. destruct e; congruence.
Qed.

Lemma bbox_lookup_failure_policy_witness :
  (ValueError = ValueError \/ ValueError = AttributeError ->
     compute_target_dimensions (Sample.page_unplaced ValueError []) Sample.info1
       1000 800 (Some 150%Z) = Ok (1000, 800)%Z)
  /\ (ValueError <> ValueError -> ValueError <> AttributeError ->
      forall dpi, Some 150%Z = Some dpi -> (0 < dpi)%Z ->
      compute_target_dimensions (Sample.page_unplaced ValueError []) Sample.info1
        1000 800 (Some 150%Z) = Raise ValueError).
Proof.
  apply (bbox_lookup_failure_policy (Sample.page_unplaced ValueError []) Sample.info1
           1000 800 (Some 150%Z) ValueError).
  reflexivity.
Defined.

(** C7, as stated, fails: a placement query that raises [RuntimeError]
    makes [compute_target_dimensions] raise it instead of returning the
    original dimensions. *)
Lemma bbox_lookup_runtime_error_surfaces :
  get_image_bbox (Sample.page_unplaced RuntimeError []) Sample.info1 = Raise RuntimeError
  /\ compute_target_dimensions (Sample.page_unplaced RuntimeError []) Sample.info1
       1000 800 (Some 150%Z) = Raise RuntimeError
  /\ compute_target_dimensions (Sample.page_unplaced RuntimeError []) Sample.info1
       1000 800 (Some 150%Z) <> Ok (1000, 800)%Z.
Proof. split; [reflexivity |]. split; [reflexivity | discriminate]. Qed.

(** ** Compression statistics *)

(** Scenario C of the specification. *)
Example stats_scenario_c :
  get_compression_stats (repeat x01 1000) (repeat x02 500)
  = Ok {| CompressionStats.original_size := 1000;
          CompressionStats.compressed_size := 500;
          CompressionStats.reduction_bytes := 500;
          CompressionStats.reduction_percent := 50 |}.
Proof. vm_compute. reflexivity. Qed.

(** C10.  With a non-empty [original_bytes] the result holds the two
    lengths, their difference, and the difference divided by the
    original length times 100; with an empty [original_bytes] the
    unguarded division raises [ZeroDivisionError], whatever
    [compressed_bytes] is. *)
Theorem compression_stats_result (original_bytes compressed_bytes : bytes) :
  ((0 < len original_bytes)%Z ->
   get_compression_stats original_bytes compressed_bytes
   = Ok {| CompressionStats.original_size := len original_bytes;
           CompressionStats.compressed_size := len compressed_bytes;
           CompressionStats.reduction_bytes := len original_bytes - len compressed_bytes;
           CompressionStats.reduction_percent :=
             Binary64.mul
               (Binary64.round
                  (inject_Z (len original_bytes - len compressed_bytes)
                   / inject_Z (len original_bytes)))
               (Binary64.of_int 100) |})
  /\ (original_bytes = [] ->
      get_compression_stats original_bytes compressed_bytes = Raise ZeroDivisionError).
Proof.
  split.
  - intros Hpos. unfold get_compression_stats, Binary64.int_truediv.
    replace (len original_bytes =? 0)%Z with false by lia. reflexivity.
  - intros ->. reflexivity.
Qed.

Lemma compression_stats_result_witness :
  get_compression_stats [x01; x02; x03] [x04]
  = Ok {| CompressionStats.original_size := len [x01; x02; x03];
          CompressionStats.compressed_size := len [x04];
          CompressionStats.reduction_bytes := len [x01; x02; x03] - len [x04];
          CompressionStats.reduction_percent :=
            Binary64.mul
              (Binary64.round
                 (inject_Z (len [x01; x02; x03] - len [x04]) / inject_Z (len [x01; x02; x03])))
              (Binary64.of_int 100) |}
  /\ get_compression_stats [] [x04] = Raise ZeroDivisionError.
Proof.
  split.
  - apply (proj1 (compression_stats_result [x01; x02; x03] [x04])). reflexivity.
  - apply (proj2 (compression_stats_result [] [x04])). reflexivity.
Defined.

(** ** The transparency detector *)

Lemma to_int_lt_255 (q : Q) : (Binary64.to_int q <? 255)%Z = true <-> (q < 255)%Q.
Proof.
  unfold Binary64.to_int. rewrite Z.ltb_lt.
  destruct (Qle_bool 0 q) eqn:E.
  - split; intros L.
    + eapply Qlt_le_trans; [apply Qlt_floor |].
      change 255%Q with (inject_Z 255). rewrite <- Zle_Qle. lia.
    + rewrite Zlt_Qlt. eapply Qle_lt_trans; [apply Qfloor_le | exact L].
  - assert (N : (q < 0)%Q).
    { apply Qnot_le_lt. intros L. apply Qle_bool_iff in L. congruence. }
    split; intros _.
    + eapply Qlt_trans; [exact N | reflexivity].
    + assert (C : (Qceiling q <= Qceiling 0)%Z) by (apply Qceiling_resp_le, Qlt_le_weak, N).
      change (Qceiling 0) with 0%Z in C. lia.
Qed.

(** C6.  [_has_transparency] applies its rules in priority order: a set
    soft-mask flag gives [True] whatever the image; otherwise mode RGBA
    or LA gives [True] iff the minimum of the alpha channel is below 255;
    otherwise palette mode P gives [True] for a byte-array transparency
    value, [value != 255] for a single index and [False] when the
    metadata is absent; every other mode gives [False]. *)
Theorem has_transparency_rules (image : PIL.Image) :
  _has_transparency image true = true
  /\ (PIL.mode image = "RGBA"%string \/ PIL.mode image = "LA"%string ->
      match PIL.alpha_lowest image with
      | PIL.ExtInt lowest => _has_transparency image false = true <-> (lowest < 255)%Z
      | PIL.ExtFloat lowest => _has_transparency image false = true <-> (lowest < 255)%Q
      | PIL.ExtOther => _has_transparency image false = false
      end)
  /\ (PIL.mode image = "P"%string ->
      _has_transparency image false =
      match PIL.info_transparency image with
      | Some (PIL.TranspBytes _) => true
      | Some (PIL.TranspIndex value) => negb (value =? 255)%Z
      | None => false
      end)
  /\ (PIL.mode image <> "RGBA"%string -> PIL.mode image <> "LA"%string ->
      PIL.mode image <> "P"%string ->
      _has_transparency image false = false).
Proof.
  split; [reflexivity |]. unfold _has_transparency, str_in. cbn [existsb].
  split; [| split].
  - intros [E | E]; rewrite E; cbn;
      destruct (PIL.alpha_lowest image); try reflexivity;
      try apply Z.ltb_lt; apply to_int_lt_255.
  - intros E. rewrite E. cbn.
    destruct (PIL.info_transparency image) as [[? | ?] |]; reflexivity.
  - intros N1 N2 N3.
    apply String.eqb_neq in N1, N2, N3. rewrite N1, N2, N3. reflexivity.
Qed.

Lemma has_transparency_rules_witness :
  _has_transparency (Sample.rgba 128) true = true
  /\ (_has_transparency (Sample.rgba 128) false = true <-> (128 < 255)%Z)
  /\ _has_transparency (Sample.palette (Some (PIL.TranspIndex 255))) false
     = negb (255 =? 255)%Z
  /\ _has_transparency Sample.rgb false = false.
Proof.
  split; [apply (proj1 (has_transparency_rules (Sample.rgba 128))) |].
  split; [apply (proj1 (proj2 (has_transparency_rules (Sample.rgba 128)))); left; reflexivity |].
  split; [apply (proj1 (proj2 (proj2 (has_transparency_rules
            (Sample.palette (Some (PIL.TranspIndex 255))))))); reflexivity |].
  apply (proj2 (proj2 (proj2 (has_transparency_rules Sample.rgb)))); discriminate.
Defined.

(** ** The format policy *)

Lemma png_conversion_conditions (has_alpha convert_large_pngs_to_jpeg : bool)
    (png_to_jpeg_threshold original_size bpc : Z) :
  pil_should_convert_png has_alpha convert_large_pngs_to_jpeg
    png_to_jpeg_threshold original_size bpc = true
  <-> convert_large_pngs_to_jpeg = true /\ has_alpha = false
      /\ (png_to_jpeg_threshold <= original_size)%Z /\ (8 <= bpc)%Z.
Proof.
  unfold pil_should_convert_png.
  rewrite !andb_true_iff, negb_true_iff, !Z.leb_le. tauto.
Qed.

Lemma vips_should_convert_png_eq (has_alpha conv : bool) (thr size bpc : Z) :
  vips_should_convert_png "png" has_alpha conv thr size bpc
  = pil_should_convert_png has_alpha conv thr size bpc.
Proof. reflexivity. Qed.

(** The request made to pyvips for a PNG: a [.jpg] write at the
    configured quality when the four conditions hold, a [.png] write
    otherwise. *)
Lemma pyvips_png_request `{Libs} (image_bytes : bytes) (ow oh tw th : Z)
    (has_alpha : bool) (image_quality : Z) (conv : bool) (thr size bpc : Z) :
  _optimize_image_with_pyvips image_bytes "png" ow oh tw th has_alpha image_quality
    conv thr size bpc
  = (_ ← vips_new_from_buffer image_bytes;
     resize ←
       (if negb ((tw =? ow)%Z && (th =? oh)%Z) then
          hscale ← Binary64.int_truediv tw ow;
          vscale ← Binary64.int_truediv th oh;
          Ok (Some (hscale, vscale))
        else Ok None);
     vips_write_to_buffer image_bytes resize
       (if pil_should_convert_png has_alpha conv thr size bpc
        then WriteJpg image_quality else WritePng 6)).
Proof.
  unfold _optimize_image_with_pyvips, vips_save_format.
  rewrite vips_should_convert_png_eq.
  destruct (pil_should_convert_png has_alpha conv thr size bpc); reflexivity.
Qed.

(** C4.  A PNG image is written as JPEG iff conversion is enabled, the
    transparency detector reports no transparency, the original size is
    at least [png_to_jpeg_threshold] and bits-per-component is at least
    8, in both backends; otherwise it is written as PNG.  For an image
    that Pillow opens, the bytes returned by the pyvips backend are
    those of a [.jpg] write at the configured quality when the four
    conditions hold and those of a [.png] write otherwise, and the bytes
    returned by the Pillow backend are those of a save in format JPEG,
    of an image brought to mode RGB or L, when the four conditions hold
    and those of a save in format PNG otherwise.  In particular a PNG
    with detected transparency, or one below the threshold, stays PNG
    whatever the other settings are. *)
Theorem png_to_jpeg_iff `{Libs} (image_bytes : bytes) (opened : PIL.Image)
    (original target : Z * Z) (smask_present : bool) (image_quality : Z)
    (convert_large_pngs_to_jpeg : bool)
    (png_to_jpeg_threshold original_size bpc : Z) :
  Image_open image_bytes = Ok opened ->
  let has_alpha := _has_transparency opened smask_present in
  let all_four :=
    convert_large_pngs_to_jpeg = true /\ has_alpha = false
    /\ (png_to_jpeg_threshold <= original_size)%Z /\ (8 <= bpc)%Z in
  let primary :=
    pyvips_encode image_bytes "png" original target smask_present image_quality
      convert_large_pngs_to_jpeg png_to_jpeg_threshold original_size bpc in
  let fallback :=
    pil_encode image_bytes "png" original target smask_present image_quality
      convert_large_pngs_to_jpeg png_to_jpeg_threshold original_size bpc in
  let scaling : result (option (Q * Q)) :=
    if needs_resize target original then
      hscale ← Binary64.int_truediv (fst target) (fst original);
      vscale ← Binary64.int_truediv (snd target) (snd original);
      Ok (Some (hscale, vscale))
    else Ok None in
  let resized : result PIL.Image :=
    if needs_resize target original then Image_resize opened target else Ok opened in
  let written_as_jpeg :=
    primary = (_ ← vips_new_from_buffer image_bytes;
               resize ← scaling;
               vips_write_to_buffer image_bytes resize (WriteJpg image_quality))
    /\ fallback = (pil_image ← resized;
                   pil_image ← convert_unless ["RGB"; "L"]%string pil_image;
                   pil_image ← convert_unless ["RGB"; "L"]%string pil_image;
                   Image_save pil_image "JPEG"
                     (PIL.JpegKwargs image_quality false false 2)) in
  let written_as_png :=
    primary = (_ ← vips_new_from_buffer image_bytes;
               resize ← scaling;
               vips_write_to_buffer image_bytes resize (WritePng 6))
    /\ fallback = (pil_image ← resized;
                   pil_image ← (if String.eqb (PIL.mode pil_image) "P" && negb has_alpha
                                then Image_convert pil_image "RGB" else Ok pil_image);
                   Image_save pil_image "PNG" (PIL.PngKwargs false 6)) in
  (all_four -> written_as_jpeg)
  /\ (~ all_four -> written_as_png)
  /\ (has_alpha = true -> written_as_png)
  /\ ((original_size < png_to_jpeg_threshold)%Z -> written_as_png)
  /\ (vips_save_format "png" has_alpha convert_large_pngs_to_jpeg
        png_to_jpeg_threshold original_size bpc = "jpeg"%string <-> all_four)
  /\ (pil_save_format "png" has_alpha convert_large_pngs_to_jpeg
        png_to_jpeg_threshold original_size bpc = "jpeg"%string <-> all_four).
Proof.
  intros Hopen has_alpha all_four primary fallback scaling resized
    written_as_jpeg written_as_png.
  pose proof (png_conversion_conditions has_alpha convert_large_pngs_to_jpeg
                png_to_jpeg_threshold original_size bpc) as C.
  fold all_four in C.
  assert (P : primary
              = (_ ← vips_new_from_buffer image_bytes;
                 resize ← scaling;
                 vips_write_to_buffer image_bytes resize
                   (if pil_should_convert_png has_alpha convert_large_pngs_to_jpeg
                         png_to_jpeg_threshold original_size bpc
                    then WriteJpg image_quality else WritePng 6))).
  { unfold primary, pyvips_encode. rewrite orb_true_r, Hopen. cbn [mbind result_bind].
    fold has_alpha. apply pyvips_png_request. }
  assert (F : fallback
              = (pil_image ← resized;
                 if pil_should_convert_png has_alpha convert_large_pngs_to_jpeg
                      png_to_jpeg_threshold original_size bpc
                 then
                   pil_image ← convert_unless ["RGB"; "L"]%string pil_image;
                   pil_image ← convert_unless ["RGB"; "L"]%string pil_image;
                   Image_save pil_image "JPEG" (PIL.JpegKwargs image_quality false false 2)
                 else
                   pil_image ← (if String.eqb (PIL.mode pil_image) "P" && negb has_alpha
                                then Image_convert pil_image "RGB" else Ok pil_image);
                   Image_save pil_image "PNG" (PIL.PngKwargs false 6))).
  { unfold fallback, pil_encode, pil_save_format. rewrite Hopen. cbn [mbind result_bind].
    fold has_alpha. fold resized.
    destruct resized as [pil_image | e]; [| reflexivity]. cbn [mbind result_bind].
    change (String.eqb "png" "png") with true. cbn [andb].
    destruct (pil_should_convert_png has_alpha convert_large_pngs_to_jpeg
                png_to_jpeg_threshold original_size bpc).
    - change (String.eqb "jpeg" "jpeg") with true. cbv iota.
      destruct (convert_unless ["RGB"; "L"]%string pil_image) as [converted | e];
        [| reflexivity].
      cbn [mbind result_bind].
      destruct (convert_unless ["RGB"; "L"]%string converted) as [again | e];
        reflexivity.
    - change (String.eqb "png" "jpeg") with false. cbv iota.
      change (String.eqb "png" "png") with true. cbv iota.
      destruct (if String.eqb (PIL.mode pil_image) "P" && negb has_alpha
                then Image_convert pil_image "RGB" else Ok pil_image)
        as [converted | e]; reflexivity. }
  assert (V : vips_save_format "png" has_alpha convert_large_pngs_to_jpeg
                png_to_jpeg_threshold original_size bpc
              = if pil_should_convert_png has_alpha convert_large_pngs_to_jpeg
                     png_to_jpeg_threshold original_size bpc
                then "jpeg"%string else "png"%string) by reflexivity.
  assert (S : pil_save_format "png" has_alpha convert_large_pngs_to_jpeg
                png_to_jpeg_threshold original_size bpc
              = if pil_should_convert_png has_alpha convert_large_pngs_to_jpeg
                     png_to_jpeg_threshold original_size bpc
                then "jpeg"%string else "png"%string) by reflexivity.
  rewrite V, S.
  destruct (pil_should_convert_png has_alpha convert_large_pngs_to_jpeg
              png_to_jpeg_threshold original_size bpc).
  - assert (A : all_four) by (apply C; reflexivity).
    assert (J : written_as_jpeg).
    { split; [exact P |]. rewrite F. destruct resized; reflexivity. }
    split; [intros _; exact J |]. split; [tauto |].
    unfold all_four in A.
    split; [intros E; destruct A as (_ & A & _); congruence |].
    split; [lia |]. split; tauto.
  - assert (A : ~ all_four) by (intros A; apply C in A; discriminate).
    assert (G : written_as_png).
    { split; [exact P |]. rewrite F. destruct resized; reflexivity. }
    split; [tauto |]. split; [intros _; exact G |].
    split; [intros _; exact G |]. split; [intros _; exact G |].
    split; (split; [discriminate | tauto]).
Qed.

Lemma png_to_jpeg_iff_witness :
  pyvips_encode (H := Sample.halving) Sample.payload "png" (10, 10)%Z (10, 10)%Z false 90
    true 3 4 8
  = Ok [x01; x02]
  /\ pil_encode (H := Sample.halving) Sample.payload "png" (10, 10)%Z (10, 10)%Z false 90
       true 3 4 8
     = Ok [x01; x02].
Proof.
  apply (proj1 (png_to_jpeg_iff (H := Sample.halving) Sample.payload
                  {| PIL.mode := "RGB"; PIL.alpha_lowest := PIL.ExtOther;
                     PIL.info_transparency := None; PIL.raster := Sample.payload |}
                  (10, 10)%Z (10, 10)%Z false 90 true 3 4 8 eq_refl)).
  vm_compute. repeat split; discriminate.
Defined.

(** Scenario D of the specification: a PNG of 50,000 bytes with a
    threshold of 200,000 stays PNG. *)
Example policy_scenario_d :
  vips_save_format "png" false true 200000 50000 8 = "png"%string
  /\ pil_save_format "png" false true 200000 50000 8 = "png"%string.
Proof. split; reflexivity. Qed.

(** ** One call of [optimize_image] *)

Section OptimizeImageFacts.
Context `{Libs}.
Variables (page : Page) (info : image_info) (quality : Z) (max_dpi : option Z).
Variables (skip_small : bool) (small_threshold : Z) (convert : bool) (png_threshold : Z).
Variable plan : planner.

Local Abbreviation call :=
  (optimize_image page info quality max_dpi skip_small small_threshold
     convert png_threshold plan).
Local Abbreviation fallback :=
  (_optimize_image_with_pil page info quality max_dpi skip_small small_threshold
     convert png_threshold plan).

(** The bytes produced by either backend for the stored image [base]
    and the planned dimensions [target]. *)
Local Abbreviation primary base target :=
  (pyvips_encode (image base) (lower (ext base)) (width base, height base) target
     (smask_present info) quality convert png_threshold (len (image base))
     (default 8%Z (bpc base))).
Local Abbreviation secondary base target :=
  (pil_encode (image base) (lower (ext base)) (width base, height base) target
     (smask_present info) quality convert png_threshold (len (image base))
     (default 8%Z (bpc base))).

Lemma accept_or_reject_outcome (st : State) (base : base_image) (digest ob : bytes) :
  images (doc st) !! xref info = Some base ->
  accept_or_reject (xref info) digest (len (image base)) ob st
  = gate_outcome (xref info) digest base ob st.
Proof.
  intros Hx. unfold accept_or_reject, gate_outcome.
  destruct (no_gain (len ob) (len (image base))); [reflexivity |].
  unfold mbind, M_bind, replace_image. rewrite Hx. reflexivity.
Qed.

Lemma replay_cached_accepted (st : State) (base : base_image)
    (entry : ImageOptimizationResult) (stream : bytes) :
  images (doc st) !! xref info = Some base ->
  optimized entry = true -> data entry = Some stream ->
  replay_cached (xref info) entry st
  = (Ok (true, original_size entry, optimized_size entry),
     add_events (put_stream st (xref info) base stream) [EvReplace (xref info) stream]).
Proof.
  intros Hx Ho Hd. unfold replay_cached. rewrite Ho, Hd.
  unfold mbind, M_bind, replace_image. rewrite Hx. reflexivity.
Qed.

Lemma replay_cached_not_accepted (st : State) (entry : ImageOptimizationResult) :
  optimized entry = false \/ data entry = None ->
  replay_cached (xref info) entry st
  = (Ok (false, original_size entry, original_size entry), st).
Proof.
  intros [Ho | Hd]; unfold replay_cached.
  - rewrite Ho. reflexivity.
  - rewrite Hd. destruct (optimized entry); reflexivity.
Qed.

Lemma optimize_image_no_image (st : State) :
  images (doc st) !! xref info = None -> call st = (Raise KeyError, st).
Proof.
  intros Hx. unfold optimize_image, mbind, M_bind, extract_image. rewrite Hx. reflexivity.
Qed.

Lemma optimize_image_hit (st : State) (base : base_image) (entry : ImageOptimizationResult) :
  images (doc st) !! xref info = Some base ->
  cache st !! sha1 (image base) = Some entry ->
  call st = replay_cached (xref info) entry st.
Proof.
  intros Hx Hc. unfold optimize_image, mbind, M_bind, extract_image, cache_get.
  rewrite Hx, Hc. reflexivity.
Qed.

Lemma optimize_image_skipped (st : State) (base : base_image) :
  images (doc st) !! xref info = Some base ->
  cache st !! sha1 (image base) = None ->
  skipped skip_small small_threshold base = true ->
  call st = (Ok (false, len (image base), len (image base)),
             add_entry st (sha1 (image base)) (not_optimized (len (image base)))).
Proof.
  intros Hx Hc Hs. unfold optimize_image, mbind, M_bind, extract_image, cache_get.
  rewrite Hx, Hc. unfold skipped in Hs.
  destruct (skip_small && (len (image base) <=? small_threshold)%Z); [reflexivity |].
  cbn [orb] in Hs. rewrite Hs. reflexivity.
Qed.

Lemma fallback_encoding (st : State) (base : base_image) (target : Z * Z) :
  images (doc st) !! xref info = Some base ->
  cache st !! sha1 (image base) = None ->
  skipped skip_small small_threshold base = false ->
  plan page info (width base) (height base) max_dpi = Ok target ->
  fallback st =
    let st1 := add_events st [EvEncode Pillow (image base)] in
    match secondary base target with
    | Ok ob => gate_outcome (xref info) (sha1 (image base)) base ob st1
    | Raise e => (Raise e, st1)
    end.
Proof.
  intros Hx Hc Hs Hp.
  unfold _optimize_image_with_pil, mbind, M_bind, extract_image, cache_get.
  rewrite Hx, Hc. unfold skipped in Hs. apply orb_false_iff in Hs as [Hs1 Hs2].
  rewrite Hs1, Hs2. unfold lift at 1. rewrite Hp. unfold log, lift.
  cbv zeta. fold (add_events st [EvEncode Pillow (image base)]).
  destruct (secondary base target) as [ob | e]; [| reflexivity].
  apply accept_or_reject_outcome. exact Hx.
Qed.

Lemma optimize_image_plan_raises (st : State) (base : base_image) (e : exn) :
  images (doc st) !! xref info = Some base ->
  cache st !! sha1 (image base) = None ->
  skipped skip_small small_threshold base = false ->
  plan page info (width base) (height base) max_dpi = Raise e ->
  call st = (Raise e, st).
Proof.
  intros Hx Hc Hs Hp.
  unfold optimize_image, mbind, M_bind, extract_image, cache_get.
  rewrite Hx, Hc. unfold skipped in Hs. apply orb_false_iff in Hs as [Hs1 Hs2].
  rewrite Hs1, Hs2. unfold lift at 1. rewrite Hp. reflexivity.
Qed.

(** An image that reaches encoding: the primary backend is tried, the
    fallback runs if it raises, and the gate decides on the bytes
    produced. *)
Lemma optimize_image_encoding (st : State) (base : base_image) (target : Z * Z) :
  images (doc st) !! xref info = Some base ->
  cache st !! sha1 (image base) = None ->
  skipped skip_small small_threshold base = false ->
  plan page info (width base) (height base) max_dpi = Ok target ->
  call st =
    let st1 := add_events st [EvEncode Pyvips (image base)] in
    match primary base target with
    | Ok ob => gate_outcome (xref info) (sha1 (image base)) base ob st1
    | Raise _ =>
        let st2 := add_events st1 [EvEncode Pillow (image base)] in
        match secondary base target with
        | Ok ob => gate_outcome (xref info) (sha1 (image base)) base ob st2
        | Raise e => (Raise e, st2)
        end
    end.
Proof.
  intros Hx Hc Hs Hp.
  unfold optimize_image, mbind, M_bind, extract_image, cache_get.
  rewrite Hx, Hc. pose proof Hs as Hs'.
  unfold skipped in Hs. apply orb_false_iff in Hs as [Hs1 Hs2].
  rewrite Hs1, Hs2. unfold lift at 1. rewrite Hp.
  unfold try_except, pyvips_attempt, mbind, M_bind, log, lift.
  cbv zeta. fold (add_events st [EvEncode Pyvips (image base)]).
  set (st1 := add_events st [EvEncode Pyvips (image base)]).
  assert (Hx1 : images (doc st1) !! xref info = Some base) by exact Hx.
  assert (Hc1 : cache st1 !! sha1 (image base) = None) by exact Hc.
  destruct (primary base target) as [ob | e].
  - rewrite (accept_or_reject_outcome st1 base _ ob Hx1).
    unfold gate_outcome. destruct (no_gain _ _); reflexivity.
  - rewrite (fallback_encoding st1 base target Hx1 Hc1 Hs' Hp). reflexivity.
Qed.

End OptimizeImageFacts.

(** ** The acceptance gate *)

Lemma lit_0_98_value : Binary64.lit_0_98 = (2206763817411543 # 2251799813685248)%Q.
Proof. vm_compute. reflexivity. Qed.

Lemma round_nonneg (x : Q) : (0 <= x)%Q -> (0 <= Binary64.round x)%Q.
Proof.
  intros Hx. change 0%Q with (Binary64.round 0) at 1.
  apply Binary64Facts.round_mono; [apply Qle_refl | exact Hx].
Qed.

(** For sizes below 2^45 bytes the binary64 test
    [optimized_size >= original_size * 0.98] decides the exact
    inequality [49 * original_size <= 50 * optimized_size]. *)
Lemma no_gain_exact (optimized_size original_size : Z) :
  (0 <= original_size < 2 ^ 45)%Z ->
  no_gain optimized_size original_size = true
  <-> (49 * original_size <= 50 * optimized_size)%Z.
Proof.
  intros [Hn0 Hn]. unfold no_gain, Binary64.int_geb, Binary64.int_mul, Binary64.mul,
    Binary64.of_int.
  rewrite Qle_bool_iff, lit_0_98_value.
  set (c := (2206763817411543 # 2251799813685248)%Q).
  assert (En : (Binary64.round (inject_Z original_size) == inject_Z original_size)%Q)
    by (apply Binary64Facts.round_Z; lia).
  assert (R : Binary64.round (Binary64.round (inject_Z original_size) * c)
              = Binary64.round (inject_Z original_size * c)).
  { apply Binary64Facts.round_proper. rewrite En. reflexivity. }
  rewrite R. clear R En.
  set (n := inject_Z original_size). set (m := inject_Z optimized_size).
  assert (N0 : (0 <= n)%Q) by (unfold n; change 0%Q with (inject_Z 0); rewrite <- Zle_Qle; lia).
  assert (N1 : (n <= 35184372088831)%Q).
  { unfold n. change 35184372088831%Q with (inject_Z 35184372088831).
    rewrite <- Zle_Qle. lia. }
  assert (X0 : (0 <= n * c)%Q) by (unfold c; lra).
  split.
  - (* the rounded product is at most m, so m is not below 0.98 n *)
    intros L. destruct (Z_le_gt_dec (49 * original_size) (50 * optimized_size)) as [? | G];
      [assumption | exfalso].
    assert (G' : (50 * m + 1 <= 49 * n)%Q).
    { unfold m, n. change 50%Q with (inject_Z 50). change 49%Q with (inject_Z 49).
      change 1%Q with (inject_Z 1).
      rewrite <- !inject_Z_mult, <- inject_Z_plus, <- Zle_Qle. lia. }
    destruct (Z_lt_le_dec optimized_size 0) as [Neg | Pos].
    + assert (M : (m < 0)%Q) by (unfold m; change 0%Q with (inject_Z 0); rewrite <- Zlt_Qlt; lia).
      pose proof (round_nonneg _ X0). lra.
    + set (r := (inject_Z (128 * optimized_size + 1) * 2 ^ (-7))%Q).
      assert (Er : (r == m + (1 # 128))%Q).
      { unfold r, m. rewrite inject_Z_plus, inject_Z_mult.
        change (2 ^ (-7))%Q with (1 # 128)%Q. change (inject_Z 128) with 128%Q.
        change (inject_Z 1) with 1%Q. field. }
      assert (Rr : (Binary64.round r == r)%Q).
      { apply Binary64Facts.round_exact. lia. }
      assert (Lr : (r <= n * c)%Q) by (rewrite Er; unfold c; lra).
      assert (P : (0 <= r)%Q).
      { rewrite Er. unfold m. assert (0 <= inject_Z optimized_size)%Q
          by (change 0%Q with (inject_Z 0); rewrite <- Zle_Qle; lia). lra. }
      pose proof (Binary64Facts.round_mono _ _ P Lr) as Mo.
      rewrite Rr, Er in Mo. lra.
  - (* 0.98 n <= m bounds the product by an exactly representable integer *)
    intros G.
    assert (G' : (49 * n <= 50 * m)%Q).
    { unfold m, n. change 50%Q with (inject_Z 50). change 49%Q with (inject_Z 49).
      rewrite <- !inject_Z_mult, <- Zle_Qle. lia. }
    set (k := Z.min optimized_size original_size).
    assert (Hk : (0 <= k < 2 ^ 53)%Z) by lia.
    assert (Lk : (n * c <= inject_Z k)%Q).
    { unfold k. destruct (Z.min_spec optimized_size original_size) as [[_ ->] | [_ ->]];
        fold m n; unfold c; lra. }
    pose proof (Binary64Facts.round_mono _ _ X0 Lk) as Mo.
    rewrite (Binary64Facts.round_Z k Hk) in Mo.
    eapply Qle_trans; [exact Mo |]. unfold m. rewrite <- Zle_Qle. lia.
Qed.

Lemma count_app (p : event -> bool) (l1 l2 : list event) :
  count p (l1 ++ l2) = (count p l1 + count p l2)%nat.
Proof. unfold count. rewrite List.filter_app, length_app. reflexivity. Qed.



(** ** Low bit depth *)

(** C9, as the code has it.  For an image with bits-per-component at
    most 1 and an extension other than png whose digest is not yet a key
    of the cache, [optimize_image] records a non-optimized entry, starts
    no encoding, replaces nothing, returns
    [(False, original_size, original_size)] and leaves the document as it
    was; when the digest is already cached, the stored outcome is
    replayed instead. *)
Theorem low_bit_depth_is_skipped `{Libs} (page : Page) (info : image_info)
    (quality : Z) (max_dpi : option Z) (skip_small : bool) (small_threshold : Z)
    (convert : bool) (png_threshold : Z) (plan : planner)
    (st : State) (base : base_image) :
  images (doc st) !! xref info = Some base ->
  (default 8 (bpc base) <= 1)%Z ->
  lower (ext base) <> "png"%string ->
  let original_size := len (image base) in
  let digest := sha1 (image base) in
  let run := optimize_image page info quality max_dpi skip_small small_threshold
               convert png_threshold plan st in
  (cache st !! digest = None ->
     fst run = Ok (false, original_size, original_size)
     /\ doc (snd run) = doc st
     /\ trace (snd run) = trace st
     /\ cache (snd run) = <[digest := not_optimized original_size]> (cache st))
  /\ (forall entry, cache st !! digest = Some entry ->
      run = replay_cached (xref info) entry st).
Proof.
  intros Hx Hb He original_size digest run. split.
  - intros Hc.
    assert (Hs : skipped skip_small small_threshold base = true).
    { unfold skipped. apply orb_true_iff. right. apply andb_true_iff. split.
      - apply Z.leb_le. exact Hb.
      - apply negb_true_iff, String.eqb_neq. exact He. }
    unfold run.
    rewrite (optimize_image_skipped page info quality max_dpi skip_small small_threshold
               convert png_threshold plan st base Hx Hc Hs).
    split; [reflexivity |]. split; [reflexivity |]. split; reflexivity.
  - intros entry Hc. apply optimize_image_hit with (base := base); assumption.
Qed.

Lemma low_bit_depth_is_skipped_witness :
  fst (optimize_image (H := Sample.halving) (Sample.page_placed [Sample.info1; Sample.info2])
         Sample.info2 90 (Some 250%Z) false 0 true 200000 compute_target_dimensions
         (initial Sample.two_objects))
  = Ok (false, len (image (Sample.jpeg 1)), len (image (Sample.jpeg 1))).
Proof.
  pose proof (low_bit_depth_is_skipped (H := Sample.halving)
                (Sample.page_placed [Sample.info1; Sample.info2]) Sample.info2
                90 (Some 250%Z) false 0 true 200000 compute_target_dimensions
                (initial Sample.two_objects) (Sample.jpeg 1)) as W.
  cbv zeta in W.
  assert (H1 : images (doc (initial Sample.two_objects)) !! xref Sample.info2
               = Some (Sample.jpeg 1)) by (vm_compute; reflexivity).
  assert (H2 : (default 8 (bpc (Sample.jpeg 1)) <= 1)%Z) by (vm_compute; discriminate).
  assert (H3 : lower (ext (Sample.jpeg 1)) <> "png"%string) by (vm_compute; discriminate).
  destruct (W H1 H2 H3) as [Miss _].
  assert (H4 : cache (initial Sample.two_objects)
               !! sha1 (Libs := Sample.halving) (image (Sample.jpeg 1)) = None)
    by (vm_compute; reflexivity).
  exact (proj1 (Miss H4)).
Defined.

(** C9, as stated for every such image, fails: in a document that
    stores the same bytes under the objects 1 (8 bits per component) and
    2 (1 bit per component, extension jpeg), object 1 is encoded and
    accepted, and the cache hit on object 2 replaces its stored bytes. *)
Lemma low_bit_depth_replaced_on_cache_hit :
  let run := _compress_document (H := Sample.halving) 90 (Some 250%Z) false 0 true 200000
               (initial Sample.two_objects) in
  bpc <$> (images Sample.two_objects !! 2%Z) = Some (Some 1%Z)
  /\ ext <$> (images Sample.two_objects !! 2%Z) = Some "jpeg"%string
  /\ stored_bytes (initial Sample.two_objects) 2 = Some [x01; x02; x03; x04]
  /\ stored_bytes (snd run) 2 = Some [x01; x02]
  /\ trace (snd run)
     = [EvEncode Pyvips [x01; x02; x03; x04]; EvReplace 1 [x01; x02]; EvReplace 2 [x01; x02]].
Proof. vm_compute. repeat split; reflexivity. Qed.

(** ** The effect of one call on the state *)

Section CallEffect.
Context `{Libs}.

Lemma encodes_only_primary (c : bytes) : encodes_only c [EvEncode Pyvips c].
Proof.
  split; [reflexivity |]. split; [reflexivity |]. intros b d. unfold count. cbn.
  destruct (bool_decide (sha1 c = d)) eqn:E; destruct b; cbn; split; try lia;
    intros _; apply bool_decide_eq_true in E; exact E.
Qed.

Lemma encodes_only_both (c : bytes) :
  encodes_only c [EvEncode Pyvips c; EvEncode Pillow c].
Proof.
  split; [reflexivity |]. split; [reflexivity |]. intros b d. unfold count. cbn.
  destruct (bool_decide (sha1 c = d)) eqn:E; destruct b; cbn; split; try lia;
    intros _; apply bool_decide_eq_true in E; exact E.
Qed.

Lemma count_encode_replace (b : backend) (d : bytes) (x : Z) (s : bytes) :
  count (is_encode b d) [EvReplace x s] = 0%nat.
Proof. reflexivity. Qed.

Lemma cache_wf_insert (cache : gmap bytes ImageOptimizationResult) (d : bytes)
    (entry : ImageOptimizationResult) :
  cache_wf cache -> (optimized entry = true -> is_Some (data entry)) ->
  cache_wf (<[d := entry]> cache).
Proof.
  intros W E d' e'. destruct (decide (d = d')) as [-> | N].
  - rewrite lookup_insert_eq. intros [= <-]. exact E.
  - rewrite lookup_insert_ne by exact N. apply W.
Qed.

(** The gate, entered after the encoding attempts [evs]. *)
Lemma gate_effect (x : Z) (st : State) (base : base_image) (ob : bytes) (evs : list event) :
  images (doc st) !! x = Some base ->
  cache st !! sha1 (image base) = None ->
  encodes_only (image base) evs ->
  let out := gate_outcome x (sha1 (image base)) base ob (add_events st evs) in
  call_effect x st (fst out) (snd out).
Proof.
  intros Hx Hc (Ecaught & Ereplace & Eenc) out. unfold out, gate_outcome.
  destruct (no_gain (len ob) (len (image base))); cbn [fst snd].
  - split; unfold add_entry, add_events; cbn [doc cache trace].
    + reflexivity.
    + reflexivity.
    + intros d e Hd. rewrite lookup_insert_ne; [exact Hd | congruence].
    + intros W. apply cache_wf_insert; [exact W | discriminate].
    + exists evs. split; [reflexivity |]. split; [exact Ecaught |].
      intros b d. destruct (Eenc b d) as [Le Pos]. split; [exact Le |].
      intros P _. rewrite <- (Pos P). split; [exact Hc |].
      rewrite lookup_insert_eq. eauto.
    + intros _ base' Hx'. rewrite Hx in Hx'. injection Hx' as <-.
      exists (not_optimized (len (image base))). rewrite lookup_insert_eq.
      split; [reflexivity |]. unfold stored_bytes. cbn [doc]. rewrite Hx. reflexivity.
    + discriminate.
  - split; unfold add_entry, add_events, put_stream; cbn [doc cache trace pages images].
    + reflexivity.
    + intros y Hy. rewrite lookup_insert_ne; [reflexivity | congruence].
    + intros d e Hd. rewrite lookup_insert_ne; [exact Hd | congruence].
    + intros W. apply cache_wf_insert; [exact W |]. intros _. cbn. eauto.
    + exists (evs ++ [EvReplace x ob]). rewrite app_assoc. split; [reflexivity |].
      split; [rewrite count_app, Ecaught; reflexivity |].
      intros b d. rewrite count_app, count_encode_replace, Nat.add_0_r.
      destruct (Eenc b d) as [Le Pos]. split; [exact Le |].
      intros P _. rewrite <- (Pos P). split; [exact Hc |].
      rewrite lookup_insert_eq. eauto.
    + intros _ base' Hx'. rewrite Hx in Hx'. injection Hx' as <-.
      exists (accepted (len (image base)) ob). rewrite lookup_insert_eq.
      split; [reflexivity |]. unfold stored_bytes. cbn [doc images].
      rewrite lookup_insert_eq. reflexivity.
    + discriminate.
Qed.

Lemma call_effect_unchanged (x : Z) (st : State) (e : exn) :
  call_effect x st (Raise e) st.
Proof.
  split; try reflexivity; try tauto; try discriminate.
  exists []. rewrite app_nil_r. split; [reflexivity |]. split; [reflexivity |].
  intros b d. cbn. split; [lia | lia].
Qed.

Lemma call_effect_raise_after (x : Z) (st : State) (c : bytes) (evs : list event) (e : exn) :
  encodes_only c evs -> call_effect x st (Raise e) (add_events st evs).
Proof.
  intros (Ecaught & _ & Eenc).
  split; unfold add_events; cbn [doc cache trace].
  - reflexivity.
  - reflexivity.
  - tauto.
  - tauto.
  - exists evs. split; [reflexivity |]. split; [exact Ecaught |].
    intros b d. split; [apply Eenc | discriminate].
  - discriminate.
  - intros ? _. split; reflexivity.
Qed.

Variables (page : Page) (info : image_info) (quality : Z) (max_dpi : option Z).
Variables (skip_small : bool) (small_threshold : Z) (convert : bool) (png_threshold : Z).
Variable plan : planner.

Lemma optimize_image_effect (st : State) :
  let out := optimize_image page info quality max_dpi skip_small small_threshold
               convert png_threshold plan st in
  call_effect (xref info) st (fst out) (snd out).
Proof.
  intros out. unfold out. clear out.
  destruct (images (doc st) !! xref info) as [base |] eqn:Hx.
  2:{ rewrite optimize_image_no_image by exact Hx. apply call_effect_unchanged. }
  destruct (cache st !! sha1 (image base)) as [entry |] eqn:Hc.
  { rewrite (optimize_image_hit _ _ _ _ _ _ _ _ _ st base entry Hx Hc).
    destruct (optimized entry) eqn:Ho; [destruct (data entry) as [s |] eqn:Hd |].
    - rewrite (replay_cached_accepted info st base entry s Hx Ho Hd). cbn [fst snd].
      split; unfold add_events, put_stream; cbn [doc cache trace pages images].
      + reflexivity.
      + intros y Hy. rewrite lookup_insert_ne; [reflexivity | congruence].
      + tauto.
      + tauto.
      + exists [EvReplace (xref info) s]. split; [reflexivity |]. split; [reflexivity |].
        intros b d. rewrite count_encode_replace. split; lia.
      + intros _ base' Hx'. rewrite Hx in Hx'. injection Hx' as <-. exists entry. split; [exact Hc |].
        unfold stored_bytes. cbn [doc images]. rewrite lookup_insert_eq.
        unfold final_bytes. rewrite Ho, Hd. reflexivity.
      + discriminate.
    - rewrite (replay_cached_not_accepted info st entry) by (right; exact Hd). cbn [fst snd].
      split; try reflexivity; try tauto; try discriminate.
      + exists []. rewrite app_nil_r. split; [reflexivity |]. split; [reflexivity |].
        intros b d. cbn. split; lia.
      + intros _ base' Hx'. rewrite Hx in Hx'. injection Hx' as <-. exists entry. split; [exact Hc |].
        unfold stored_bytes. rewrite Hx. unfold final_bytes. rewrite Ho, Hd. reflexivity.
    - rewrite (replay_cached_not_accepted info st entry) by (left; exact Ho). cbn [fst snd].
      split; try reflexivity; try tauto; try discriminate.
      + exists []. rewrite app_nil_r. split; [reflexivity |]. split; [reflexivity |].
        intros b d. cbn. split; lia.
      + intros _ base' Hx'. rewrite Hx in Hx'. injection Hx' as <-. exists entry. split; [exact Hc |].
        unfold stored_bytes. rewrite Hx. unfold final_bytes. rewrite Ho. reflexivity. }
  destruct (skipped skip_small small_threshold base) eqn:Hs.
  { rewrite (optimize_image_skipped _ _ _ _ _ _ _ _ _ st base Hx Hc Hs). cbn [fst snd].
    split; unfold add_entry; cbn [doc cache trace].
    - reflexivity.
    - reflexivity.
    - intros d e Hd. rewrite lookup_insert_ne; [exact Hd | congruence].
    - intros W. apply cache_wf_insert; [exact W | discriminate].
    - exists []. rewrite app_nil_r. split; [reflexivity |]. split; [reflexivity |].
      intros b d. cbn. split; lia.
    - intros _ base' Hx'. rewrite Hx in Hx'. injection Hx' as <-. exists (not_optimized (len (image base))).
      rewrite lookup_insert_eq. split; [reflexivity |].
      unfold stored_bytes. cbn [doc]. rewrite Hx. reflexivity.
    - discriminate. }
  destruct (plan page info (width base) (height base) max_dpi) as [target | e] eqn:Hp.
  2:{ rewrite (optimize_image_plan_raises _ _ _ _ _ _ _ _ _ st base e Hx Hc Hs Hp).
      apply call_effect_unchanged. }
  rewrite (optimize_image_encoding _ _ _ _ _ _ _ _ _ st base target Hx Hc Hs Hp).
  cbv zeta.
  destruct (pyvips_encode _ _ _ _ _ _ _ _ _ _) as [ob | e1].
  { apply (gate_effect (xref info) st base ob [EvEncode Pyvips (image base)] Hx Hc).
    apply encodes_only_primary. }
  assert (E2 : add_events (add_events st [EvEncode Pyvips (image base)])
                 [EvEncode Pillow (image base)]
               = add_events st [EvEncode Pyvips (image base); EvEncode Pillow (image base)]).
  { unfold add_events. cbn [doc cache trace]. rewrite <- app_assoc. reflexivity. }
  rewrite E2.
  destruct (pil_encode _ _ _ _ _ _ _ _ _ _) as [ob | e2].
  - apply (gate_effect (xref info) st base ob _ Hx Hc). apply encodes_only_both.
  - cbn [fst snd]. apply call_effect_raise_after with (c := image base).
    apply encodes_only_both.
Qed.

End CallEffect.

(** ** The loop of [_compress_document] *)

Section Loop.
Context `{Libs}.
Variables (quality : Z) (effective_dpi : option Z).
Variables (skip_small : bool) (small_threshold : Z) (convert : bool) (png_threshold : Z).

Local Abbreviation loop items :=
  (compress_loop items quality effective_dpi skip_small small_threshold
     convert png_threshold).
Local Abbreviation step :=
  (after_item quality effective_dpi skip_small small_threshold convert png_threshold).

(** The loop never raises: it ends in the state reached by iterating
    [after_item] over the yielded pairs. *)
Lemma compress_loop_state (items : list (Page * image_info)) :
  forall totals st, exists totals',
    loop items totals st = (Ok totals', fold_left step items st).
Proof.
  induction items as [| [page info] rest IH]; intros totals st.
  - exists totals. reflexivity.
  - cbn [compress_loop fold_left]. unfold after_item at 2. cbn [fst snd].
    destruct (optimize_image page info quality effective_dpi skip_small small_threshold
                convert png_threshold compute_target_dimensions st) as [[[[o a] b] | e] st'].
    + destruct totals as [[n t1] t2]. destruct o; apply IH.
    + apply IH.
Qed.

Lemma caught_at_mono (x : Z) (tr evs : list event) :
  caught_at x tr -> caught_at x (tr ++ evs).
Proof. intros [e He]. exists e. apply elem_of_app. left. exact He. Qed.

Lemma step_preserves (stored : gmap Z base_image) (done : list Z) (st : State)
    (item : Page * image_info) :
  run_inv stored done st -> xref (snd item) ∉ done ->
  run_inv stored (xref (snd item) :: done) (step st item).
Proof.
  intros [Wf Cnt Unt Done] Fresh.
  pose proof (optimize_image_effect (fst item) (snd item) quality effective_dpi skip_small
                small_threshold convert png_threshold compute_target_dimensions st) as E.
  cbv zeta in E. unfold after_item.
  destruct (optimize_image (fst item) (snd item) quality effective_dpi skip_small
              small_threshold convert png_threshold compute_target_dimensions st)
    as [r st'].
  cbn [fst snd] in E. destruct E as [_ Frame Kept Wf' (evs & Htr & Hcaught & Henc) Out Rs].
  set (x0 := xref (snd item)) in *.
  assert (Old : forall x base, x ∈ done -> stored !! x = Some base ->
                  ~ caught_at x (trace st') ->
                  exists entry, cache st' !! sha1 (image base) = Some entry
                    /\ stored_bytes st' x = Some (final_bytes entry (image base))).
  { intros x base Hin Hs Hn.
    destruct (Done x base Hin Hs) as (entry & Hc & Hb).
    - intros C. apply Hn. rewrite Htr. apply caught_at_mono. exact C.
    - exists entry. split; [apply Kept; exact Hc |].
      unfold stored_bytes in *. rewrite Frame; [exact Hb |].
      intros ->. contradiction. }
  assert (Unt' : forall x, x ∉ x0 :: done -> images (doc st') !! x = stored !! x).
  { intros x Hx. apply not_elem_of_cons in Hx as [Hne Hnd].
    rewrite Frame by exact Hne. apply Unt. exact Hnd. }
  destruct r as [[[o a] b] | e].
  - (* the call returned *)
    split.
    + apply Wf'. exact Wf.
    + intros bk d. rewrite Htr, !count_app, Hcaught, Nat.add_0_r.
      destruct (Henc bk d) as [Le Pos]. specialize (Cnt bk d).
      destruct (Nat.eq_dec (count (is_encode bk d) evs) 0) as [Z | NZ].
      * rewrite Z, Nat.add_0_r. destruct (cache st !! d) as [e0 |] eqn:C0.
        -- rewrite (Kept d e0 C0). exact Cnt.
        -- destruct (cache st' !! d); lia.
      * destruct Pos as [C0 [e1 C1]]; [lia | reflexivity |].
        rewrite C0 in Cnt. rewrite C1. lia.
    + exact Unt'.
    + intros x base Hin Hs Hn. apply elem_of_cons in Hin as [-> | Hin].
      * apply Out; [reflexivity |]. rewrite Unt by exact Fresh. exact Hs.
      * apply Old; assumption.
  - (* the call raised and the exception is swallowed *)
    destruct (Rs e eq_refl) as [Hdoc Hcache].
    split; unfold add_events; cbn [doc cache trace].
    + rewrite Hcache. exact Wf.
    + intros bk d. rewrite Htr, !count_app, Hcaught, Hcache.
      change (count is_caught [EvCaught x0 e]) with 1%nat.
      change (count (is_encode bk d) [EvCaught x0 e]) with 0%nat.
      destruct (Henc bk d) as [Le _]. specialize (Cnt bk d). lia.
    + exact Unt'.
    + intros x base Hin Hs Hn. apply elem_of_cons in Hin as [-> | Hin].
      * exfalso. apply Hn. exists e. apply elem_of_app. right. apply list_elem_of_singleton.
        reflexivity.
      * destruct (Old x base Hin Hs) as (entry & Hc & Hb).
        -- intros C. apply Hn. apply caught_at_mono. exact C.
        -- exists entry. split; [exact Hc |]. exact Hb.
Qed.

Lemma fold_preserves (stored : gmap Z base_image) (items : list (Page * image_info)) :
  forall done st,
    NoDup (xrefs_of items) -> (forall x, x ∈ xrefs_of items -> x ∉ done) ->
    run_inv stored done st ->
    run_inv stored (rev (xrefs_of items) ++ done) (fold_left step items st).
Proof.
  induction items as [| item rest IH]; intros done st ND Fresh Inv.
  - exact Inv.
  - cbn [fold_left xrefs_of map rev]. rewrite <- app_assoc. cbn [app].
    apply NoDup_cons in ND as [Hnot ND].
    apply IH.
    + exact ND.
    + intros x Hx. apply not_elem_of_cons. split.
      * intros ->. contradiction.
      * apply Fresh. apply elem_of_cons. right. exact Hx.
    + apply step_preserves; [exact Inv |]. apply Fresh. apply elem_of_cons. left. reflexivity.
Qed.

End Loop.

(** ** The enumeration yields each object id once *)

Lemma xrefs_of_app (a b : list (Page * image_info)) :
  xrefs_of (a ++ b) = xrefs_of a ++ xrefs_of b.
Proof. apply map_app. Qed.

Lemma unseen_images_spec (page : Page) (listed : list image_info) :
  forall seen,
    NoDup (xrefs_of (fst (unseen_images page listed seen)))
    /\ (forall x, x ∈ xrefs_of (fst (unseen_images page listed seen)) ->
          (x ∉ seen) /\ (x ∈ snd (unseen_images page listed seen)))
    /\ (forall x, x ∈ seen -> x ∈ snd (unseen_images page listed seen)).
Proof.
  induction listed as [| info rest IH]; intros seen; cbn [unseen_images].
  - cbn. split; [constructor |]. split; [| tauto]. intros x Hx. inversion Hx.
  - destruct (decide (xref info ∈ seen)) as [In | Out]; [apply IH |].
    specialize (IH ({[xref info]} ∪ seen)).
    destruct (unseen_images page rest ({[xref info]} ∪ seen)) as [more seen'].
    cbn [fst snd xrefs_of map] in *. destruct IH as (ND & Mem & Sub).
    split; [| split].
    + constructor; [| exact ND]. intros Hin. destruct (Mem _ Hin) as [Hn _].
      apply Hn. apply elem_of_union. left. apply elem_of_singleton. reflexivity.
    + intros x Hx. apply elem_of_cons in Hx as [-> | Hx].
      * split; [exact Out |]. apply Sub. apply elem_of_union. left.
        apply elem_of_singleton. reflexivity.
      * destruct (Mem _ Hx) as [Hn Hs]. split; [| exact Hs].
        intros Hseen. apply Hn. apply elem_of_union. right. exact Hseen.
    + intros x Hx. apply Sub. apply elem_of_union. right. exact Hx.
Qed.

Lemma iter_pages_spec (pages : list Page) :
  forall seen,
    NoDup (xrefs_of (fst (iter_pages pages seen)))
    /\ forall x, x ∈ xrefs_of (fst (iter_pages pages seen)) -> x ∉ seen.
Proof.
  induction pages as [| page rest IH]; intros seen; cbn [iter_pages].
  - cbn. split; [constructor |]. intros x Hx. inversion Hx.
  - destruct (get_images page) as [listed | e].
    2:{ cbn. split; [constructor |]. intros x Hx. inversion Hx. }
    pose proof (unseen_images_spec page listed seen) as (ND1 & Mem1 & Sub1).
    destruct (unseen_images page listed seen) as [items seen1]. cbn [fst snd] in *.
    specialize (IH seen1). destruct (iter_pages rest seen1) as [more status].
    cbn [fst snd] in *. destruct IH as (ND2 & Mem2). rewrite xrefs_of_app. split.
    + apply NoDup_app. split; [exact ND1 |]. split; [| exact ND2].
      intros x Hx Hy. destruct (Mem1 _ Hx) as [_ Hs]. pose proof (Mem2 _ Hy). contradiction.
    + intros x Hx. apply elem_of_app in Hx as [Hx | Hx].
      * destruct (Mem1 _ Hx) as [Hn _]. exact Hn.
      * intros Hseen. apply (Mem2 _ Hx). apply Sub1. exact Hseen.
Qed.

Lemma elem_of_rev_list (x : Z) (l : list Z) : x ∈ l -> x ∈ rev l.
Proof. intros Hx. apply list_elem_of_In. apply in_rev. rewrite rev_involutive. apply list_elem_of_In. exact Hx. Qed.

Lemma iter_unique_images_nodup (opened : Document) :
  NoDup (xrefs_of (fst (_iter_unique_images opened))).
Proof. apply iter_pages_spec. Qed.

(** ** A whole run *)

Section Run.
Context `{Libs}.
Variables (image_quality : Z) (max_dpi : option Z).
Variables (skip_small : bool) (small_threshold : Z) (convert : bool) (png_threshold : Z).

Local Abbreviation compress :=
  (_compress_document image_quality max_dpi skip_small small_threshold
     convert png_threshold).
Local Abbreviation step :=
  (after_item (Z.max 1 (Z.min image_quality 100)) max_dpi skip_small small_threshold
     convert png_threshold).

Lemma compress_document_run (st : State) :
  exists totals,
    compress st =
    (match snd (_iter_unique_images (doc st)) with
     | None => Ok totals
     | Some e => Raise e
     end,
     fold_left step (fst (_iter_unique_images (doc st)))
       {| doc := doc st; cache := ∅; trace := trace st |}).
Proof.
  unfold _compress_document.
  destruct (_iter_unique_images (doc st)) as [items status]. cbn [fst snd].
  destruct (compress_loop_state (Z.max 1 (Z.min image_quality 100)) max_dpi skip_small
              small_threshold convert png_threshold items (0, 0, 0)%Z
              {| doc := doc st; cache := ∅; trace := trace st |}) as [totals ->].
  exists totals. destruct status; reflexivity.
Qed.

Lemma run_inv_initial (opened : Document) : run_inv (images opened) [] (initial opened).
Proof.
  split; cbn.
  - intros d e. rewrite lookup_empty. discriminate.
  - intros b d. cbn. lia.
  - reflexivity.
  - intros x base Hx. inversion Hx.
Qed.

Lemma run_inv_final (opened : Document) :
  run_inv (images opened) (rev (xrefs_of (fst (_iter_unique_images opened))) ++ [])
    (snd (compress (initial opened))).
Proof.
  destruct (compress_document_run (initial opened)) as [totals ->]. cbn [snd].
  apply fold_preserves.
  - apply iter_unique_images_nodup.
  - intros x _ Hx. inversion Hx.
  - apply run_inv_initial.
Qed.

(** In a run each backend is started on a digest at most once more than
    the number of swallowed exceptions. *)
Lemma encode_count_bound (opened : Document) (b : backend) (digest : bytes) :
  (count (is_encode b digest) (trace (snd (compress (initial opened))))
   <= count is_caught (trace (snd (compress (initial opened)))) + 1)%nat.
Proof.
  pose proof (ri_count _ _ _ (run_inv_final opened) b digest) as Cnt.
  destruct (cache (snd (compress (initial opened))) !! digest); lia.
Qed.

End Run.

(** ** Deduplication by content digest *)



(** Scenario B of the specification: two placements of the same bytes
    give one encoder invocation and two replacements. *)
Example dedup_scenario_b :
  trace (snd (_compress_document (H := Sample.halving) 90 (Some 250%Z) false 0 true 200000
                (initial Sample.twins)))
  = [EvEncode Pyvips [x01; x02; x03; x04]; EvReplace 1 [x01; x02]; EvReplace 2 [x01; x02]].
Proof. vm_compute. reflexivity. Qed.


(** ** The per-image failure boundary *)

(** C5, as the code has it.  An exception raised by [optimize_image]
    for one image (extraction, dimension planning, transparency
    detection, encoding, acceptance, replacement) is swallowed by the
    loop of [_compress_document]: the document and the cache are as they
    were before the attempt, and the loop goes on with the remaining
    images.  [_compress_document] and [compress_pdf] raise exactly when
    the enumeration itself raises, which happens outside the [try]
    block. *)
Theorem per_image_errors_are_swallowed `{Libs} (image_quality : Z) (max_dpi : option Z)
    (skip_small : bool) (small_threshold : Z) (convert : bool) (png_threshold : Z) :
  (forall page info rest totals st e st',
     optimize_image page info image_quality max_dpi skip_small small_threshold
       convert png_threshold compute_target_dimensions st = (Raise e, st') ->
     doc st' = doc st
     /\ cache st' = cache st
     /\ compress_loop ((page, info) :: rest) image_quality max_dpi skip_small
          small_threshold convert png_threshold totals st
        = compress_loop rest image_quality max_dpi skip_small small_threshold
            convert png_threshold totals (add_events st' [EvCaught (xref info) e]))
  /\ (forall st, exists totals,
        fst (_compress_document image_quality max_dpi skip_small small_threshold
               convert png_threshold st)
        = match snd (_iter_unique_images (doc st)) with
          | None => Ok totals
          | Some e => Raise e
          end)
  /\ (forall opened,
        match snd (_iter_unique_images opened) with
        | None => exists saved,
            compress_pdf opened image_quality max_dpi skip_small small_threshold
              convert png_threshold = Ok saved
        | Some e =>
            compress_pdf opened image_quality max_dpi skip_small small_threshold
              convert png_threshold = Raise e
        end).
Proof.
  split; [| split].
  - intros page info rest totals st e st' Hr.
    pose proof (optimize_image_effect page info image_quality max_dpi skip_small
                  small_threshold convert png_threshold compute_target_dimensions st) as E.
    cbv zeta in E. rewrite Hr in E. cbn [fst snd] in E.
    destruct (ce_raise _ _ _ _ E e eq_refl) as [Hd Hc].
    split; [exact Hd |]. split; [exact Hc |].
    cbn [compress_loop]. rewrite Hr. reflexivity.
  - intros st.
    destruct (compress_document_run image_quality max_dpi skip_small small_threshold
                convert png_threshold st) as [totals ->].
    exists totals. reflexivity.
  - intros opened. unfold compress_pdf.
    destruct (compress_document_run image_quality max_dpi skip_small small_threshold
                convert png_threshold {| doc := opened; cache := ∅; trace := [] |})
      as [totals ->].
    cbn [doc]. destruct (snd (_iter_unique_images opened)); [reflexivity | eauto].
Qed.

Lemma per_image_errors_are_swallowed_witness :
  exists saved,
    compress_pdf (H := Sample.failing) Sample.twins 90 (Some 250%Z) false 0 true 200000
    = Ok saved.
Proof.
  destruct (per_image_errors_are_swallowed (H := Sample.failing) 90 (Some 250%Z) false 0
              true 200000) as (_ & _ & Pdf).
  exact (Pdf Sample.twins).
Defined.

(** C5, as stated, fails for the enumeration: when the listing of the
    second page raises, the exception leaves the generator inside the
    [for] statement, outside the [try] block, and reaches the caller of
    [compress_pdf]. *)
Lemma enumeration_error_reaches_the_caller :
  snd (_iter_unique_images Sample.broken_listing) = Some RuntimeError
  /\ compress_pdf (H := Sample.halving) Sample.broken_listing 90 (Some 250%Z) false 0 true
       200000 = Raise RuntimeError.
Proof. vm_compute. split; reflexivity. Qed.

(* ================================================================== *)
(** * Part III: further properties of the code *)
(* ================================================================== *)

(** ** The error of one rounding *)

Lemma scaled_back (x : Q) (e : Z) : (x / 2 ^ e * 2 ^ e == x)%Q.
Proof.
  pose proof (Binary64Facts.pow2_pos e) as Pe.
  field. intros E. rewrite E in Pe. apply (Qlt_irrefl 0). exact Pe.
Qed.

(** A positive value grows by at most one part in 2^52 when rounded. *)
Lemma round_upper (x : Q) : (0 < x)%Q -> (Binary64.round x <= x * (1 + 2 ^ (-52)))%Q.
Proof.
  intros Hx. rewrite (Binary64Facts.round_pos_unfold x Hx).
  set (e := (Binary64.ilog2 x - 52)%Z).
  destruct (Binary64Facts.scaled_range x Hx) as [Lo _]. fold e in Lo.
  pose proof (Binary64Facts.pow2_pos e) as Pe.
  pose proof (Binary64Facts.rne_bounds (x / 2 ^ e)) as [_ Up].
  pose proof (Qfloor_le (x / 2 ^ e)) as Fl.
  pose proof (scaled_back x e) as Back.
  assert (R : (inject_Z (Binary64.rne (x / 2 ^ e)) <= x / 2 ^ e + 1)%Q).
  { eapply Qle_trans; [rewrite <- Zle_Qle; exact Up |]. rewrite inject_Z_plus.
    change (inject_Z 1) with 1%Q. lra. }
  set (y := (x / 2 ^ e)%Q) in *. set (p := (2 ^ e)%Q) in *.
  change (2 ^ 52)%Q with 4503599627370496%Q in Lo.
  change (2 ^ (-52))%Q with (1 # 4503599627370496)%Q.
  assert (S1 : (inject_Z (Binary64.rne y) * p <= (y + 1) * p)%Q).
  { apply Qmult_le_compat_r; [exact R | apply Qlt_le_weak; exact Pe]. }
  assert (S2 : (4503599627370496 * p <= y * p)%Q).
  { apply Qmult_le_compat_r; [exact Lo | apply Qlt_le_weak; exact Pe]. }
  lra.
Qed.

(** ** The planner keeps to the ceiling *)

(** Scaling by a factor that is at most the rounded quotient [m / n]
    gives at most [m] pixels, for every [m] up to 2^49. *)
Lemma scaled_px_fits (n m : Z) (s : Q) :
  (0 < n)%Z -> (0 < m <= 2 ^ 49)%Z -> (0 < s)%Q ->
  (s <= Binary64.round (inject_Z m / inject_Z n))%Q ->
  (scaled_px n s <= m)%Z.
Proof.
  intros Hn [Hm0 Hm] Hs0 Hs. unfold scaled_px, Binary64.floor.
  apply Z.max_lub; [lia |].
  unfold Binary64.int_mul, Binary64.mul, Binary64.of_int.
  pose proof (Binary64Facts.inject_Z_pos n Hn) as An.
  pose proof (Binary64Facts.inject_Z_pos m Hm0) as Am.
  set (a := inject_Z n) in *. set (b := inject_Z m) in *.
  assert (Hr : (0 < b / a)%Q).
  { apply Qlt_shift_div_l; [exact An | lra]. }
  pose proof (round_upper a An) as Ua.
  pose proof (round_upper (b / a) Hr) as Uq.
  pose proof (Binary64Facts.round_pos a An) as Pa.
  change (2 ^ (-52))%Q with (1 # 4503599627370496)%Q in Ua, Uq.
  set (N := Binary64.round a) in *. set (q := Binary64.round (b / a)) in *.
  assert (Hb : (b <= 562949953421312)%Q).
  { unfold b. change 562949953421312%Q with (inject_Z (2 ^ 49)). rewrite <- Zle_Qle. exact Hm. }
  assert (Era : (b / a * a == b)%Q) by (field; lra).
  set (r := (b / a)%Q) in *.
  assert (P1 : (N * s <= N * q)%Q).
  { rewrite !(Qmult_comm N). apply Qmult_le_compat_r; [exact Hs | lra]. }
  assert (P2 : (N * q <= a * (1 + (1 # 4503599627370496)) * q)%Q).
  { apply Qmult_le_compat_r; [exact Ua | lra]. }
  assert (P3 : (a * (1 + (1 # 4503599627370496)) * q
                <= a * (1 + (1 # 4503599627370496)) * (r * (1 + (1 # 4503599627370496))))%Q).
  { rewrite !(Qmult_comm (a * (1 + (1 # 4503599627370496)))).
    apply Qmult_le_compat_r; [exact Uq | lra]. }
  assert (P4 : (a * (1 + (1 # 4503599627370496)) * (r * (1 + (1 # 4503599627370496)))
                == b * ((1 + (1 # 4503599627370496)) * (1 + (1 # 4503599627370496))))%Q).
  { rewrite <- Era. ring. }
  assert (P5 : (N * s <= b + (1 # 2))%Q).
  { eapply Qle_trans; [exact P1 |]. eapply Qle_trans; [exact P2 |].
    eapply Qle_trans; [exact P3 |]. rewrite P4. lra. }
  set (B := (inject_Z (2 * m + 1) * 2 ^ (-1))%Q).
  assert (EB : (B == b + (1 # 2))%Q).
  { unfold B, b. rewrite inject_Z_plus, inject_Z_mult.
    change (2 ^ (-1))%Q with (1 # 2)%Q. change (inject_Z 2) with 2%Q.
    change (inject_Z 1) with 1%Q. ring. }
  assert (RB : (Binary64.round B == B)%Q) by (apply Binary64Facts.round_exact; lia).
  assert (P0 : (0 <= N * s)%Q).
  { apply Qmult_le_0_compat; lra. }
  assert (P6 : (N * s <= B)%Q) by (rewrite EB; exact P5).
  pose proof (Binary64Facts.round_mono _ _ P0 P6) as Mo. rewrite RB, EB in Mo.
  pose proof (Qfloor_le (Binary64.round (N * s))) as Fl.
  assert (L : (inject_Z (Qfloor (Binary64.round (N * s))) < inject_Z (m + 1))%Q).
  { rewrite inject_Z_plus. fold b. change (inject_Z 1) with 1%Q. lra. }
  rewrite <- Zlt_Qlt in L. lia.
Qed.

(** X1: Whenever the ceiling is in force and the placement rectangle is
    known, the planned size is within the per-axis pixel maximum, and
    planning the planned size again changes nothing.  The original
    dimensions and the ceiling are positive and below 2^53 and the
    pixel maxima are at most 2^49, a range in which every [int]
    converts to [float] exactly and no product leaves the range of
    [float]. *)
Theorem planner_keeps_to_the_ceiling (page : Page) (info : image_info)
    (original_width original_height dpi : Z) (candidate : bbox_candidate) :
  (0 < original_width < 2 ^ 53)%Z ->
  (0 < original_height < 2 ^ 53)%Z ->
  (0 < dpi < 2 ^ 53)%Z ->
  get_image_bbox page info = Ok candidate ->
  let max_w := max_px dpi (Rect.width (rect_of candidate)) in
  let max_h := max_px dpi (Rect.height (rect_of candidate)) in
  (max_w <= 2 ^ 49)%Z ->
  (max_h <= 2 ^ 49)%Z ->
  exists w h,
    compute_target_dimensions page info original_width original_height (Some dpi)
    = Ok (w, h)
    /\ (1 <= w <= max_w)%Z /\ (1 <= h <= max_h)%Z
    /\ compute_target_dimensions page info w h (Some dpi) = Ok (w, h).
Proof.
  intros [How _] [Hoh _] [Hd _] Hb mw mh Hmw Hmh.
  pose proof (max_px_pos dpi (Rect.width (rect_of candidate))) as Pw.
  pose proof (max_px_pos dpi (Rect.height (rect_of candidate))) as Ph.
  fold mw in Pw. fold mh in Ph.
  assert (Again : forall w h, (1 <= w <= mw)%Z -> (1 <= h <= mh)%Z ->
            compute_target_dimensions page info w h (Some dpi) = Ok (w, h)).
  { intros w h Hw Hh.
    rewrite (compute_target_dimensions_placed page info w h dpi candidate)
      by (assumption || lia).
    cbv zeta. fold mw mh.
    replace (w <=? mw)%Z with true by lia. replace (h <=? mh)%Z with true by lia.
    reflexivity. }
  rewrite (compute_target_dimensions_placed page info _ _ dpi candidate)
    by (assumption || lia).
  cbv zeta. fold mw mh.
  destruct ((original_width <=? mw)%Z && (original_height <=? mh)%Z) eqn:Fit.
  - apply andb_true_iff in Fit as [Fw Fh].
    exists original_width, original_height.
    split; [reflexivity |]. split; [lia |]. split; [lia |]. apply Again; lia.
  - assert (L : (mw < original_width \/ mh < original_height)%Z).
    { apply andb_false_iff in Fit. lia. }
    destruct (scale_factor_range mw mh original_width original_height) as [S0 S1];
      try lia.
    assert (Bw : (1 <= scaled_px original_width
                         (scale_factor mw mh original_width original_height) <= mw)%Z).
    { split; [unfold scaled_px; lia |].
      apply scaled_px_fits; [lia | lia | exact S0 |]. apply Binary64Facts.min_le_l. }
    assert (Bh : (1 <= scaled_px original_height
                         (scale_factor mw mh original_width original_height) <= mh)%Z).
    { split; [unfold scaled_px; lia |].
      apply scaled_px_fits; [lia | lia | exact S0 |]. apply Binary64Facts.min_le_r. }
    eexists _, _. split; [reflexivity |]. split; [exact Bw |]. split; [exact Bh |].
    apply Again; assumption.
Qed.

Lemma planner_keeps_to_the_ceiling_witness :
  exists w h,
    compute_target_dimensions (Sample.page_placed []) Sample.info1 800 600 (Some 72%Z)
    = Ok (w, h)
    /\ (1 <= w <= max_px 72 (Rect.width (rect_of (BBoxRect {| Rect.width := 100; Rect.height := 100 |}))))%Z
    /\ (1 <= h <= max_px 72 (Rect.height (rect_of (BBoxRect {| Rect.width := 100; Rect.height := 100 |}))))%Z
    /\ compute_target_dimensions (Sample.page_placed []) Sample.info1 w h (Some 72%Z)
       = Ok (w, h).
Proof.
  apply (planner_keeps_to_the_ceiling (Sample.page_placed []) Sample.info1 800 600 72
           (BBoxRect {| Rect.width := 100; Rect.height := 100 |})).
  - lia.
  - lia.
  - lia.
  - reflexivity.
  - vm_compute. discriminate.
  - vm_compute. discriminate.
Defined.

(** ** Degenerate original dimensions *)

(** X2: An original dimension of zero is returned as it is while the other
    one fits its pixel maximum; once the other one exceeds it, computing
    the scale factor divides by zero and the planner raises
    [ZeroDivisionError].  The ceiling is positive and below 2^53 and the
    pixel maxima are at most 2^53, so that they are computed within the
    range of [float]; the division by zero is the first operation on
    the original dimensions. *)
Theorem planner_divides_by_a_zero_dimension (page : Page) (info : image_info)
    (original_width original_height dpi : Z) (candidate : bbox_candidate) :
  (0 < dpi < 2 ^ 53)%Z ->
  get_image_bbox page info = Ok candidate ->
  let max_w := max_px dpi (Rect.width (rect_of candidate)) in
  let max_h := max_px dpi (Rect.height (rect_of candidate)) in
  (max_w <= 2 ^ 53)%Z ->
  (max_h <= 2 ^ 53)%Z ->
  compute_target_dimensions page info 0 original_height (Some dpi)
  = (if (original_height <=? max_h)%Z then Ok (0, original_height)%Z
     else Raise ZeroDivisionError)
  /\ compute_target_dimensions page info original_width 0 (Some dpi)
     = (if (original_width <=? max_w)%Z then Ok (original_width, 0)%Z
        else Raise ZeroDivisionError).
Proof.
  intros [Hd _] Hb mw mh _ _.
  pose proof (max_px_pos dpi (Rect.width (rect_of candidate))) as Pw.
  pose proof (max_px_pos dpi (Rect.height (rect_of candidate))) as Ph.
  fold mw in Pw. fold mh in Ph.
  unfold compute_target_dimensions.
  replace (dpi =? 0)%Z with false by lia. replace (dpi <=? 0)%Z with false by lia.
  cbn [orb]. rewrite Hb. fold mw mh. split.
  - replace (0 <=? mw)%Z with true by lia. cbn [andb].
    destruct (original_height <=? mh)%Z; reflexivity.
  - replace (0 <=? mh)%Z with true by lia. rewrite andb_true_r.
    destruct (original_width <=? mw)%Z eqn:Fw; [reflexivity |].
    unfold Binary64.int_truediv.
    replace (original_width =? 0)%Z with false by lia.
    reflexivity.
Qed.

Lemma planner_divides_by_a_zero_dimension_witness :
  compute_target_dimensions (Sample.page_placed []) Sample.info1 0 600 (Some 72%Z)
  = Raise ZeroDivisionError
  /\ compute_target_dimensions (Sample.page_placed []) Sample.info1 50 0 (Some 72%Z)
     = Ok (50, 0)%Z.
Proof.
  apply (planner_divides_by_a_zero_dimension (Sample.page_placed []) Sample.info1 50 600 72
           (BBoxRect {| Rect.width := 100; Rect.height := 100 |})).
  - lia.
  - reflexivity.
  - vm_compute. discriminate.
  - vm_compute. discriminate.
Defined.

(** ** The sign and the range of the reported reduction *)

Lemma round_neg (x : Q) : (x < 0)%Q -> (Binary64.round x < 0)%Q.
Proof.
  intros Hx.
  assert (Nz : ~ (x == 0)%Q) by lra.
  rewrite (Binary64Facts.round_unfold x Nz).
  assert (Ha : (Qabs x == - x)%Q) by (apply Qabs_neg; lra).
  assert (Pa : (0 < Qabs x)%Q) by (rewrite Ha; lra).
  set (e := (Binary64.ilog2 (Qabs x) - 52)%Z).
  destruct (Binary64Facts.scaled_range (Qabs x) Pa) as [Lo _]. fold e in Lo.
  pose proof (Binary64Facts.pow2_pos e) as Pe.
  pose proof (Binary64Facts.rne_bounds (x / 2 ^ e)) as [_ Up].
  pose proof (Qfloor_le (x / 2 ^ e)) as Fl.
  assert (E : (Qabs x / 2 ^ e == - (x / 2 ^ e))%Q).
  { rewrite Ha. field. lra. }
  rewrite E in Lo. change (2 ^ 52)%Q with 4503599627370496%Q in Lo.
  assert (R : (inject_Z (Binary64.rne (x / 2 ^ e)) < 0)%Q).
  { eapply Qle_lt_trans; [rewrite <- Zle_Qle; exact Up |]. rewrite inject_Z_plus.
    change (inject_Z 1) with 1%Q. lra. }
  set (k := inject_Z (Binary64.rne (x / 2 ^ e))) in *. set (p := (2 ^ e)%Q) in *.
  assert (M : (0 < (- k) * p)%Q) by (apply Qmult_lt_0_compat; lra).
  lra.
Qed.

Lemma compression_stats_nonempty (original_bytes compressed_bytes : bytes) :
  (0 < len original_bytes)%Z ->
  get_compression_stats original_bytes compressed_bytes
  = Ok {| CompressionStats.original_size := len original_bytes;
          CompressionStats.compressed_size := len compressed_bytes;
          CompressionStats.reduction_bytes := len original_bytes - len compressed_bytes;
          CompressionStats.reduction_percent :=
            Binary64.mul
              (Binary64.round
                 (inject_Z (len original_bytes - len compressed_bytes)
                  / inject_Z (len original_bytes)))
              (Binary64.of_int 100) |}.
Proof.
  intros Hpos. unfold get_compression_stats, Binary64.int_truediv.
  replace (len original_bytes =? 0)%Z with false by lia. reflexivity.
Qed.

(** X3: For a non-empty original, [reduction_percent] has the sign of the
    number of bytes saved: zero exactly when both lengths agree, negative
    exactly when the result is longer; and it lies between 0 and 100
    whenever the result is not longer than the original. *)
Theorem reduction_percent_sign_and_range (original_bytes compressed_bytes : bytes) :
  (0 < len original_bytes)%Z ->
  exists stats,
    get_compression_stats original_bytes compressed_bytes = Ok stats
    /\ (len compressed_bytes = len original_bytes
        <-> (CompressionStats.reduction_percent stats == 0)%Q)
    /\ ((len original_bytes < len compressed_bytes)%Z
        <-> (CompressionStats.reduction_percent stats < 0)%Q)
    /\ ((len compressed_bytes <= len original_bytes)%Z ->
        (0 <= CompressionStats.reduction_percent stats)%Q
        /\ (CompressionStats.reduction_percent stats <= 100)%Q).
Proof.
  intros Ho.
  pose proof (compression_stats_nonempty original_bytes compressed_bytes Ho) as Hs.
  revert Hs.
  set (o := len original_bytes). set (c := len compressed_bytes).
  set (r := Binary64.round (inject_Z (o - c) / inject_Z o)).
  intros Hs. eexists. split; [exact Hs |]. cbn [CompressionStats.reduction_percent].
  pose proof (Binary64Facts.inject_Z_pos o Ho) as Po.
  assert (E100 : (Binary64.of_int 100 == 100)%Q).
  { unfold Binary64.of_int. rewrite Binary64Facts.round_Z by lia. reflexivity. }
  assert (Ep : Binary64.mul r (Binary64.of_int 100) = Binary64.round (r * 100)).
  { unfold Binary64.mul. apply Binary64Facts.round_proper. rewrite E100. reflexivity. }
  rewrite Ep. clear Ep E100.
  assert (Pos : (c < o)%Z -> (0 < Binary64.round (r * 100))%Q).
  { intros L. apply Binary64Facts.round_pos.
    assert (0 < r)%Q; [| lra]. unfold r. apply Binary64Facts.round_pos.
    apply Qlt_shift_div_l; [exact Po |]. rewrite Qmult_0_l.
    apply Binary64Facts.inject_Z_pos. lia. }
  assert (Zero : c = o -> (Binary64.round (r * 100) == 0)%Q).
  { intros ->. unfold r. rewrite Z.sub_diag.
    assert (E : (inject_Z 0 / inject_Z o == 0)%Q) by (unfold Qdiv; ring).
    rewrite (Binary64Facts.round_proper _ _ E).
    change (Binary64.round 0) with 0%Q.
    assert (E' : (0 * 100 == 0)%Q) by ring.
    rewrite (Binary64Facts.round_proper _ _ E'). reflexivity. }
  assert (Neg : (o < c)%Z -> (Binary64.round (r * 100) < 0)%Q).
  { intros L. apply round_neg.
    assert (r < 0)%Q; [| lra]. unfold r. apply round_neg.
    assert (D : (inject_Z (o - c) < 0)%Q).
    { change 0%Q with (inject_Z 0). rewrite <- Zlt_Qlt. lia. }
    assert (I : (0 < / inject_Z o)%Q) by (apply Qinv_lt_0_compat; exact Po).
    unfold Qdiv.
    assert (M : (0 < (- inject_Z (o - c)) * / inject_Z o)%Q)
      by (apply Qmult_lt_0_compat; lra).
    lra. }
  split; [| split].
  - split; [exact Zero |]. intros Z0.
    destruct (Z.lt_trichotomy c o) as [L | [E | G]]; [| exact E |].
    + specialize (Pos L). lra.
    + specialize (Neg G). lra.
  - split; [exact Neg |]. intros N0.
    destruct (Z.lt_trichotomy c o) as [L | [E | G]]; [| | exact G].
    + specialize (Pos L). lra.
    + specialize (Zero E). lra.
  - intros Le.
    assert (R0 : (0 <= inject_Z (o - c) / inject_Z o)%Q).
    { apply Qle_shift_div_l; [exact Po |]. rewrite Qmult_0_l.
      change 0%Q with (inject_Z 0). rewrite <- Zle_Qle. lia. }
    assert (R1 : (inject_Z (o - c) / inject_Z o <= 1)%Q).
    { apply Qle_shift_div_r; [exact Po |]. rewrite Qmult_1_l.
      rewrite <- Zle_Qle. unfold c, len. lia. }
    assert (Hr0 : (0 <= r)%Q) by (apply round_nonneg; exact R0).
    assert (Hr1 : (r <= 1)%Q).
    { pose proof Binary64Facts.round_1 as E1.
      assert (Mo : (r <= Binary64.round 1)%Q)
        by (apply Binary64Facts.round_mono; assumption).
      lra. }
    split.
    + apply round_nonneg. lra.
    + assert (E : (Binary64.round 100 == 100)%Q).
      { change 100%Q with (inject_Z 100). apply Binary64Facts.round_Z. lia. }
      assert (Mo : (Binary64.round (r * 100) <= Binary64.round 100)%Q)
        by (apply Binary64Facts.round_mono; lra).
      lra.
Qed.

Lemma reduction_percent_sign_and_range_witness :
  exists stats,
    get_compression_stats [x01; x02; x03] [x04] = Ok stats
    /\ (len [x04] = len [x01; x02; x03]
        <-> (CompressionStats.reduction_percent stats == 0)%Q)
    /\ ((len [x01; x02; x03] < len [x04])%Z
        <-> (CompressionStats.reduction_percent stats < 0)%Q)
    /\ ((len [x04] <= len [x01; x02; x03])%Z ->
        (0 <= CompressionStats.reduction_percent stats)%Q
        /\ (CompressionStats.reduction_percent stats <= 100)%Q).
Proof.
  apply (reduction_percent_sign_and_range [x01; x02; x03] [x04]). reflexivity.
Defined.

(** ** Images that Pillow cannot open *)

(** X4: Transparency is probed with Pillow only for images with a soft mask
    or the extension png.  For those, an [Image.open] that raises ends
    the attempt: the primary backend is not reached, the fallback raises
    the same exception, and [optimize_image] raises it with the document
    and the cache as they were.  For every other image the primary
    backend runs without Pillow and the gate decides on its bytes. *)
Theorem pillow_is_consulted_only_for_possible_transparency `{Libs}
    (page : Page) (info : image_info) (quality : Z) (max_dpi : option Z)
    (skip_small : bool) (small_threshold : Z) (convert : bool) (png_threshold : Z)
    (plan : planner) (st : State) (base : base_image) (target : Z * Z) (e : exn) :
  images (doc st) !! xref info = Some base ->
  cache st !! sha1 (image base) = None ->
  skipped skip_small small_threshold base = false ->
  plan page info (width base) (height base) max_dpi = Ok target ->
  Image_open (image base) = Raise e ->
  let run := optimize_image page info quality max_dpi skip_small small_threshold
               convert png_threshold plan st in
  (smask_present info = true \/ lower (ext base) = "png"%string ->
     run = (Raise e,
            add_events st [EvEncode Pyvips (image base); EvEncode Pillow (image base)]))
  /\ (smask_present info = false -> lower (ext base) <> "png"%string ->
      forall optimized_bytes,
        _optimize_image_with_pyvips (image base) (lower (ext base))
          (width base) (height base) (fst target) (snd target) false quality
          convert png_threshold (len (image base)) (default 8%Z (bpc base))
        = Ok optimized_bytes ->
        run = gate_outcome (xref info) (sha1 (image base)) base optimized_bytes
                (add_events st [EvEncode Pyvips (image base)])).
Proof.
  intros Hx Hc Hs Hp Ho run. unfold run.
  rewrite (optimize_image_encoding page info quality max_dpi skip_small small_threshold
             convert png_threshold plan st base target Hx Hc Hs Hp).
  cbv zeta. split.
  - intros Probe.
    assert (E1 : pyvips_encode (image base) (lower (ext base)) (width base, height base)
                   target (smask_present info) quality convert png_threshold
                   (len (image base)) (default 8%Z (bpc base)) = Raise e).
    { unfold pyvips_encode.
      replace (smask_present info || String.eqb (lower (ext base)) "png") with true.
      - rewrite Ho. reflexivity.
      - symmetry. apply orb_true_iff. destruct Probe as [-> | ->]; [left | right]; reflexivity. }
    assert (E2 : pil_encode (image base) (lower (ext base)) (width base, height base)
                   target (smask_present info) quality convert png_threshold
                   (len (image base)) (default 8%Z (bpc base)) = Raise e).
    { unfold pil_encode. rewrite Ho. reflexivity. }
    rewrite E1, E2. unfold add_events. cbn [doc cache trace].
    rewrite <- app_assoc. reflexivity.
  - intros Hm He ob Hv.
    assert (E1 : pyvips_encode (image base) (lower (ext base)) (width base, height base)
                   target (smask_present info) quality convert png_threshold
                   (len (image base)) (default 8%Z (bpc base)) = Ok ob).
    { unfold pyvips_encode. rewrite Hm.
      replace (String.eqb (lower (ext base)) "png") with false
        by (symmetry; apply String.eqb_neq; exact He).
      cbn [orb fst snd]. exact Hv. }
    rewrite E1. reflexivity.
Qed.

Lemma pillow_is_consulted_only_for_possible_transparency_witness :
  optimize_image (H := Bench.pyvips_only) (Sample.page_placed [Sample.info1; Sample.info2])
    Sample.info1 90 (Some 250%Z) false 0 true 200000 compute_target_dimensions
    (initial Bench.mixed)
  = (Raise OSError,
     add_events (initial Bench.mixed)
       [EvEncode Pyvips Sample.payload; EvEncode Pillow Sample.payload]).
Proof.
  refine (proj1 (pillow_is_consulted_only_for_possible_transparency (H := Bench.pyvips_only)
                   (Sample.page_placed [Sample.info1; Sample.info2]) Sample.info1
                   90 (Some 250%Z) false 0 true 200000 compute_target_dimensions
                   (initial Bench.mixed) Bench.png (10, 10)%Z OSError _ _ _ _ _) _).
  - vm_compute. reflexivity.
  - vm_compute. reflexivity.
  - vm_compute. reflexivity.
  - vm_compute. reflexivity.
  - reflexivity.
  - right. vm_compute. reflexivity.
Defined.

(** ** The pipeline without pyvips *)

(** The outcome of the gate does not depend on the events recorded so
    far. *)
Lemma gate_outcome_events (x : Z) (d : bytes) (base : base_image) (ob : bytes)
    (st : State) (evs : list event) :
  let plain := gate_outcome x d base ob st in
  let later := gate_outcome x d base ob (add_events st evs) in
  fst later = fst plain
  /\ doc (snd later) = doc (snd plain)
  /\ cache (snd later) = cache (snd plain).
Proof.
  unfold gate_outcome. destruct (no_gain _ _); cbn; auto.
Qed.

(** X5: When pyvips cannot load any buffer, [optimize_image] returns what
    [_optimize_image_with_pil] returns, and leaves the same document and
    the same cache: the fallback is the whole pipeline. *)
Theorem without_pyvips_the_fallback_decides `{Libs}
    (page : Page) (info : image_info) (quality : Z) (max_dpi : option Z)
    (skip_small : bool) (small_threshold : Z) (convert : bool) (png_threshold : Z)
    (plan : planner) (st : State) :
  (forall image_bytes, is_Ok (vips_new_from_buffer image_bytes) = false) ->
  let primary := optimize_image page info quality max_dpi skip_small small_threshold
                   convert png_threshold plan st in
  let fallback := _optimize_image_with_pil page info quality max_dpi skip_small
                    small_threshold convert png_threshold plan st in
  fst primary = fst fallback
  /\ doc (snd primary) = doc (snd fallback)
  /\ cache (snd primary) = cache (snd fallback).
Proof.
  intros Hv primary fallback.
  destruct (images (doc st) !! xref info) as [base |] eqn:Hx.
  2:{ unfold primary, fallback, optimize_image, _optimize_image_with_pil,
        mbind, M_bind, extract_image. rewrite Hx. auto. }
  destruct (cache st !! sha1 (image base)) as [entry |] eqn:Hc.
  { unfold primary, fallback, optimize_image, _optimize_image_with_pil,
      mbind, M_bind, extract_image, cache_get. rewrite Hx, Hc. auto. }
  destruct (skipped skip_small small_threshold base) eqn:Hs.
  { unfold primary, fallback, optimize_image, _optimize_image_with_pil,
      mbind, M_bind, extract_image, cache_get. rewrite Hx, Hc.
    unfold skipped in Hs.
    destruct (skip_small && (len (image base) <=? small_threshold)%Z); [auto |].
    cbn [orb] in Hs. rewrite Hs. auto. }
  destruct (plan page info (width base) (height base) max_dpi) as [target | e] eqn:Hp.
  2:{ unfold primary, fallback, optimize_image, _optimize_image_with_pil,
        mbind, M_bind, extract_image, cache_get. rewrite Hx, Hc.
      unfold skipped in Hs. apply orb_false_iff in Hs as [Hs1 Hs2].
      rewrite Hs1, Hs2. unfold lift. rewrite Hp. auto. }
  unfold primary, fallback.
  rewrite (optimize_image_encoding page info quality max_dpi skip_small small_threshold
             convert png_threshold plan st base target Hx Hc Hs Hp).
  rewrite (fallback_encoding page info quality max_dpi skip_small small_threshold
             convert png_threshold plan st base target Hx Hc Hs Hp).
  cbv zeta.
  assert (E1 : exists e1,
             pyvips_encode (image base) (lower (ext base)) (width base, height base)
               target (smask_present info) quality convert png_threshold
               (len (image base)) (default 8%Z (bpc base)) = Raise e1).
  { unfold pyvips_encode.
    destruct (if smask_present info || String.eqb (lower (ext base)) "png"
              then _ else _) as [a | e1]; [| exists e1; reflexivity].
    cbn. unfold _optimize_image_with_pyvips.
    specialize (Hv (image base)).
    destruct (vips_new_from_buffer (image base)) as [u | e1]; [discriminate |].
    exists e1. reflexivity. }
  destruct E1 as [e1 ->].
  destruct (pil_encode _ _ _ _ _ _ _ _ _ _) as [ob | e2]; [| auto].
  destruct (gate_outcome_events (xref info) (sha1 (image base)) base ob st
              [EvEncode Pyvips (image base); EvEncode Pillow (image base)]) as (A1 & A2 & A3).
  destruct (gate_outcome_events (xref info) (sha1 (image base)) base ob st
              [EvEncode Pillow (image base)]) as (B1 & B2 & B3).
  assert (E2 : add_events (add_events st [EvEncode Pyvips (image base)])
                 [EvEncode Pillow (image base)]
               = add_events st [EvEncode Pyvips (image base); EvEncode Pillow (image base)]).
  { unfold add_events. cbn [doc cache trace]. rewrite <- app_assoc. reflexivity. }
  rewrite E2. cbv zeta in A1, A2, A3, B1, B2, B3.
  rewrite A1, A2, A3, B1, B2, B3. auto.
Qed.

Lemma without_pyvips_the_fallback_decides_witness :
  fst (optimize_image (H := Bench.pillow_only) (Sample.page_placed [Sample.info1; Sample.info2])
         Sample.info1 90 (Some 250%Z) false 0 true 200000 compute_target_dimensions
         (initial Sample.twins))
  = fst (_optimize_image_with_pil (H := Bench.pillow_only)
           (Sample.page_placed [Sample.info1; Sample.info2])
           Sample.info1 90 (Some 250%Z) false 0 true 200000 compute_target_dimensions
           (initial Sample.twins)).
Proof.
  refine (proj1 (without_pyvips_the_fallback_decides (H := Bench.pillow_only)
                   (Sample.page_placed [Sample.info1; Sample.info2]) Sample.info1
                   90 (Some 250%Z) false 0 true 200000 compute_target_dimensions
                   (initial Sample.twins) _)).
  intros image_bytes. reflexivity.
Defined.

(** ** What Pillow is asked to write as JPEG *)

Lemma convert_unless_mode `{Libs} (keep : list string) (pil_image converted : PIL.Image) :
  (forall img img', Image_convert img "RGB" = Ok img' -> PIL.mode img' = "RGB"%string) ->
  convert_unless keep pil_image = Ok converted ->
  str_in (PIL.mode converted) keep = true \/ PIL.mode converted = "RGB"%string.
Proof.
  intros Hconv. unfold convert_unless.
  destruct (str_in (PIL.mode pil_image) keep) eqn:K.
  - intros [= <-]. left. exact K.
  - intros Hc. right. exact (Hconv _ _ Hc).
Qed.

(** X6: Whenever the Pillow backend produces bytes for an image that is
    saved as JPEG (the extension is jpeg, or a PNG is converted), the
    image handed to [save] has mode RGB or L, the format name is JPEG
    and the options are the given quality, [optimize=False],
    [progressive=False] and [subsampling=2], provided that
    [convert("RGB")] returns an image of mode RGB. *)
Theorem pillow_saves_jpeg_from_rgb_or_l `{Libs} (image_bytes : bytes) (image_ext : string)
    (original target : Z * Z) (smask_present : bool) (image_quality : Z)
    (convert_large_pngs_to_jpeg : bool) (png_to_jpeg_threshold original_size bpc : Z)
    (opened : PIL.Image) (optimized_bytes : bytes) :
  (forall img img', Image_convert img "RGB" = Ok img' -> PIL.mode img' = "RGB"%string) ->
  Image_open image_bytes = Ok opened ->
  pil_save_format image_ext (_has_transparency opened smask_present)
    convert_large_pngs_to_jpeg png_to_jpeg_threshold original_size bpc = "jpeg"%string ->
  pil_encode image_bytes image_ext original target smask_present image_quality
    convert_large_pngs_to_jpeg png_to_jpeg_threshold original_size bpc
  = Ok optimized_bytes ->
  exists pil_image,
    str_in (PIL.mode pil_image) ["RGB"; "L"]%string = true
    /\ Image_save pil_image "JPEG" (PIL.JpegKwargs image_quality false false 2)
       = Ok optimized_bytes.
Proof.
  intros Hconv Ho Hf. unfold pil_encode. rewrite Ho. cbn [mbind result_bind].
  rewrite Hf. cbn [String.eqb Ascii.eqb Bool.eqb andb].
  destruct (if needs_resize target original then Image_resize opened target else Ok opened)
    as [resized | e]; [| discriminate].
  cbn [mbind result_bind].
  destruct (if String.eqb image_ext "png" then _ else _) as [prepared | e];
    [| discriminate].
  cbn [mbind result_bind].
  destruct (convert_unless ["RGB"; "L"]%string prepared) as [final | e] eqn:Hc;
    [| discriminate].
  cbn [mbind result_bind]. intros Hsave.
  exists final. split; [| exact Hsave].
  destruct (convert_unless_mode _ _ _ Hconv Hc) as [K | ->]; [exact K | reflexivity].
Qed.

Lemma pillow_saves_jpeg_from_rgb_or_l_witness :
  exists pil_image,
    str_in (PIL.mode pil_image) ["RGB"; "L"]%string = true
    /\ Image_save (Libs := Bench.pillow_only) pil_image "JPEG"
         (PIL.JpegKwargs 90 false false 2)
       = Ok [x01; x02].
Proof.
  refine (pillow_saves_jpeg_from_rgb_or_l (H := Bench.pillow_only) Sample.payload "png"
            (10, 10)%Z (10, 10)%Z false 90 true 0 4 8
            {| PIL.mode := "P"; PIL.alpha_lowest := PIL.ExtOther;
               PIL.info_transparency := None; PIL.raster := Sample.payload |}
            [x01; x02] _ _ _ _).
  - intros img img' E. injection E as <-. reflexivity.
  - reflexivity.
  - reflexivity.
  - reflexivity.
Defined.

(** ** The backends are never asked to enlarge *)

(** Whatever the ceiling and whatever the placement query does, a
    planned size is at least 1 and at most the original size on each
    axis, for original dimensions below 2^53. *)
Lemma planned_within_original (page : Page) (info : image_info) (ow oh : Z)
    (max_dpi : option Z) (tw th : Z) :
  (0 < ow < 2 ^ 53)%Z -> (0 < oh < 2 ^ 53)%Z ->
  compute_target_dimensions page info ow oh max_dpi = Ok (tw, th) ->
  (1 <= tw <= ow)%Z /\ (1 <= th <= oh)%Z.
Proof.
  intros How Hoh. unfold compute_target_dimensions.
  destruct max_dpi as [dpi |]; [| intros [= <- <-]; lia].
  destruct ((dpi =? 0)%Z || (dpi <=? 0)%Z); [intros [= <- <-]; lia |].
  destruct (get_image_bbox page info) as [candidate | e].
  2:{ destruct e; try discriminate; intros [= <- <-]; lia. }
  set (mw := max_px dpi (Rect.width (rect_of candidate))).
  set (mh := max_px dpi (Rect.height (rect_of candidate))).
  pose proof (max_px_pos dpi (Rect.width (rect_of candidate))) as Pw.
  pose proof (max_px_pos dpi (Rect.height (rect_of candidate))) as Ph.
  fold mw in Pw. fold mh in Ph.
  destruct ((ow <=? mw)%Z && (oh <=? mh)%Z) eqn:Fit; [intros [= <- <-]; lia |].
  assert (L : (mw < ow \/ mh < oh)%Z) by (apply andb_false_iff in Fit; lia).
  unfold Binary64.int_truediv.
  replace (ow =? 0)%Z with false by lia. replace (oh =? 0)%Z with false by lia.
  cbn [mbind result_bind]. fold (scale_factor mw mh ow oh).
  destruct (scale_factor_range mw mh ow oh) as [S0 S1]; try lia.
  intros [= <- <-]. split; apply scaled_px_bounds; assumption.
Qed.

(** X7: For an image of positive dimensions below 2^53 and the size planned
    for it, the pyvips backend, once the buffer is loaded, either writes
    without resizing, when the planned size is the original one, or
    resizes by two factors that are positive and at most 1. *)
Theorem pyvips_resizes_only_downwards `{Libs} (page : Page) (info : image_info)
    (max_dpi : option Z) (image_bytes : bytes) (image_ext : string)
    (original_width original_height target_width target_height : Z)
    (has_alpha : bool) (image_quality : Z) (convert_large_pngs_to_jpeg : bool)
    (png_to_jpeg_threshold original_size bpc : Z) :
  (0 < original_width < 2 ^ 53)%Z ->
  (0 < original_height < 2 ^ 53)%Z ->
  compute_target_dimensions page info original_width original_height max_dpi
  = Ok (target_width, target_height) ->
  vips_new_from_buffer image_bytes = Ok tt ->
  exists resize request,
    _optimize_image_with_pyvips image_bytes image_ext original_width original_height
      target_width target_height has_alpha image_quality convert_large_pngs_to_jpeg
      png_to_jpeg_threshold original_size bpc
    = vips_write_to_buffer image_bytes resize request
    /\ match resize with
       | None => target_width = original_width /\ target_height = original_height
       | Some (hscale, vscale) =>
           (target_width < original_width \/ target_height < original_height)%Z
           /\ (0 < hscale)%Q /\ (hscale <= 1)%Q /\ (0 < vscale)%Q /\ (vscale <= 1)%Q
       end.
Proof.
  intros How Hoh Hp Hv.
  destruct (planned_within_original page info _ _ max_dpi _ _ How Hoh Hp) as [Bw Bh].
  unfold _optimize_image_with_pyvips. rewrite Hv. cbn [mbind result_bind].
  destruct ((target_width =? original_width)%Z && (target_height =? original_height)%Z)
    eqn:Same; cbn [negb mbind result_bind].
  - apply andb_true_iff in Same as [Ew Eh]. apply Z.eqb_eq in Ew, Eh.
    destruct (String.eqb _ "jpeg" || String.eqb _ "jpg");
      [| destruct (String.eqb _ "png")]; eexists None, _; (split; [reflexivity | auto]).
  - assert (L : (target_width < original_width \/ target_height < original_height)%Z).
    { apply andb_false_iff in Same. lia. }
    unfold Binary64.int_truediv.
    replace (original_width =? 0)%Z with false by lia.
    replace (original_height =? 0)%Z with false by lia.
    cbn [mbind result_bind].
    assert (Sw : (0 < Binary64.round (inject_Z target_width / inject_Z original_width))%Q
                 /\ (Binary64.round (inject_Z target_width / inject_Z original_width) <= 1)%Q).
    { split; [apply Binary64Facts.quotient_pos | apply Binary64Facts.quotient_le_1]; lia. }
    assert (Sh : (0 < Binary64.round (inject_Z target_height / inject_Z original_height))%Q
                 /\ (Binary64.round (inject_Z target_height / inject_Z original_height) <= 1)%Q).
    { split; [apply Binary64Facts.quotient_pos | apply Binary64Facts.quotient_le_1]; lia. }
    destruct (String.eqb _ "jpeg" || String.eqb _ "jpg");
      [| destruct (String.eqb _ "png")]; eexists (Some (_, _)), _;
      (split; [reflexivity | tauto]).
Qed.

Lemma pyvips_resizes_only_downwards_witness :
  exists resize request,
    _optimize_image_with_pyvips (H := Sample.halving) Sample.payload "jpeg" 800 600 100 75
      false 90 true 200000 4 8
    = vips_write_to_buffer (Libs := Sample.halving) Sample.payload resize request
    /\ match resize with
       | None => 100%Z = 800%Z /\ 75%Z = 600%Z
       | Some (hscale, vscale) =>
           (100 < 800 \/ 75 < 600)%Z
           /\ (0 < hscale)%Q /\ (hscale <= 1)%Q /\ (0 < vscale)%Q /\ (vscale <= 1)%Q
       end.
Proof.
  refine (pyvips_resizes_only_downwards (H := Sample.halving) (Sample.page_placed [])
            Sample.info1 (Some 72%Z) Sample.payload "jpeg" 800 600 100 75
            false 90 true 200000 4 8 _ _ _ _).
  - lia.
  - lia.
  - vm_compute. reflexivity.
  - reflexivity.
Defined.

(** ** What the enumeration yields *)

Lemma unseen_images_members (page : Page) (listed : list image_info) :
  forall seen,
    (forall p i, (p, i) ∈ fst (unseen_images page listed seen) ->
       p = page /\ i ∈ listed)
    /\ (forall i, i ∈ listed ->
          xref i ∈ seen \/ xref i ∈ xrefs_of (fst (unseen_images page listed seen)))
    /\ (forall x, x ∈ snd (unseen_images page listed seen) ->
          x ∈ seen \/ x ∈ xrefs_of (fst (unseen_images page listed seen))).
Proof.
  induction listed as [| info rest IH]; intros seen; cbn [unseen_images].
  - split; [intros p i Hi; inversion Hi |].
    split; [intros i Hi; inversion Hi | intros x Hx; left; exact Hx].
  - destruct (decide (xref info ∈ seen)) as [In | Out].
    + destruct (IH seen) as (M & C & S). split; [| split].
      * intros p i Hi. destruct (M p i Hi) as [-> Hl]. split; [reflexivity |].
        apply elem_of_cons. right. exact Hl.
      * intros i Hi. apply elem_of_cons in Hi as [-> | Hi]; [left; exact In | apply C; exact Hi].
      * exact S.
    + specialize (IH ({[xref info]} ∪ seen)).
      destruct (unseen_images page rest ({[xref info]} ∪ seen)) as [more seen'].
      cbn [fst snd xrefs_of map] in *. destruct IH as (M & C & S).
      assert (Widen : forall x, x ∈ {[xref info]} ∪ seen \/ x ∈ xrefs_of more ->
                x ∈ seen \/ x ∈ xref info :: xrefs_of more).
      { intros x [Hx | Hx].
        - apply elem_of_union in Hx as [Hx | Hx].
          + apply elem_of_singleton in Hx. right. rewrite Hx. apply elem_of_cons. left.
            reflexivity.
          + left. exact Hx.
        - right. apply elem_of_cons. right. exact Hx. }
      split; [| split].
      * intros p i Hi. apply elem_of_cons in Hi as [E | Hi].
        -- injection E as -> ->. split; [reflexivity |]. apply elem_of_cons. left. reflexivity.
        -- destruct (M p i Hi) as [-> Hl]. split; [reflexivity |].
           apply elem_of_cons. right. exact Hl.
      * intros i Hi. apply elem_of_cons in Hi as [-> | Hi].
        -- right. apply elem_of_cons. left. reflexivity.
        -- apply Widen. apply C. exact Hi.
      * intros x Hx. apply Widen. apply S. exact Hx.
Qed.

Lemma iter_pages_members (pages : list Page) :
  forall seen,
    (forall p i, (p, i) ∈ fst (iter_pages pages seen) ->
       p ∈ pages /\ exists listed, get_images p = Ok listed /\ i ∈ listed)
    /\ match snd (iter_pages pages seen) with
       | None => forall p, p ∈ pages ->
           exists listed, get_images p = Ok listed
             /\ forall i, i ∈ listed ->
                  xref i ∈ seen \/ xref i ∈ xrefs_of (fst (iter_pages pages seen))
       | Some e => exists p, p ∈ pages /\ get_images p = Raise e
       end.
Proof.
  induction pages as [| page rest IH]; intros seen; cbn [iter_pages].
  - cbn. split; [intros p i Hi; inversion Hi | intros p Hp; inversion Hp].
  - destruct (get_images page) as [listed | e] eqn:Hl.
    2:{ cbn. split; [intros p i Hi; inversion Hi |].
        exists page. split; [apply elem_of_cons; left; reflexivity | exact Hl]. }
    destruct (unseen_images_members page listed seen) as (M1 & C1 & S1).
    destruct (unseen_images page listed seen) as [items seen1]. cbn [fst snd] in *.
    specialize (IH seen1). destruct (iter_pages rest seen1) as [more status].
    cbn [fst snd] in *. destruct IH as [M2 C2]. split.
    + intros p i Hi. apply elem_of_app in Hi as [Hi | Hi].
      * destruct (M1 p i Hi) as [-> Hin]. split; [apply elem_of_cons; left; reflexivity |].
        exists listed. split; [exact Hl | exact Hin].
      * destruct (M2 p i Hi) as [Hp Hin]. split; [apply elem_of_cons; right; exact Hp |].
        exact Hin.
    + destruct status as [e |].
      * destruct C2 as (p & Hp & Hr). exists p. split; [apply elem_of_cons; right; exact Hp |].
        exact Hr.
      * intros p Hp. rewrite xrefs_of_app. apply elem_of_cons in Hp as [-> | Hp].
        -- exists listed. split; [exact Hl |]. intros i Hi.
           destruct (C1 i Hi) as [S | Y]; [left; exact S |].
           right. apply elem_of_app. left. exact Y.
        -- destruct (C2 p Hp) as (listed' & Hl' & Hc). exists listed'. split; [exact Hl' |].
           intros i Hi. destruct (Hc i Hi) as [S | Y].
           ++ destruct (S1 _ S) as [In | Y]; [left; exact In |].
              right. apply elem_of_app. left. exact Y.
           ++ right. apply elem_of_app. right. exact Y.
Qed.

(** X8: [_iter_unique_images] yields every object id at most once, always
    together with a page of the document that lists it; and when it ends
    without raising, every page could be listed and every image listed on
    a page has been yielded.  When it raises, the exception is the one
    raised by the listing of a page of the document. *)
Theorem every_listed_image_is_yielded_once (opened : Document) :
  let yielded := fst (_iter_unique_images opened) in
  NoDup (xrefs_of yielded)
  /\ (forall page info, (page, info) ∈ yielded ->
        page ∈ pages opened
        /\ exists listed, get_images page = Ok listed /\ info ∈ listed)
  /\ match snd (_iter_unique_images opened) with
     | None => forall page, page ∈ pages opened ->
         exists listed, get_images page = Ok listed
           /\ forall info, info ∈ listed -> xref info ∈ xrefs_of yielded
     | Some e => exists page, page ∈ pages opened /\ get_images page = Raise e
     end.
Proof.
  intros yielded. unfold yielded, _iter_unique_images.
  split; [apply iter_pages_spec |].
  destruct (iter_pages_members (pages opened) ∅) as [M C]. split; [exact M |].
  destruct (snd (iter_pages (pages opened) ∅)) as [e |]; [exact C |].
  intros page Hp. destruct (C page Hp) as (listed & Hl & Hc).
  exists listed. split; [exact Hl |]. intros info Hi.
  destruct (Hc info Hi) as [S | Y]; [| exact Y].
  apply not_elem_of_empty in S. contradiction.
Qed.

(** ** Accepted bytes are fewer *)

(** Whatever the sizes, bytes that pass the gate are strictly fewer than
    the original bytes. *)
Lemma no_gain_false_lt (optimized_size original_size : Z) :
  (0 <= original_size)%Z ->
  no_gain optimized_size original_size = false ->
  (optimized_size < original_size)%Z.
Proof.
  intros Hn. unfold no_gain, Binary64.int_geb, Binary64.int_mul, Binary64.mul,
    Binary64.of_int.
  intros G.
  assert (L : (inject_Z optimized_size
               < Binary64.round (Binary64.round (inject_Z original_size) * Binary64.lit_0_98))%Q).
  { apply Qnot_le_lt. intros Le. apply Qle_bool_iff in Le. congruence. }
  clear G. rewrite lit_0_98_value in L.
  set (c := (2206763817411543 # 2251799813685248)%Q) in *.
  destruct (Z.eq_dec original_size 0%Z) as [-> | Nz].
  - change (Binary64.round (inject_Z 0)) with 0%Q in L.
    assert (E : (0 * c == 0)%Q) by ring.
    rewrite (Binary64Facts.round_proper _ _ E) in L.
    change (Binary64.round 0) with 0%Q in L.
    change 0%Q with (inject_Z 0) in L. rewrite <- Zlt_Qlt in L. exact L.
  - assert (Pn : (0 < inject_Z original_size)%Q) by (apply Binary64Facts.inject_Z_pos; lia).
    pose proof (round_upper _ Pn) as U1.
    pose proof (Binary64Facts.round_pos _ Pn) as P1.
    set (N := Binary64.round (inject_Z original_size)) in *.
    assert (P2 : (0 < N * c)%Q) by (unfold c; lra).
    pose proof (round_upper _ P2) as U2.
    change (2 ^ (-52))%Q with (1 # 4503599627370496)%Q in U1, U2.
    rewrite Zlt_Qlt. unfold c in *. lra.
Qed.

(** ** Sizes and replacements in a run *)

Lemma count_replace_at_le (x : Z) (evs : list event) :
  (count (is_replace_at x) evs <= count is_replace evs)%nat.
Proof.
  unfold count. induction evs as [| ev evs IH]; [reflexivity |].
  cbn [List.filter]. destruct ev as [b c | y s | y e]; cbn [is_replace_at is_replace].
  - exact IH.
  - destruct (bool_decide (y = x)); cbn [length]; lia.
  - exact IH.
Qed.

Lemma entry_sound_later `{Libs} (skip_small : bool) (small_threshold : Z)
    (stored : gmap Z base_image) (done : list Z) (x : Z) (d : bytes)
    (entry : ImageOptimizationResult) :
  entry_sound skip_small small_threshold stored done d entry ->
  entry_sound skip_small small_threshold stored (x :: done) d entry.
Proof.
  intros (y & base & Hy & Rest). exists y, base. split; [| exact Rest].
  apply elem_of_cons. right. exact Hy.
Qed.

Section SizeInvariant.
Context `{Libs}.
Variables (skip_small : bool) (small_threshold : Z) (opened : Document).

Local Abbreviation inv := (size_inv skip_small small_threshold opened).
Local Abbreviation sound := (entry_sound skip_small small_threshold (images opened)).

(** One iteration, described by what it leaves of the document, the
    cache, the trace and the counters. *)
Lemma size_inv_step (done : list Z) (totals totals2 : Z * Z * Z) (st st2 : State)
    (x : Z) (evs : list event) :
  inv done totals st -> x ∉ done ->
  pages (doc st2) = pages (doc st) ->
  (forall y, y <> x -> images (doc st2) !! y = images (doc st) !! y) ->
  (images (doc st2) !! x = images (doc st) !! x
   \/ exists base entry stream,
        images opened !! x = Some base
        /\ cache st2 !! sha1 (image base) = Some entry
        /\ optimized entry = true /\ data entry = Some stream
        /\ images (doc st2) !! x = Some (with_stream base stream)) ->
  (forall d e, cache st !! d = Some e -> cache st2 !! d = Some e) ->
  (forall d e, cache st2 !! d = Some e ->
     cache st !! d = Some e \/ sound (x :: done) d e) ->
  trace st2 = trace st ++ evs ->
  (forall y, y <> x -> count (is_replace_at y) evs = 0%nat) ->
  (count is_replace evs <= 1)%nat ->
  (fst (fst totals2) = fst (fst totals) + Z.of_nat (count is_replace evs)
   /\ snd totals <= snd totals2
   /\ (snd totals2 - snd totals) + Z.of_nat (count is_replace evs)
      <= snd (fst totals2) - snd (fst totals))%Z ->
  inv (x :: done) totals2 st2.
Proof.
  intros [Pg Ca Im Un Rp To] Fresh Hpages Hframe Hx Hkept Hnew Htr Hother Hone Htot.
  split.
  - rewrite Hpages. exact Pg.
  - intros d e Hd. destruct (Hnew d e Hd) as [Old | New]; [| exact New].
    apply entry_sound_later. apply Ca. exact Old.
  - intros y. destruct (decide (y = x)) as [-> | Ne].
    + destruct Hx as [Same | Changed]; [| right; exact Changed].
      left. rewrite Same. apply Un. exact Fresh.
    + rewrite (Hframe y Ne). destruct (Im y) as [Same | (base & entry & stream & A & B & C)].
      * left. exact Same.
      * right. exists base, entry, stream. split; [exact A |].
        split; [apply Hkept; exact B | exact C].
  - intros y Hy. apply not_elem_of_cons in Hy as [Ne Nd].
    rewrite (Hframe y Ne). apply Un. exact Nd.
  - intros y. rewrite Htr, count_app. destruct (Rp y) as [Le Zero].
    destruct (decide (y = x)) as [-> | Ne].
    + split.
      * rewrite (Zero Fresh). pose proof (count_replace_at_le x evs). lia.
      * intros Hy. exfalso. apply Hy. apply elem_of_cons. left. reflexivity.
    + rewrite (Hother y Ne). split; [lia |].
      intros Hy. apply not_elem_of_cons in Hy as [_ Nd]. rewrite (Zero Nd). reflexivity.
  - rewrite Htr, count_app. cbn [length]. lia.
Qed.

Lemma count_replace_at_other (x y : Z) (evs : list event) (stream : bytes) :
  y <> x -> count is_replace evs = 0%nat ->
  count (is_replace_at y) (evs ++ [EvReplace x stream]) = 0%nat.
Proof.
  intros Ne Z0. rewrite count_app.
  pose proof (count_replace_at_le y evs) as Le.
  unfold count at 2. cbn [List.filter is_replace_at].
  rewrite bool_decide_eq_false_2 by congruence. cbn [length]. lia.
Qed.

Lemma count_replace_at_none (y : Z) (evs : list event) :
  count is_replace evs = 0%nat -> count (is_replace_at y) evs = 0%nat.
Proof. intros Z0. pose proof (count_replace_at_le y evs). lia. Qed.

Lemma add_events_nil (st : State) : add_events st [] = st.
Proof. unfold add_events. rewrite app_nil_r. destruct st; reflexivity. Qed.

(** An iteration that changes neither the document nor the cache and
    replaces nothing. *)
Lemma size_inv_idle (done : list Z) (totals : Z * Z * Z) (st : State) (x : Z)
    (evs : list event) :
  inv done totals st -> x ∉ done -> count is_replace evs = 0%nat ->
  inv (x :: done) totals (add_events st evs).
Proof.
  intros Inv Fresh Z0.
  apply (size_inv_step done totals totals st (add_events st evs) x evs Inv Fresh);
    unfold add_events; cbn [doc cache trace].
  - reflexivity.
  - reflexivity.
  - left. reflexivity.
  - tauto.
  - intros d e Hd. left. exact Hd.
  - reflexivity.
  - intros y _. apply count_replace_at_none. exact Z0.
  - lia.
  - rewrite Z0. lia.
Qed.

(** An iteration that only records a non-optimized entry. *)
Lemma size_inv_recorded (done : list Z) (totals : Z * Z * Z) (st : State) (x : Z)
    (base : base_image) (evs : list event) :
  inv done totals st -> x ∉ done -> count is_replace evs = 0%nat ->
  images (doc st) !! x = Some base ->
  cache st !! sha1 (image base) = None ->
  inv (x :: done) totals
    (add_entry (add_events st evs) (sha1 (image base)) (not_optimized (len (image base)))).
Proof.
  intros Inv Fresh Z0 Hx Hc.
  assert (Hs : images opened !! x = Some base).
  { rewrite <- (si_untouched _ _ _ _ _ _ Inv x Fresh). exact Hx. }
  apply (size_inv_step done totals totals st _ x evs Inv Fresh);
    unfold add_entry, add_events; cbn [doc cache trace].
  - reflexivity.
  - reflexivity.
  - left. reflexivity.
  - intros d e Hd. rewrite lookup_insert_ne; [exact Hd | congruence].
  - intros d e Hd. destruct (decide (sha1 (image base) = d)) as [<- | Ne].
    + rewrite lookup_insert_eq in Hd. injection Hd as <-. right.
      exists x, base. split; [apply elem_of_cons; left; reflexivity |].
      split; [exact Hs |]. split; [reflexivity |]. split; [reflexivity |]. discriminate.
    + rewrite lookup_insert_ne in Hd by exact Ne. left. exact Hd.
  - reflexivity.
  - intros y _. apply count_replace_at_none. exact Z0.
  - lia.
  - rewrite Z0. lia.
Qed.

(** The gate, entered after the encoding attempts [evs]. *)
Lemma size_inv_gate (done : list Z) (totals : Z * Z * Z) (st : State) (x : Z)
    (base : base_image) (ob : bytes) (evs : list event) :
  inv done totals st -> x ∉ done -> count is_replace evs = 0%nat ->
  images (doc st) !! x = Some base ->
  cache st !! sha1 (image base) = None ->
  skipped skip_small small_threshold base = false ->
  let out := gate_outcome x (sha1 (image base)) base ob (add_events st evs) in
  match fst out with
  | Ok (o, a, b) => inv (x :: done) (counted totals o a b) (snd out)
  | Raise _ => False
  end.
Proof.
  intros Inv Fresh Z0 Hx Hc Hs out. unfold out, gate_outcome.
  destruct (no_gain (len ob) (len (image base))) eqn:G; cbn [fst snd counted].
  - apply size_inv_recorded; assumption.
  - assert (Hst : images opened !! x = Some base).
    { rewrite <- (si_untouched _ _ _ _ _ _ Inv x Fresh). exact Hx. }
    assert (Lt : (len ob < len (image base))%Z).
    { apply no_gain_false_lt; [unfold len; lia | exact G]. }
    apply (size_inv_step done totals _ st _ x (evs ++ [EvReplace x ob]) Inv Fresh);
      unfold add_entry, add_events, put_stream; cbn [doc cache trace pages images fst snd].
    + reflexivity.
    + intros y Ne. rewrite lookup_insert_ne; [reflexivity | congruence].
    + right. exists base, (accepted (len (image base)) ob), ob.
      split; [exact Hst |]. rewrite !lookup_insert_eq. auto.
    + intros d e Hd. rewrite lookup_insert_ne; [exact Hd | congruence].
    + intros d e Hd. destruct (decide (sha1 (image base) = d)) as [<- | Ne].
      * rewrite lookup_insert_eq in Hd. injection Hd as <-. right.
        exists x, base. split; [apply elem_of_cons; left; reflexivity |].
        split; [exact Hst |]. split; [reflexivity |]. split; [reflexivity |].
        intros _. split; [exact Hs |]. exists ob. auto.
      * rewrite lookup_insert_ne in Hd by exact Ne. left. exact Hd.
    + rewrite app_assoc. reflexivity.
    + intros y Ne. apply count_replace_at_other; assumption.
    + rewrite count_app, Z0. cbn. lia.
    + rewrite count_app, Z0. change (count is_replace [EvReplace x ob]) with 1%nat.
      unfold len in *. lia.
Qed.

Variables (page : Page) (info : image_info) (quality : Z) (max_dpi : option Z).
Variables (convert : bool) (png_threshold : Z) (plan : planner).

(** One call of [optimize_image] followed by what the loop does with its
    result. *)
Lemma size_inv_call (done : list Z) (totals : Z * Z * Z) (st : State) :
  inv done totals st -> xref info ∉ done ->
  let out := optimize_image page info quality max_dpi skip_small small_threshold
               convert png_threshold plan st in
  match fst out with
  | Ok (o, a, b) => inv (xref info :: done) (counted totals o a b) (snd out)
  | Raise e => inv (xref info :: done) totals (add_events (snd out) [EvCaught (xref info) e])
  end.
Proof.
  intros Inv Fresh out. unfold out. clear out.
  assert (Idle : forall e, inv (xref info :: done) totals
                             (add_events st [EvCaught (xref info) e])).
  { intros e. apply size_inv_idle; [exact Inv | exact Fresh | reflexivity]. }
  destruct (images (doc st) !! xref info) as [base |] eqn:Hx.
  2:{ rewrite optimize_image_no_image by exact Hx. cbn [fst snd]. apply Idle. }
  assert (Hst : images opened !! xref info = Some base).
  { rewrite <- (si_untouched _ _ _ _ _ _ Inv _ Fresh). exact Hx. }
  destruct (cache st !! sha1 (image base)) as [entry |] eqn:Hc.
  { rewrite (optimize_image_hit _ _ _ _ _ _ _ _ _ st base entry Hx Hc).
    pose proof (size_inv_idle done totals st (xref info) [] Inv Fresh eq_refl) as Same.
    rewrite add_events_nil in Same.
    destruct (optimized entry) eqn:Ho; [destruct (data entry) as [s |] eqn:Hd |].
    - rewrite (replay_cached_accepted info st base entry s Hx Ho Hd). cbn [fst snd counted].
      destruct (si_cache _ _ _ _ _ _ Inv _ _ Hc) as (x0 & base0 & _ & _ & _ & Hsz & Hacc).
      destruct (Hacc Ho) as (_ & s' & Hd' & Hlen & G).
      rewrite Hd in Hd'. injection Hd' as <-.
      assert (Lt : (len s < len (image base0))%Z).
      { apply no_gain_false_lt; [unfold len; lia | exact G]. }
      apply (size_inv_step done totals _ st _ (xref info) [EvReplace (xref info) s]
               Inv Fresh);
        unfold add_events, put_stream; cbn [doc cache trace pages images fst snd].
      + reflexivity.
      + intros y Ne. rewrite lookup_insert_ne; [reflexivity | congruence].
      + right. exists base, entry, s. split; [exact Hst |]. split; [exact Hc |].
        rewrite lookup_insert_eq. auto.
      + tauto.
      + intros d e Hde. left. exact Hde.
      + reflexivity.
      + intros y Ne. apply (count_replace_at_other (xref info) y [] s Ne). reflexivity.
      + cbn. lia.
      + change (count is_replace [EvReplace (xref info) s]) with 1%nat.
        rewrite Hsz, Hlen. unfold len in *. lia.
    - rewrite (replay_cached_not_accepted info st entry) by (right; exact Hd).
      cbn [fst snd counted]. exact Same.
    - rewrite (replay_cached_not_accepted info st entry) by (left; exact Ho).
      cbn [fst snd counted]. exact Same. }
  destruct (skipped skip_small small_threshold base) eqn:Hs.
  { rewrite (optimize_image_skipped _ _ _ _ _ _ _ _ _ st base Hx Hc Hs).
    cbn [fst snd counted].
    pose proof (size_inv_recorded done totals st (xref info) base [] Inv Fresh eq_refl Hx Hc)
      as Rec.
    rewrite add_events_nil in Rec. exact Rec. }
  destruct (plan page info (width base) (height base) max_dpi) as [target | e] eqn:Hp.
  2:{ rewrite (optimize_image_plan_raises _ _ _ _ _ _ _ _ _ st base e Hx Hc Hs Hp).
      cbn [fst snd]. apply Idle. }
  rewrite (optimize_image_encoding _ _ _ _ _ _ _ _ _ st base target Hx Hc Hs Hp).
  cbv zeta.
  destruct (pyvips_encode _ _ _ _ _ _ _ _ _ _) as [ob | e1].
  { pose proof (size_inv_gate done totals st (xref info) base ob
                  [EvEncode Pyvips (image base)] Inv Fresh eq_refl Hx Hc Hs) as G.
    cbv zeta in G.
    destruct (fst (gate_outcome _ _ _ _ _)) as [[[o a] b] | e]; [exact G | contradiction]. }
  assert (E2 : add_events (add_events st [EvEncode Pyvips (image base)])
                 [EvEncode Pillow (image base)]
               = add_events st [EvEncode Pyvips (image base); EvEncode Pillow (image base)]).
  { unfold add_events. cbn [doc cache trace]. rewrite <- app_assoc. reflexivity. }
  rewrite E2.
  destruct (pil_encode _ _ _ _ _ _ _ _ _ _) as [ob | e2].
  - pose proof (size_inv_gate done totals st (xref info) base ob
                  [EvEncode Pyvips (image base); EvEncode Pillow (image base)]
                  Inv Fresh eq_refl Hx Hc Hs) as G.
    cbv zeta in G.
    destruct (fst (gate_outcome _ _ _ _ _)) as [[[o a] b] | e]; [exact G | contradiction].
  - cbn [fst snd].
    assert (E3 : add_events
                   (add_events st [EvEncode Pyvips (image base); EvEncode Pillow (image base)])
                   [EvCaught (xref info) e2]
                 = add_events st [EvEncode Pyvips (image base); EvEncode Pillow (image base);
                                  EvCaught (xref info) e2]).
    { unfold add_events. cbn [doc cache trace]. rewrite <- app_assoc. reflexivity. }
    rewrite E3. apply size_inv_idle; [exact Inv | exact Fresh | reflexivity].
Qed.

End SizeInvariant.

Section SizeRun.
Context `{Libs}.
Variables (image_quality : Z) (max_dpi : option Z).
Variables (skip_small : bool) (small_threshold : Z) (convert : bool) (png_threshold : Z).
Variable opened : Document.

Local Abbreviation inv := (size_inv skip_small small_threshold opened).

Lemma size_inv_loop (quality : Z) (items : list (Page * image_info)) :
  forall done totals st,
    NoDup (xrefs_of items) -> (forall x, x ∈ xrefs_of items -> x ∉ done) ->
    inv done totals st ->
    exists totals' st',
      compress_loop items quality max_dpi skip_small small_threshold convert
        png_threshold totals st = (Ok totals', st')
      /\ inv (rev (xrefs_of items) ++ done) totals' st'.
Proof.
  induction items as [| [page info] rest IH]; intros done totals st ND Fresh Inv.
  - exists totals, st. split; [reflexivity | exact Inv].
  - cbn [xrefs_of map rev snd] in *. rewrite <- app_assoc. cbn [app].
    apply NoDup_cons in ND as [Hnot ND].
    assert (F0 : xref info ∉ done) by (apply Fresh; apply elem_of_cons; left; reflexivity).
    assert (F1 : forall x, x ∈ xrefs_of rest -> x ∉ xref info :: done).
    { intros x Hx. apply not_elem_of_cons. split.
      - intros ->. contradiction.
      - apply Fresh. apply elem_of_cons. right. exact Hx. }
    pose proof (size_inv_call skip_small small_threshold opened page info quality max_dpi
                  convert png_threshold compute_target_dimensions done totals st Inv F0) as Step.
    cbv zeta in Step. cbn [compress_loop].
    destruct (optimize_image page info quality max_dpi skip_small small_threshold
                convert png_threshold compute_target_dimensions st) as [[[[o a] b] | e] st'];
      cbn [fst snd] in Step.
    + destruct totals as [[k t1] t2]. destruct o; cbn [counted fst snd] in Step.
      * exact (IH _ _ _ ND F1 Step).
      * exact (IH _ _ _ ND F1 Step).
    + exact (IH _ _ _ ND F1 Step).
Qed.

Lemma size_inv_initial : inv [] (0, 0, 0)%Z (initial opened).
Proof.
  split; cbn.
  - reflexivity.
  - intros d e. rewrite lookup_empty. discriminate.
  - intros x. left. reflexivity.
  - reflexivity.
  - intros x. split; [lia | reflexivity].
  - lia.
Qed.

Local Abbreviation run :=
  (_compress_document image_quality max_dpi skip_small small_threshold convert
     png_threshold (initial opened)).

Lemma size_inv_run :
  exists totals,
    fst run = match snd (_iter_unique_images opened) with
              | None => Ok totals
              | Some e => Raise e
              end
    /\ inv (rev (xrefs_of (fst (_iter_unique_images opened)))) totals (snd run).
Proof.
  pose proof (iter_pages_spec (pages opened) ∅) as [ND _].
  fold (_iter_unique_images opened) in ND.
  unfold _compress_document, initial. cbn [doc trace].
  destruct (_iter_unique_images opened) as [items status]. cbn [fst snd] in *.
  destruct (size_inv_loop (Z.max 1 (Z.min image_quality 100)) items [] (0, 0, 0)%Z
              (initial opened) ND) as (totals & st' & Hloop & Inv).
  - intros x _ Hx. inversion Hx.
  - apply size_inv_initial.
  - unfold initial in Hloop. rewrite Hloop.
    rewrite app_nil_r in Inv. exists totals. destruct status; cbn [fst snd]; auto.
Qed.

End SizeRun.

Lemma not_elem_of_rev_list (x : Z) (l : list Z) : x ∉ l -> x ∉ rev l.
Proof.
  intros Hn Hx. apply Hn. apply list_elem_of_In. apply in_rev. apply list_elem_of_In. exact Hx.
Qed.

(** X9: The three counters returned by [_compress_document]: the first
    one is the number of replacements made in the run, no counter is
    negative, and the bytes counted as optimized are fewer than the
    bytes counted as original by at least one byte per replacement. *)
Theorem counters_account_for_the_replacements `{Libs} (image_quality : Z)
    (max_dpi : option Z) (skip_small : bool) (small_threshold : Z) (convert : bool)
    (png_threshold : Z) (opened : Document)
    (images_replaced total_original total_optimized : Z) :
  let run := _compress_document image_quality max_dpi skip_small small_threshold
               convert png_threshold (initial opened) in
  fst run = Ok (images_replaced, total_original, total_optimized) ->
  images_replaced = Z.of_nat (count is_replace (trace (snd run)))
  /\ (0 <= images_replaced)%Z
  /\ (0 <= total_optimized)%Z
  /\ (total_optimized + images_replaced <= total_original)%Z.
Proof.
  intros run. unfold run.
  destruct (size_inv_run image_quality max_dpi skip_small small_threshold convert
              png_threshold opened) as ([[k t1] t2] & Hr & Inv).
  intros Hok. rewrite Hok in Hr.
  destruct (snd (_iter_unique_images opened)); [discriminate |].
  injection Hr as -> -> ->.
  destruct (si_totals _ _ _ _ _ _ Inv) as (A & B & C & D). cbn [fst snd] in A, B, C, D.
  split; [exact A |]. split; [lia |]. split; [exact C | exact D].
Qed.

Lemma counters_account_for_the_replacements_witness :
  2%Z = Z.of_nat
          (count is_replace
             (trace (snd (_compress_document (H := Sample.halving) 90 (Some 250%Z) false 0
                            true 200000 (initial Sample.twins)))))
  /\ (0 <= 2)%Z /\ (0 <= 4)%Z /\ (4 + 2 <= 8)%Z.
Proof.
  refine (counters_account_for_the_replacements (H := Sample.halving) 90 (Some 250%Z)
            false 0 true 200000 Sample.twins 2 8 4 _).
  vm_compute. reflexivity.
Defined.

(** X10: In a run, the stream of an object is replaced at most once. *)
Theorem each_object_is_replaced_at_most_once `{Libs} (image_quality : Z)
    (max_dpi : option Z) (skip_small : bool) (small_threshold : Z) (convert : bool)
    (png_threshold : Z) (opened : Document) (x : Z) :
  let fin := snd (_compress_document image_quality max_dpi skip_small small_threshold
                    convert png_threshold (initial opened)) in
  (count (is_replace_at x) (trace fin) <= 1)%nat.
Proof.
  intros fin. unfold fin.
  destruct (size_inv_run image_quality max_dpi skip_small small_threshold convert
              png_threshold opened) as (totals & _ & Inv).
  exact (proj1 (si_replaced _ _ _ _ _ _ Inv x)).
Qed.



(** X12: With [skip_small_images] set, a run on a document whose stored
    payloads do not collide under the digest leaves every image of at
    most [small_image_threshold] bytes exactly as it is stored. *)
Theorem small_images_are_left_as_stored `{Libs} (image_quality : Z)
    (max_dpi : option Z) (small_threshold : Z) (convert : bool)
    (png_threshold : Z) (opened : Document) :
  collision_free (images opened) ->
  let fin := snd (_compress_document image_quality max_dpi true small_threshold
                    convert png_threshold (initial opened)) in
  forall x base,
    images opened !! x = Some base ->
    (len (image base) <= small_threshold)%Z ->
    images (doc fin) !! x = Some base.
Proof.
  intros Free fin x base Hs Small. unfold fin.
  destruct (size_inv_run image_quality max_dpi true small_threshold convert
              png_threshold opened) as (totals & _ & Inv).
  destruct (si_images _ _ _ _ _ _ Inv x)
    as [Same | (base' & entry & stream & Hs' & Hc & Ho & Hd & Hi)].
  { rewrite Same. exact Hs. }
  exfalso. rewrite Hs in Hs'. injection Hs' as <-.
  destruct (si_cache _ _ _ _ _ _ Inv _ _ Hc) as (x0 & base0 & _ & Hs0 & Hdig & _ & Hacc).
  destruct (Hacc Ho) as (Hsk & _).
  pose proof (Free x0 x base0 base Hs0 Hs Hdig) as Eq.
  unfold skipped in Hsk. rewrite Eq in Hsk.
  replace (len (image base) <=? small_threshold)%Z with true in Hsk by lia.
  cbn in Hsk. discriminate.
Qed.

Lemma small_images_are_left_as_stored_witness :
  images (doc (snd (_compress_document (H := Sample.halving) 90 (Some 250%Z) true 4 true
                      200000 (initial Sample.twins)))) !! 1%Z
  = Some (Sample.jpeg 8).
Proof.
  refine (small_images_are_left_as_stored (H := Sample.halving) 90 (Some 250%Z) 4 true
            200000 Sample.twins _ 1%Z (Sample.jpeg 8) _ _).
  - intros x y bx by' _ _ E. exact E.
  - vm_compute. reflexivity.
  - vm_compute. discriminate.
Defined.

(** ** The default output path of [compress_pdf_file] *)

Lemma rsplit_dot_app (s before after : string) :
  rsplit_dot s = Some (before, after) -> (before ++ after)%string = s.
Proof.
  revert before after. induction s as [| c rest IH]; intros before after; cbn [rsplit_dot].
  - discriminate.
  - destruct (rsplit_dot rest) as [[b a] |].
    + intros [= Hb Ha]. subst before after. rewrite <- (IH b a eq_refl). reflexivity.
    + destruct (Ascii.eqb c dot); [| discriminate]. intros [= Hb Ha].
      subst before after. reflexivity.
Qed.

Lemma string_app_nil (s : string) : (s ++ "")%string = s.
Proof.
  induction s as [| c r IH]; [reflexivity |].
  change (String c (r ++ "")%string = String c r). rewrite IH. reflexivity.
Qed.

(** The stem followed by the suffix is the name. *)
Lemma stem_suffix (s : string) : (stem s ++ suffix s)%string = s.
Proof.
  unfold stem, suffix. destruct (rsplit_dot s) as [[b a] |] eqn:E.
  - destruct (splits b a).
    + apply rsplit_dot_app. exact E.
    + apply string_app_nil.
  - apply string_app_nil.
Qed.

Lemma string_length_app (a b : string) :
  String.length (a ++ b) = (String.length a + String.length b)%nat.
Proof.
  induction a as [| c a IH]; [reflexivity |].
  change (S (String.length (a ++ b)) = S (String.length a + String.length b)).
  rewrite IH. reflexivity.
Qed.

Lemma rsplit_dot_tail (before after : string) :
  rsplit_dot (before ++ after) = Some (before, after) ->
  rsplit_dot after = Some (EmptyString, after).
Proof.
  induction before as [| c b IH]; [intros E; exact E |].
  change (String c b ++ after)%string with (String c (b ++ after)%string).
  cbn [rsplit_dot].
  destruct (rsplit_dot (b ++ after)) as [[b' a'] |] eqn:E.
  - intros [= Hb Ha]. subst b' a'. apply IH. reflexivity.
  - destruct (Ascii.eqb c dot); discriminate.
Qed.

Lemma rsplit_dot_head (front s before after : string) :
  rsplit_dot s = Some (before, after) ->
  rsplit_dot (front ++ s) = Some ((front ++ before)%string, after).
Proof.
  intros E. induction front as [| c f IH]; [exact E |].
  change (String c f ++ s)%string with (String c (f ++ s)%string).
  cbn [rsplit_dot]. rewrite IH. reflexivity.
Qed.

Lemma string_app_assoc (a b c : string) : ((a ++ b) ++ c)%string = (a ++ (b ++ c))%string.
Proof.
  induction a as [| x a IH]; [reflexivity |].
  change (String x ((a ++ b) ++ c)%string = String x (a ++ (b ++ c))%string).
  rewrite IH. reflexivity.
Qed.

(** X13: The name that [compress_pdf_file] gives its output when no output
    path is passed: the file is a sibling of the input, its path is
    never the path of the input, and a suffix of the input name is kept
    while [_compressed] is appended to its stem. *)
Theorem default_output_is_a_sibling_of_the_input (input_path : PurePath) :
  parent (default_output input_path) = parent input_path
  /\ name (default_output input_path)
     = (stem (name input_path) ++ "_compressed" ++ suffix (name input_path))%string
  /\ default_output input_path <> input_path
  /\ (suffix (name input_path) <> ""%string ->
      suffix (name (default_output input_path)) = suffix (name input_path)
      /\ stem (name (default_output input_path))
         = (stem (name input_path) ++ "_compressed")%string).
Proof.
  set (child := (stem (name input_path) ++ "_compressed" ++ suffix (name input_path))%string).
  assert (Hname : name (default_output input_path) = child).
  { unfold default_output, name at 1, joinpath. cbn [names]. apply last_last. }
  split; [| split; [exact Hname | split]].
  - unfold default_output, parent, joinpath. cbn [anchor names].
    rewrite removelast_last. reflexivity.
  - intros E. assert (L : String.length (name (default_output input_path))
                          = String.length (name input_path)) by (rewrite E; reflexivity).
    rewrite Hname in L. unfold child in L.
    rewrite <- (stem_suffix (name input_path)) in L at 3.
    rewrite !string_length_app in L. cbn in L. lia.
  - intros Hs. rewrite Hname. unfold child.
    unfold suffix, stem in Hs |- *.
    destruct (rsplit_dot (name input_path)) as [[b a] |] eqn:E; [| contradiction].
    destruct (splits b a) eqn:S; [| contradiction].
    pose proof (rsplit_dot_app _ _ _ E) as App. rewrite <- App in E.
    apply rsplit_dot_tail in E.
    rewrite <- string_app_assoc.
    rewrite (rsplit_dot_head (b ++ "_compressed") a EmptyString a E).
    rewrite string_app_nil.
    assert (S' : splits (b ++ "_compressed") a = true).
    { unfold splits in *. apply andb_true_iff in S as [S1 S2]. rewrite S2.
      destruct b; [discriminate | reflexivity]. }
    rewrite S'. split; reflexivity.
Qed.

Example default_output_of_a_report :
  default_output {| anchor := "/"; names := ["home"; "reports"; "q3.final.pdf"]%string |}
  = {| anchor := "/"; names := ["home"; "reports"; "q3.final_compressed.pdf"]%string |}.
Proof. reflexivity. Qed.

(** ** The path validator *)

Section PathValidatorFacts.
Context `{Os}.

Lemma check_system_paths_none (folder : PurePath) (system_paths : list PurePath) :
  check_system_paths folder system_paths = Ok None ->
  forall s r, s ∈ system_paths -> resolve s = Ok r ->
    same_path folder r = false /\ among_parents r folder = false.
Proof.
  induction system_paths as [| p rest IH]; intros Hc s r Hs Hr; [inversion Hs |].
  cbn [check_system_paths] in Hc.
  apply elem_of_cons in Hs as [-> | Hs].
  - rewrite Hr in Hc.
    destruct (same_path folder r || among_parents r folder) eqn:E; [discriminate |].
    apply orb_false_iff in E. exact E.
  - apply IH with (s := s); try assumption.
    destruct (resolve p) as [q | e].
    + destruct (same_path folder q || among_parents q folder); [discriminate | exact Hc].
    + destruct e; try discriminate; exact Hc.
Qed.

Lemma check_system_paths_some (folder : PurePath) (system_paths : list PurePath)
    (message : string) :
  check_system_paths folder system_paths = Ok (Some message) ->
  exists s r, s ∈ system_paths /\ resolve s = Ok r
    /\ same_path folder r || among_parents r folder = true
    /\ message = system_message r.
Proof.
  induction system_paths as [| p rest IH]; intros Hc; [discriminate |].
  cbn [check_system_paths] in Hc.
  assert (Later : check_system_paths folder rest = Ok (Some message) ->
            exists s r, s ∈ p :: rest /\ resolve s = Ok r
              /\ same_path folder r || among_parents r folder = true
              /\ message = system_message r).
  { intros Hrest. destruct (IH Hrest) as (s & r & Hs & Rest).
    exists s, r. split; [apply elem_of_cons; right; exact Hs | exact Rest]. }
  destruct (resolve p) as [q | e] eqn:Hr.
  - destruct (same_path folder q || among_parents q folder) eqn:E; [| exact (Later Hc)].
    injection Hc as <-. exists p, q.
    split; [apply elem_of_cons; left; reflexivity |]. auto.
  - destruct e; try discriminate; exact (Later Hc).
Qed.

Lemma check_root_only_paths_none (folder : PurePath) (root_only_paths : list PurePath) :
  check_root_only_paths folder root_only_paths = Ok None ->
  forall s r, s ∈ root_only_paths -> resolve s = Ok r -> same_path folder r = false.
Proof.
  induction root_only_paths as [| p rest IH]; intros Hc s r Hs Hr; [inversion Hs |].
  cbn [check_root_only_paths] in Hc.
  apply elem_of_cons in Hs as [-> | Hs].
  - rewrite Hr in Hc. destruct (same_path folder r); [discriminate | reflexivity].
  - apply IH with (s := s); try assumption.
    destruct (resolve p) as [q | e].
    + destruct (same_path folder q); [discriminate | exact Hc].
    + destruct e; try discriminate; exact Hc.
Qed.

Lemma check_root_only_paths_some (folder : PurePath) (root_only_paths : list PurePath)
    (message : string) :
  check_root_only_paths folder root_only_paths = Ok (Some message) ->
  exists s r, s ∈ root_only_paths /\ resolve s = Ok r
    /\ same_path folder r = true /\ message = root_only_message r.
Proof.
  induction root_only_paths as [| p rest IH]; intros Hc; [discriminate |].
  cbn [check_root_only_paths] in Hc.
  assert (Later : check_root_only_paths folder rest = Ok (Some message) ->
            exists s r, s ∈ p :: rest /\ resolve s = Ok r
              /\ same_path folder r = true /\ message = root_only_message r).
  { intros Hrest. destruct (IH Hrest) as (s & r & Hs & Rest).
    exists s, r. split; [apply elem_of_cons; right; exact Hs | exact Rest]. }
  destruct (resolve p) as [q | e] eqn:Hr.
  - destruct (same_path folder q) eqn:E; [| exact (Later Hc)].
    injection Hc as <-. exists p, q.
    split; [apply elem_of_cons; left; reflexivity |]. auto.
  - destruct e; try discriminate; exact (Later Hc).
Qed.

(** What a verdict of not restricted rests on. *)
Lemma allowed_outside (folder : PurePath) (message : string) :
  is_path_restricted folder = Ok (false, message) ->
  message = ""%string
  /\ exists resolved system_paths root_only_paths,
       resolve folder = Ok resolved
       /\ restricted_lists = Ok (system_paths, root_only_paths)
       /\ (1 < length (parts resolved))%nat
       /\ (forall s r, s ∈ system_paths -> resolve s = Ok r ->
             same_path resolved r = false /\ among_parents r resolved = false)
       /\ (forall s r, s ∈ root_only_paths -> resolve s = Ok r ->
             same_path resolved r = false).
Proof.
  unfold is_path_restricted.
  destruct (resolve folder) as [resolved | e]; [| discriminate]. cbn [mbind result_bind].
  destruct restricted_lists as [[sys ro] | e]; [| discriminate]. cbn [mbind result_bind].
  destruct (check_system_paths resolved sys) as [[m |] | e] eqn:Hs; try discriminate.
  cbn [mbind result_bind].
  destruct (length (parts resolved) <=? 1)%nat eqn:Hl; [discriminate |].
  destruct (check_root_only_paths resolved ro) as [[m |] | e] eqn:Hr; try discriminate.
  cbn [mbind result_bind]. intros [= <-]. split; [reflexivity |].
  exists resolved, sys, ro. split; [reflexivity |]. split; [reflexivity |].
  split; [apply Nat.leb_gt; exact Hl |].
  split; [exact (check_system_paths_none resolved sys Hs) |].
  exact (check_root_only_paths_none resolved ro Hr).
Qed.

(** The entries that the two lists have on every machine. *)
Lemma restricted_lists_members (home_dir : PurePath)
    (system_paths root_only_paths : list PurePath) :
  restricted_lists = Ok (system_paths, root_only_paths) -> home = Ok home_dir ->
  (forall d,
     d ∈ (if windows
          then [on_drive_c "Windows"; on_drive_c "Program Files";
                on_drive_c "Program Files (x86)"; on_drive_c "ProgramData";
                on_drive_c "$Recycle.Bin"; joinpath home_dir "AppData"]
          else [under_root "etc"; under_root "bin"; under_root "sbin"; under_root "usr";
                under_root "var"; under_root "System"; under_root "Library";
                under_root "private"]) ->
     d ∈ system_paths)
  /\ (forall d,
        d ∈ [home_dir; joinpath home_dir "Desktop"; joinpath home_dir "Documents";
             joinpath home_dir "Downloads"; joinpath home_dir "Pictures";
             joinpath home_dir "Music";
             joinpath home_dir (if windows then "Videos" else "Movies")] ->
        d ∈ root_only_paths).
Proof.
  unfold restricted_lists. intros Hl Hh. rewrite Hh in Hl.
  destruct windows; cbn [mbind result_bind] in Hl.
  - destruct (existing _) as [personal | e]; [| discriminate]. cbn [mbind result_bind] in Hl.
    destruct (company_onedrives home_dir) as [found | e]; [| discriminate].
    cbn [mbind result_bind] in Hl. injection Hl as <- <-.
    split; [intros d Hd; exact Hd |].
    intros d Hd. rewrite !elem_of_cons in Hd. rewrite elem_of_nil in Hd.
    rewrite !elem_of_cons. tauto.
  - injection Hl as <- <-. split; intros d Hd; exact Hd.
Qed.

End PathValidatorFacts.

(** X15: A folder that [is_path_restricted] lets pass comes with the empty
    message and resolves to a path of at least two parts that is neither
    one of the system paths nor below one of them, and is none of the
    root-only paths, each taken as it resolves. *)
Theorem allowed_folders_are_outside_the_restricted_paths `{Os} (folder : PurePath)
    (message : string) :
  is_path_restricted folder = Ok (false, message) ->
  message = ""%string
  /\ exists resolved system_paths root_only_paths,
       resolve folder = Ok resolved
       /\ restricted_lists = Ok (system_paths, root_only_paths)
       /\ (1 < length (parts resolved))%nat
       /\ (forall s r, s ∈ system_paths -> resolve s = Ok r ->
             same_path resolved r = false /\ among_parents r resolved = false)
       /\ (forall s r, s ∈ root_only_paths -> resolve s = Ok r ->
             same_path resolved r = false).
Proof. exact (allowed_outside folder message). Qed.

Lemma allowed_folders_are_outside_the_restricted_paths_witness :
  exists resolved system_paths root_only_paths,
    resolve (Os := Bench.desk)
      {| anchor := "/"; names := ["home"; "ada"; "Downloads"; "MyProject"]%string |}
    = Ok resolved
    /\ restricted_lists (H := Bench.desk) = Ok (system_paths, root_only_paths)
    /\ (1 < length (parts resolved))%nat
    /\ (forall s r, s ∈ system_paths -> resolve (Os := Bench.desk) s = Ok r ->
          same_path (H := Bench.desk) resolved r = false
          /\ among_parents (H := Bench.desk) r resolved = false)
    /\ (forall s r, s ∈ root_only_paths -> resolve (Os := Bench.desk) s = Ok r ->
          same_path (H := Bench.desk) resolved r = false).
Proof.
  refine (proj2 (allowed_folders_are_outside_the_restricted_paths (H := Bench.desk)
                   {| anchor := "/"; names := ["home"; "ada"; "Downloads"; "MyProject"]%string |}
                   ""%string _)).
  vm_compute. reflexivity.
Defined.

(** X16: No system directory passes, nor anything inside one, and none of
    the user's top folders passes.  A folder that [is_path_restricted]
    lets pass resolves to a path that differs from each system directory
    of the platform as it resolves and has none of them among its
    parents; and it differs from the home directory and from its
    Desktop, Documents, Downloads, Pictures, Music and Videos (Movies
    outside Windows) folders as they resolve. *)
Theorem system_directories_and_top_folders_never_pass `{Os}
    (folder resolved home_dir : PurePath) (message : string) :
  is_path_restricted folder = Ok (false, message) ->
  resolve folder = Ok resolved -> home = Ok home_dir ->
  (forall d r,
     d ∈ (if windows
          then [on_drive_c "Windows"; on_drive_c "Program Files";
                on_drive_c "Program Files (x86)"; on_drive_c "ProgramData";
                on_drive_c "$Recycle.Bin"; joinpath home_dir "AppData"]
          else [under_root "etc"; under_root "bin"; under_root "sbin"; under_root "usr";
                under_root "var"; under_root "System"; under_root "Library";
                under_root "private"]) ->
     resolve d = Ok r ->
     same_path resolved r = false /\ among_parents r resolved = false)
  /\ (forall d r,
        d ∈ [home_dir; joinpath home_dir "Desktop"; joinpath home_dir "Documents";
             joinpath home_dir "Downloads"; joinpath home_dir "Pictures";
             joinpath home_dir "Music";
             joinpath home_dir (if windows then "Videos" else "Movies")] ->
        resolve d = Ok r -> same_path resolved r = false).
Proof.
  intros Allowed Hres Hhome.
  destruct (allowed_outside folder message Allowed)
    as (_ & resolved' & sys & ro & Hres' & Lists & _ & Sys & Ro).
  rewrite Hres in Hres'. injection Hres' as <-.
  destruct (restricted_lists_members home_dir sys ro Lists Hhome) as [InSys InRo].
  split.
  - intros d r Hd Hr. exact (Sys d r (InSys d Hd) Hr).
  - intros d r Hd Hr. exact (Ro d r (InRo d Hd) Hr).
Qed.

Lemma system_directories_and_top_folders_never_pass_witness :
  same_path (H := Bench.desk)
    {| anchor := "/"; names := ["home"; "ada"; "Downloads"; "MyProject"]%string |}
    {| anchor := "/"; names := ["home"; "ada"; "Downloads"]%string |} = false.
Proof.
  refine (proj2 (system_directories_and_top_folders_never_pass (H := Bench.desk)
                   {| anchor := "/"; names := ["home"; "ada"; "Downloads"; "MyProject"]%string |}
                   {| anchor := "/"; names := ["home"; "ada"; "Downloads"; "MyProject"]%string |}
                   {| anchor := "/"; names := ["home"; "ada"]%string |}
                   ""%string _ _ _)
            {| anchor := "/"; names := ["home"; "ada"; "Downloads"]%string |}
            {| anchor := "/"; names := ["home"; "ada"; "Downloads"]%string |} _ _).
  - vm_compute. reflexivity.
  - reflexivity.
  - reflexivity.
  - vm_compute. do 3 right. left.
  - reflexivity.
Defined.

(** X17: Every restriction pronounced by [is_path_restricted] has one of
    three reasons, named by its message: the folder resolves to a system
    path or to a path below one; or to a path of at most one part, a
    drive root; or to one of the root-only paths. *)
Theorem every_restriction_has_its_reason `{Os} (folder : PurePath) (message : string) :
  is_path_restricted folder = Ok (true, message) ->
  exists resolved system_paths root_only_paths,
    resolve folder = Ok resolved
    /\ restricted_lists = Ok (system_paths, root_only_paths)
    /\ ((exists s r, s ∈ system_paths /\ resolve s = Ok r
           /\ same_path resolved r || among_parents r resolved = true
           /\ message = system_message r)
        \/ ((length (parts resolved) <= 1)%nat
            /\ message = drive_root_message resolved)
        \/ (exists s r, s ∈ root_only_paths /\ resolve s = Ok r
              /\ same_path resolved r = true
              /\ message = root_only_message r)).
Proof.
  unfold is_path_restricted.
  destruct (resolve folder) as [resolved | e]; [| discriminate]. cbn [mbind result_bind].
  destruct restricted_lists as [[sys ro] | e]; [| discriminate]. cbn [mbind result_bind].
  destruct (check_system_paths resolved sys) as [[m |] | e] eqn:Hs; try discriminate;
    cbn [mbind result_bind].
  { intros [= <-]. exists resolved, sys, ro. split; [reflexivity |]. split; [reflexivity |].
    left. exact (check_system_paths_some resolved sys m Hs). }
  destruct (length (parts resolved) <=? 1)%nat eqn:Hl.
  { intros [= <-]. exists resolved, sys, ro. split; [reflexivity |]. split; [reflexivity |].
    right. left. split; [apply Nat.leb_le; exact Hl | reflexivity]. }
  destruct (check_root_only_paths resolved ro) as [[m |] | e] eqn:Hr;
    cbn [mbind result_bind]; try discriminate.
  intros [= <-]. exists resolved, sys, ro. split; [reflexivity |]. split; [reflexivity |].
  right. right. exact (check_root_only_paths_some resolved ro m Hr).
Qed.

(** The cases of the test suite on a Unix desktop: a file below [/etc],
    the root, the Downloads folder and a project folder inside it. *)
Example unix_desktop_verdicts :
  is_path_restricted (H := Bench.desk) {| anchor := "/"; names := ["etc"; "hosts"]%string |}
  = Ok (true, system_message (H := Bench.desk) {| anchor := "/"; names := ["etc"]%string |})
  /\ is_path_restricted (H := Bench.desk) {| anchor := "/"; names := [] |}
     = Ok (true, drive_root_message (H := Bench.desk) {| anchor := "/"; names := [] |})
  /\ is_path_restricted (H := Bench.desk)
       {| anchor := "/"; names := ["home"; "ada"; "Downloads"]%string |}
     = Ok (true, root_only_message (H := Bench.desk)
                   {| anchor := "/"; names := ["home"; "ada"; "Downloads"]%string |})
  /\ is_path_restricted (H := Bench.desk)
       {| anchor := "/"; names := ["home"; "ada"; "Downloads"; "MyProject"]%string |}
     = Ok (false, ""%string).
Proof. vm_compute. repeat split; reflexivity. Qed.

(** On Windows, paths compare without regard to case and company
    OneDrive folders found in the home directory are root-only. *)
Example windows_desktop_verdicts :
  is_path_restricted (H := Bench.pc)
    {| anchor := "c:\"; names := ["WINDOWS"; "System32"]%string |}
  = Ok (true, system_message (H := Bench.pc) {| anchor := "C:\"; names := ["Windows"]%string |})
  /\ is_path_restricted (H := Bench.pc)
       {| anchor := "C:\"; names := ["Users"; "ada"; "OneDrive - Contoso"]%string |}
     = Ok (true, root_only_message (H := Bench.pc)
                   {| anchor := "C:\"; names := ["Users"; "ada"; "OneDrive - Contoso"]%string |})
  /\ is_path_restricted (H := Bench.pc)
       {| anchor := "C:\"; names := ["Users"; "ada"; "OneDrive - Contoso"; "Clients"]%string |}
     = Ok (false, ""%string).
Proof. vm_compute. repeat split; reflexivity. Qed.

Lemma every_restriction_has_its_reason_witness :
  exists resolved system_paths root_only_paths,
    resolve (Os := Bench.desk) {| anchor := "/"; names := ["etc"; "hosts"]%string |}
    = Ok resolved
    /\ restricted_lists (H := Bench.desk) = Ok (system_paths, root_only_paths)
    /\ ((exists s r, s ∈ system_paths /\ resolve (Os := Bench.desk) s = Ok r
           /\ same_path (H := Bench.desk) resolved r
              || among_parents (H := Bench.desk) r resolved = true
           /\ system_message (H := Bench.desk) {| anchor := "/"; names := ["etc"]%string |}
              = system_message (H := Bench.desk) r)
        \/ ((length (parts resolved) <= 1)%nat
            /\ system_message (H := Bench.desk) {| anchor := "/"; names := ["etc"]%string |}
               = drive_root_message (H := Bench.desk) resolved)
        \/ (exists s r, s ∈ root_only_paths /\ resolve (Os := Bench.desk) s = Ok r
              /\ same_path (H := Bench.desk) resolved r = true
              /\ system_message (H := Bench.desk) {| anchor := "/"; names := ["etc"]%string |}
                 = root_only_message (H := Bench.desk) r)).
Proof.
  refine (every_restriction_has_its_reason (H := Bench.desk)
            {| anchor := "/"; names := ["etc"; "hosts"]%string |}
            (system_message (H := Bench.desk) {| anchor := "/"; names := ["etc"]%string |}) _).
  vm_compute. reflexivity.
Defined.

(** ** The sliders *)

Lemma of_int_exact (n : Z) : (0 <= n < 2 ^ 53)%Z -> (Binary64.of_int n == inject_Z n)%Q.
Proof. intros Hn. unfold Binary64.of_int. apply Binary64Facts.round_Z. exact Hn. Qed.

(** For a positive float below 2^20 and a step below 2^20 the value set
    by a slider is the largest multiple of the step that is not above
    the position of the slider. *)
Lemma snap_exact (step : Z) (v : Q) :
  (0 < step < 2 ^ 20)%Z -> (0 <= v)%Q -> (v < 1048576)%Q ->
  snap step v = (Qfloor (v / inject_Z step) * step)%Z.
Proof.
  intros [Hs0 Hs] Hv0 Hv. unfold snap, Binary64Ops.floordiv, Binary64.mul.
  pose proof (Binary64Facts.inject_Z_pos step Hs0) as Ps.
  assert (Es : (Binary64.of_int step == inject_Z step)%Q) by (apply of_int_exact; lia).
  assert (Q0 : (0 <= v / inject_Z step)%Q).
  { apply Qle_shift_div_l; [exact Ps | lra]. }
  assert (Q1 : (v / inject_Z step <= v)%Q).
  { apply Qle_shift_div_r; [exact Ps |].
    assert (1 <= inject_Z step)%Q by (change 1%Q with (inject_Z 1); rewrite <- Zle_Qle; lia).
    assert (0 <= v * (inject_Z step - 1))%Q by (apply Qmult_le_0_compat; lra). lra. }
  assert (E1 : Binary64.round (v / Binary64.of_int step)
               = Binary64.round (v / inject_Z step)).
  { apply Binary64Facts.round_proper. rewrite Es. reflexivity. }
  assert (Ef : Qfloor (v / Binary64.of_int step) = Qfloor (v / inject_Z step)).
  { apply Qfloor_comp. rewrite Es. reflexivity. }
  rewrite Ef. set (k := Qfloor (v / inject_Z step)).
  assert (K0 : (0 <= k)%Z).
  { unfold k. change 0%Z with (Qfloor 0). apply Qfloor_resp_le. exact Q0. }
  assert (K1 : (k < 2 ^ 20)%Z).
  { unfold k. pose proof (Qfloor_le (v / inject_Z step)) as Fl.
    assert (L : (inject_Z (Qfloor (v / inject_Z step)) < inject_Z (2 ^ 20))%Q).
    { change (inject_Z (2 ^ 20)) with 1048576%Q. lra. }
    rewrite <- Zlt_Qlt in L. exact L. }
  assert (Ek : (Binary64.of_int k == inject_Z k)%Q) by (apply of_int_exact; lia).
  assert (Ep : Binary64.round (Binary64.of_int k * Binary64.of_int step)
               = Binary64.round (inject_Z (k * step))).
  { apply Binary64Facts.round_proper. rewrite Ek, Es, inject_Z_mult. reflexivity. }
  rewrite Ep.
  assert (Range : (0 <= k * step < 2 ^ 53)%Z) by nia.
  assert (Er : (Binary64.round (inject_Z (k * step)) == inject_Z (k * step))%Q)
    by (apply Binary64Facts.round_Z; exact Range).
  unfold Binary64.to_int.
  assert (Nn : Qle_bool 0 (Binary64.round (inject_Z (k * step))) = true).
  { apply Qle_bool_iff. rewrite Er. change 0%Q with (inject_Z 0). rewrite <- Zle_Qle. lia. }
  rewrite Nn. rewrite (Qfloor_comp _ _ Er). apply Qfloor_Z.
Qed.

(** X18: The quality slider runs from 50 to 100 in steps of 2 and the DPI
    slider from 50 to 600 in steps of 10.  For either slider the value
    that is set is a multiple of the step within the range of the
    slider, and it is the largest multiple of the step that is not above
    the position of the slider. *)
Theorem sliders_snap_to_their_grid (step top : Z) (v : Q) :
  (step, top) = (2, 100)%Z \/ (step, top) = (10, 600)%Z ->
  (50 <= v)%Q -> (v <= inject_Z top)%Q ->
  let chosen := snap step v in
  (chosen mod step = 0)%Z /\ (50 <= chosen <= top)%Z
  /\ (inject_Z chosen <= v)%Q /\ (v < inject_Z chosen + inject_Z step)%Q.
Proof.
  intros Slider Lo Hi chosen. unfold chosen.
  assert (Steps : (0 < step < 2 ^ 20)%Z /\ (50 mod step = 0)%Z /\ (top mod step = 0)%Z
                  /\ (50 <= top <= 600)%Z).
  { destruct Slider as [[= -> ->] | [= -> ->]]; repeat split; lia. }
  destruct Steps as (Hs & M50 & Mtop & Htop).
  pose proof (Binary64Facts.inject_Z_pos step ltac:(lia)) as Ps.
  assert (Top : (inject_Z top <= 600)%Q).
  { change 600%Q with (inject_Z 600). rewrite <- Zle_Qle. lia. }
  set (k := Qfloor (v / inject_Z step)).
  assert (E : snap step v = (k * step)%Z) by (apply snap_exact; [exact Hs | lra | lra]).
  rewrite E.
  pose proof (Qfloor_le (v / inject_Z step)) as Fl.
  pose proof (Qlt_floor (v / inject_Z step)) as Fu.
  rewrite inject_Z_plus in Fu. change (inject_Z 1) with 1%Q in Fu. fold k in Fl, Fu.
  assert (Back : (v / inject_Z step * inject_Z step == v)%Q) by (field; lra).
  assert (M1 : (inject_Z k * inject_Z step <= v / inject_Z step * inject_Z step)%Q).
  { apply Qmult_le_compat_r; [exact Fl | lra]. }
  assert (M2 : (v / inject_Z step * inject_Z step < (inject_Z k + 1) * inject_Z step)%Q).
  { apply Qmult_lt_compat_r; [exact Ps | exact Fu]. }
  assert (A : (inject_Z (k * step) <= v)%Q) by (rewrite inject_Z_mult; lra).
  assert (B : (v < inject_Z (k * step) + inject_Z step)%Q) by (rewrite inject_Z_mult; lra).
  split; [apply Z_mod_mult |]. split; [| split; [exact A | exact B]].
  assert (L1 : (inject_Z 50 < inject_Z (k * step + step))%Q).
  { rewrite inject_Z_plus. change (inject_Z 50) with 50%Q. lra. }
  assert (L2 : (inject_Z (k * step) <= inject_Z top)%Q) by lra.
  rewrite <- Zlt_Qlt in L1. rewrite <- Zle_Qle in L2.
  apply Z.div_exact in M50; [| lia]. apply Z.div_exact in Mtop; [| lia].
  split; [| exact L2].
  assert (C : (50 / step < k + 1)%Z) by (apply (Z.mul_lt_mono_pos_l step); lia).
  rewrite M50. rewrite (Z.mul_comm k step). apply Z.mul_le_mono_nonneg_l; lia.
Qed.

Lemma sliders_snap_to_their_grid_witness :
  let chosen := snap 10 (2599 # 10) in
  (chosen mod 10 = 0)%Z /\ (50 <= chosen <= 600)%Z
  /\ (inject_Z chosen <= 2599 # 10)%Q /\ (2599 # 10 < inject_Z chosen + inject_Z 10)%Q.
Proof.
  apply (sliders_snap_to_their_grid 10 600 (2599 # 10)).
  - right. reflexivity.
  - unfold Qle. simpl. lia.
  - unfold Qle. simpl. lia.
Defined.

Example sliders_at_some_positions :
  snap 2 (735 # 10) = 72%Z /\ snap 10 (2599 # 10) = 250%Z /\ snap 2 100 = 100%Z.
Proof. vm_compute. repeat split; reflexivity. Qed.

(** ** A run of [compress_pdfs] *)

Section GuiFacts.
Context `{Libs} `{Desktop}.

Lemma in_order_app (files : list (PurePath * Z)) (made1 made2 : list call) :
  in_order files made1 -> in_order files made2 -> in_order files (made1 ++ made2).
Proof.
  intros R1 R2 i c Hi.
  apply lookup_app_Some in Hi as [Hi | [Hlen Hi]].
  - specialize (R1 i c Hi).
    destruct c as [input_path output_path | path size | source target | path | message].
    + exact R1.
    + exact I.
    + destruct R1 as (j & n & o & -> & Hj & Rest).
      exists j, n, o. split; [reflexivity |]. split; [| exact Rest].
      apply lookup_app_l_Some. exact Hj.
    + destruct R1 as (j & n & t & o & -> & Hj & Rest).
      exists j, n, t, o. split; [reflexivity |]. split; [| exact Rest].
      apply lookup_app_l_Some. exact Hj.
    + exact I.
  - specialize (R2 _ c Hi).
    destruct c as [input_path output_path | path size | source target | path | message].
    + exact R2.
    + exact I.
    + destruct R2 as (j & n & o & Hij & Hj & Rest).
      exists (length made1 + j)%nat, n, o. split; [lia |]. split; [| exact Rest].
      rewrite lookup_app_r by lia.
      replace (length made1 + j - length made1)%nat with j by lia. exact Hj.
    + destruct R2 as (j & n & t & o & Hij & Hj & Rest).
      exists (length made1 + j)%nat, n, t, o. split; [lia |]. split; [| exact Rest].
      rewrite lookup_app_r by lia.
      replace (length made1 + j - length made1)%nat with j by lia. exact Hj.
    + exact I.
Qed.

Lemma in_order_reads (files : list (PurePath * Z)) (made : list call) :
  Forall reads made -> in_order files made.
Proof.
  intros R i c Hi. rewrite Forall_forall in R.
  assert (Rc : reads c) by (apply R; apply (list_elem_of_lookup_2 made i); exact Hi).
  destruct c; try exact I; destruct Rc.
Qed.

Lemma gui_effect_refl (files : list (PurePath * Z)) (s : Session) : gui_effect files 0 s s.
Proof.
  split.
  - exists []. rewrite app_nil_r. split; [reflexivity |]. split; [| constructor].
    apply in_order_reads. constructor.
  - tauto.
  - lia.
Qed.

Lemma gui_effect_trans (files : list (PurePath * Z)) (n1 n2 : Z) (s s1 s2 : Session) :
  gui_effect files n1 s s1 -> gui_effect files n2 s1 s2 ->
  gui_effect files (n1 + n2) s s2.
Proof.
  intros [(m1 & C1 & R1 & S1) T1 N1] [(m2 & C2 & R2 & S2) T2 N2]. split.
  - exists (m1 ++ m2). rewrite C2, C1, app_assoc. split; [reflexivity |].
    split; [apply in_order_app; assumption | apply Forall_app; auto].
  - auto.
  - lia.
Qed.

Lemma gui_effect_after (files : list (PurePath * Z)) (n : Z) (s s1 s2 : Session) :
  gui_effect files 0 s s1 -> gui_effect files n s1 s2 -> gui_effect files n s s2.
Proof. intros E1 E2. exact (gui_effect_trans files 0 n s s1 s2 E1 E2). Qed.

Lemma gui_effect_weaken (files : list (PurePath * Z)) (n n' : Z) (s s' : Session) :
  (n <= n')%Z -> gui_effect files n s s' -> gui_effect files n' s s'.
Proof. intros Le [C T N]. split; [exact C | exact T | lia]. Qed.

(** The case analysis behind [x ← m; f x]. *)
Lemma bind_cases {A B} (m : Gui A) (f : A -> Gui B) (s : Session)
    (P : result B * Session -> Prop) :
  (forall e s1, m s = (Raise e, s1) -> P (Raise e, s1)) ->
  (forall a s1, m s = (Ok a, s1) -> P (f a s1)) ->
  P ((m ≫= f) s).
Proof.
  intros Hr Ho. unfold mbind, Gui_bind. destruct (m s) as [[a | e] s1]; auto.
Qed.

(** A host operation leaves the counters alone. *)
Lemma perform_effect {A} (files : list (PurePath * Z)) (op : world -> result A * world)
    (made : result A -> list call) (s : Session) :
  (forall r, in_order files (made r) /\ Forall sane (made r)) ->
  gui_effect files 0 s (snd (perform op made s)).
Proof.
  intros Hm. unfold perform. destruct (op (host s)) as [r w]. cbn [snd].
  destruct (Hm r) as [R S]. split.
  - exists (made r). auto.
  - tauto.
  - cbn. lia.
Qed.

Lemma plain_calls (files : list (PurePath * Z)) (c : call) :
  reads c -> sane c -> in_order files [c] /\ Forall sane [c].
Proof.
  intros R S. split; [| constructor; [exact S | constructor]].
  apply in_order_reads. constructor; [exact R | constructor].
Qed.

Lemma no_calls (files : list (PurePath * Z)) :
  in_order files [] /\ Forall sane [].
Proof.
  split; [| constructor]. apply in_order_reads. constructor.
Qed.

Lemma say_effect (files : list (PurePath * Z)) (message : note) (c : option colour)
    (s : Session) :
  sane (CallLog message) -> gui_effect files 0 s (snd (say message c s)).
Proof.
  intros S. apply perform_effect. intros r. apply plain_calls; [exact I | exact S].
Qed.

Lemma quiet_effect {A} (files : list (PurePath * Z)) (op : world -> result A * world)
    (s : Session) :
  gui_effect files 0 s (snd (perform op (fun _ => []) s)).
Proof. apply perform_effect. intros r. apply no_calls. Qed.

Lemma counted_after (files : list (PurePath * Z)) (s s1 : Session)
    (out : result unit * Session) :
  gui_effect files 0 s s1 -> counted_effect files s1 out -> counted_effect files s out.
Proof. intros E C. exact (gui_effect_after files _ s s1 (snd out) E C). Qed.

Lemma add_time_effect (files : list (PurePath * Z)) (elapsed : Q) (s : Session) :
  gui_effect files 0 s (snd (add_time elapsed s)).
Proof.
  split; cbn.
  - exists []. rewrite app_nil_r. split; [reflexivity |]. apply no_calls.
  - tauto.
  - lia.
Qed.

Lemma count_skipped_effect (files : list (PurePath * Z)) (original_size : Z) (s : Session) :
  (0 <= original_size)%Z -> counted_effect files s (count_skipped original_size s).
Proof.
  intros Ho. split; cbn.
  - exists []. rewrite app_nil_r. split; [reflexivity |]. apply no_calls.
  - unfold tally_ok. cbn. lia.
  - lia.
Qed.

Lemma count_compressed_effect (files : list (PurePath * Z))
    (original_size compressed_size : Z) (s : Session) :
  (0 <= compressed_size <= original_size)%Z ->
  counted_effect files s (count_compressed original_size compressed_size s).
Proof.
  intros Ho. split; cbn.
  - exists []. rewrite app_nil_r. split; [reflexivity |]. apply no_calls.
  - unfold tally_ok. cbn. lia.
  - lia.
Qed.

(** One step of a sequence: the first operation has no effect on the
    counters, and what follows is looked at from the session it
    leaves. *)
Ltac gui_step E :=
  cbv beta;
  lazymatch goal with
  | |- counted_effect _ ?s0 _ =>
      apply bind_cases;
      [ let e := fresh "e" in let s1 := fresh "s" in let Hm := fresh "Hm" in
        intros e s1 Hm; unfold counted_effect; cbn [fst snd is_Ok];
        lazymatch type of Hm with
        | ?lhs = _ => replace s1 with (snd lhs) by (rewrite Hm; reflexivity)
        end;
        clear Hm; apply E
      | let a := fresh "a" in let s1 := fresh "s" in let Hm := fresh "Hm" in
        intros a s1 Hm; apply (counted_after _ s0 s1);
        [ lazymatch type of Hm with
          | ?lhs = _ => replace s1 with (snd lhs) by (rewrite Hm; reflexivity)
          end;
          clear Hm; apply E
        | clear Hm; cbv beta ] ]
  end.

Variables (files : list (PurePath * Z)) (idx total_files : Z).
Variables (pdf_path : PurePath) (original_size image_quality max_dpi : Z).
Hypothesis Found : (pdf_path, original_size) ∈ files.
Hypothesis Positive : (0 <= original_size)%Z.

(** The two calls that end the handling of a file whose temporary
    output exists. *)
Lemma replace_in_order (st_size : N) :
  (Z.of_N st_size < original_size)%Z ->
  in_order files
    [CallStat (temp_output pdf_path) (Ok st_size);
     CallReplace (temp_output pdf_path) pdf_path].
Proof.
  intros Lt i c Hi. destruct i as [| [| i]]; cbn in Hi.
  - injection Hi as <-. exact I.
  - injection Hi as <-. exists 0%nat, st_size, original_size.
    split; [reflexivity |]. split; [reflexivity |]. split; [exact Lt |].
    split; [exact Found | reflexivity].
  - discriminate.
Qed.

Lemma unlink_in_order (st_size : N) :
  (original_size <= Z.of_N st_size)%Z ->
  in_order files
    [CallStat (temp_output pdf_path) (Ok st_size); CallUnlink (temp_output pdf_path)].
Proof.
  intros Le i c Hi. destruct i as [| [| i]]; cbn in Hi.
  - injection Hi as <-. exact I.
  - injection Hi as <-. exists 0%nat, st_size, pdf_path, original_size.
    split; [reflexivity |]. split; [reflexivity |]. split; [exact Le |].
    split; [exact Found | reflexivity].
  - discriminate.
Qed.

(** The size of the temporary output has been read and is smaller: the
    file is replaced, reported and counted. *)
Lemma swap_effect (s : Session) (w : world) (st_size : N) (elapsed : Q) :
  (Z.of_N st_size < original_size)%Z ->
  let temp := temp_output pdf_path in
  let compressed_size := Z.of_N st_size in
  counted_effect files s
    ((_ ← perform (path_replace temp pdf_path) (fun _ => [CallReplace temp pdf_path]);
      ratio ← compute (Binary64.int_truediv compressed_size original_size);
      let reduction :=
        Binary64.mul (Binary64Ops.sub (Binary64.of_int 1) ratio) (Binary64.of_int 100) in
      _ ← say (NoteCompressed original_size compressed_size reduction elapsed) (Some Green);
      count_compressed original_size compressed_size)
       (with_host s w [CallStat temp (Ok st_size)])).
Proof.
  intros Lt temp compressed_size.
  assert (Shape : forall more, Forall sane more -> Forall reads more ->
            in_order files
              (CallStat temp (Ok st_size) :: CallReplace temp pdf_path :: more)
            /\ Forall sane (CallStat temp (Ok st_size) :: CallReplace temp pdf_path :: more)).
  { intros more Sane Reads. split.
    - apply (in_order_app files [CallStat temp (Ok st_size); CallReplace temp pdf_path] more).
      + apply replace_in_order. exact Lt.
      + apply in_order_reads. exact Reads.
    - constructor; [exact I |]. constructor; [exact I | exact Sane]. }
  unfold counted_effect, mbind, Gui_bind, say, perform, compute, count_compressed.
  cbn [host with_host].
  destruct (path_replace temp pdf_path w) as [[u | e] w1]; cbn [fst snd is_Ok].
  2:{ split; cbn.
      - exists [CallStat temp (Ok st_size); CallReplace temp pdf_path].
        split; [rewrite <- app_assoc; reflexivity |].
        apply Shape; constructor.
      - tauto.
      - lia. }
  destruct (Binary64.int_truediv compressed_size original_size) as [ratio | e];
    cbn [fst snd is_Ok].
  2:{ split; cbn.
      - exists [CallStat temp (Ok st_size); CallReplace temp pdf_path].
        split; [rewrite <- app_assoc; reflexivity |].
        apply Shape; constructor.
      - tauto.
      - lia. }
  cbn [host with_host].
  set (message := NoteCompressed original_size compressed_size
                    (Binary64.mul (Binary64Ops.sub (Binary64.of_int 1) ratio)
                       (Binary64.of_int 100)) elapsed).
  assert (Logged : in_order files
                     [CallStat temp (Ok st_size); CallReplace temp pdf_path; CallLog message]
                   /\ Forall sane
                        [CallStat temp (Ok st_size); CallReplace temp pdf_path; CallLog message]).
  { apply Shape.
    - constructor; [| constructor]. unfold message, sane, compressed_size. lia.
    - constructor; [exact I | constructor]. }
  destruct (status_log message (Some Green) w1) as [[u' | e] w2]; cbn [fst snd is_Ok].
  - split; cbn.
    + exists [CallStat temp (Ok st_size); CallReplace temp pdf_path; CallLog message].
      split; [rewrite <- !app_assoc; reflexivity | exact Logged].
    + unfold tally_ok. cbn. unfold compressed_size. lia.
    + lia.
  - split; cbn.
    + exists [CallStat temp (Ok st_size); CallReplace temp pdf_path; CallLog message].
      split; [rewrite <- !app_assoc; reflexivity | exact Logged].
    + tauto.
    + lia.
Qed.

(** The size of the temporary output has been read and is not smaller:
    the temporary output is deleted and the file is counted as
    skipped. *)
Lemma discard_effect (s : Session) (w : world) (st_size : N) (elapsed : Q) :
  (original_size <= Z.of_N st_size)%Z ->
  let temp := temp_output pdf_path in
  counted_effect files s
    ((_ ← perform (path_unlink temp) (fun _ => [CallUnlink temp]);
      _ ← say (NoteNoReduction elapsed) None;
      count_skipped original_size)
       (with_host s w [CallStat temp (Ok st_size)])).
Proof.
  intros Le temp.
  assert (Unlinked : gui_effect files 0 s
            (snd (perform (path_unlink temp) (fun _ => [CallUnlink temp])
                    (with_host s w [CallStat temp (Ok st_size)])))).
  { unfold perform. cbn [host with_host].
    destruct (path_unlink temp w) as [r w1]. split; cbn.
    - exists [CallStat temp (Ok st_size); CallUnlink temp].
      split; [rewrite <- app_assoc; reflexivity |].
      split; [apply unlink_in_order; exact Le |].
      constructor; [exact I |]. constructor; [exact I | constructor].
    - tauto.
    - lia. }
  apply bind_cases.
  - intros e s1 Hm. unfold counted_effect. cbn [fst snd is_Ok].
    rewrite Hm in Unlinked. exact Unlinked.
  - intros u s1 Hm. rewrite Hm in Unlinked. cbn [snd] in Unlinked.
    apply (counted_after files s s1); [exact Unlinked |]. clear Hm Unlinked.
    gui_step (say_effect files); [exact I | exact I |].
    apply count_skipped_effect. exact Positive.
Qed.

Lemma now_effect (s : Session) : gui_effect files 0 s (snd (now s)).
Proof. apply quiet_effect. Qed.

Lemma compress_to_effect (s : Session) :
  gui_effect files 0 s
    (snd (compress_to pdf_path (temp_output pdf_path) image_quality max_dpi s)).
Proof.
  apply perform_effect. intros r. split.
  - intros i c Hi. destruct i as [| i]; cbn in Hi; [| destruct i; discriminate].
    injection Hi as <-. exists original_size. split; [exact Found | reflexivity].
  - constructor; [exact I | constructor].
Qed.

(** The body of the [try] block counts the file exactly when it
    returns. *)
Lemma process_pdf_effect (s : Session) :
  counted_effect files s
    (process_pdf idx total_files pdf_path original_size image_quality max_dpi s).
Proof.
  unfold process_pdf.
  gui_step (say_effect files); [exact I | exact I |].
  gui_step now_effect.
  cbv zeta.
  gui_step compress_to_effect.
  gui_step now_effect.
  cbv zeta.
  gui_step (add_time_effect files).
  gui_step (gui_effect_refl files).
  lazymatch goal with present : bool |- _ => destruct present end.
  - lazymatch goal with
    | |- counted_effect _ ?s0 _ =>
        apply bind_cases;
        [ intros e s' Hm; unfold counted_effect; cbn [fst snd is_Ok];
          lazymatch type of Hm with
          | ?lhs = _ => replace s' with (snd lhs) by (rewrite Hm; reflexivity)
          end;
          apply perform_effect; intros r; apply plain_calls; [exact I | exact I]
        | intros st_size s' Hm; unfold perform in Hm;
          destruct (stat_size (temp_output pdf_path) (host s0)) as [r w] eqn:Hs;
          injection Hm as -> <-; cbv zeta;
          destruct (Z.of_N st_size <? original_size)%Z eqn:Lt;
          [ apply swap_effect; apply Z.ltb_lt; exact Lt
          | apply discard_effect; apply Z.ltb_ge; exact Lt ] ]
    end.
  - gui_step (say_effect files); [exact I | exact I |].
    apply count_skipped_effect. exact Positive.
Qed.

Lemma progress_effect (s : Session) :
  gui_effect files 0 s
    (snd ((progress ← compute (Binary64.int_truediv idx total_files);
           _ ← perform (set_progress (Binary64.mul progress (Binary64.of_int 100)))
                 (fun _ => []);
           perform root_update (fun _ => [])) s)).
Proof.
  unfold mbind, Gui_bind, compute.
  destruct (Binary64.int_truediv idx total_files) as [progress | e];
    [| apply gui_effect_refl].
  pose proof (quiet_effect files
                (set_progress (Binary64.mul progress (Binary64.of_int 100))) s) as E1.
  destruct (perform (set_progress _) _ s) as [[u | e] s1]; cbn [snd] in E1; [| exact E1].
  apply (gui_effect_after files 0 s s1 _ E1). apply quiet_effect.
Qed.

(** One iteration counts at most one file. *)
Lemma handle_pdf_effect (s : Session) :
  gui_effect files 1 s
    (snd (handle_pdf idx total_files pdf_path original_size image_quality max_dpi s)).
Proof.
  unfold handle_pdf.
  pose proof (process_pdf_effect s) as P. unfold counted_effect in P.
  destruct (process_pdf idx total_files pdf_path original_size image_quality max_dpi s)
    as [[u | e] s1]; cbn [fst snd is_Ok] in P.
  - apply (gui_effect_trans files 1 0 s s1 _ P). apply progress_effect.
  - assert (Handler : counted_effect files s1
                        ((_ ← say (NoteError e) (Some Red); count_skipped original_size) s1)).
    { gui_step (say_effect files); [exact I | exact I |].
      apply count_skipped_effect. exact Positive. }
    unfold counted_effect in Handler.
    destruct ((_ ← say (NoteError e) (Some Red); count_skipped original_size) s1)
      as [[u | e'] s2]; cbn [fst snd is_Ok] in Handler.
    + apply (gui_effect_after files 1 s s1 _ P).
      apply (gui_effect_trans files 1 0 s1 s2 _ Handler). apply progress_effect.
    + cbn [snd]. apply (gui_effect_weaken files 0 1); [lia |].
      exact (gui_effect_after files 0 s s1 s2 P Handler).
Qed.

End GuiFacts.

(** One step of a sequence that counts nothing; [tac] proves what the
    effect lemma [E] asks for. *)
Ltac eff_step E tac :=
  cbv beta;
  lazymatch goal with
  | |- gui_effect ?fs 0 ?s0 (snd (mbind ?f ?m ?s0)) =>
      apply (bind_cases m f s0 (fun out => gui_effect fs 0 s0 (snd out)));
      [ let e := fresh "e" in let s1 := fresh "s" in let Hm := fresh "Hm" in
        intros e s1 Hm; cbn [snd];
        replace s1 with (snd (m s0)) by (rewrite Hm; reflexivity);
        clear Hm; apply E; tac
      | let a := fresh "a" in let s1 := fresh "s" in let Hm := fresh "Hm" in
        let X := fresh "Eff" in
        intros a s1 Hm;
        assert (X : gui_effect fs 0 s0 s1)
          by (replace s1 with (snd (m s0)) by (rewrite Hm; reflexivity);
              apply E; tac);
        apply (gui_effect_after fs 0 s0 s1 _ X); clear Hm; cbv beta ]
  end.

(** The reduction shown for totals in order lies between 0 and 100. *)
Lemma reduction_range (total_compressed total_original : Z) :
  (0 < total_original)%Z -> (0 <= total_compressed <= total_original)%Z ->
  exists ratio,
    Binary64.int_truediv total_compressed total_original = Ok ratio
    /\ (0 <= Binary64.mul (Binary64Ops.sub (Binary64.of_int 1) ratio) (Binary64.of_int 100))%Q
    /\ (Binary64.mul (Binary64Ops.sub (Binary64.of_int 1) ratio) (Binary64.of_int 100)
        <= 100)%Q.
Proof.
  intros Ho Hc. unfold Binary64.int_truediv.
  replace (total_original =? 0)%Z with false by lia.
  eexists. split; [reflexivity |].
  set (ratio := Binary64.round (inject_Z total_compressed / inject_Z total_original)).
  pose proof (Binary64Facts.inject_Z_pos total_original Ho) as Po.
  assert (Q0 : (0 <= inject_Z total_compressed / inject_Z total_original)%Q).
  { apply Qle_shift_div_l; [exact Po |]. rewrite Qmult_0_l.
    change 0%Q with (inject_Z 0). rewrite <- Zle_Qle. lia. }
  assert (Q1 : (inject_Z total_compressed / inject_Z total_original <= 1)%Q).
  { apply Qle_shift_div_r; [exact Po |]. rewrite Qmult_1_l. rewrite <- Zle_Qle. lia. }
  assert (R0 : (0 <= ratio)%Q) by (apply round_nonneg; exact Q0).
  assert (R1 : (ratio <= 1)%Q).
  { pose proof Binary64Facts.round_1 as E1.
    assert (Mo : (ratio <= Binary64.round 1)%Q)
      by (apply Binary64Facts.round_mono; assumption).
    lra. }
  assert (E1 : (Binary64.of_int 1 == 1)%Q) by (apply of_int_exact; lia).
  assert (E100 : (Binary64.of_int 100 == 100)%Q) by (apply of_int_exact; lia).
  unfold Binary64Ops.sub, Binary64.mul.
  assert (Es : Binary64.round (Binary64.of_int 1 - ratio) = Binary64.round (1 - ratio)).
  { apply Binary64Facts.round_proper. rewrite E1. reflexivity. }
  rewrite Es. set (d := Binary64.round (1 - ratio)).
  assert (D0 : (0 <= d)%Q) by (apply round_nonneg; lra).
  assert (D1 : (d <= 1)%Q).
  { pose proof Binary64Facts.round_1 as E.
    assert (Mo : (d <= Binary64.round 1)%Q) by (apply Binary64Facts.round_mono; lra).
    lra. }
  assert (Em : Binary64.round (d * Binary64.of_int 100) = Binary64.round (d * 100)).
  { apply Binary64Facts.round_proper. rewrite E100. reflexivity. }
  rewrite Em. split.
  - apply round_nonneg. lra.
  - assert (E : (Binary64.round 100 == 100)%Q).
    { change 100%Q with (inject_Z 100). apply Binary64Facts.round_Z. lia. }
    assert (Mo : (Binary64.round (d * 100) <= Binary64.round 100)%Q)
      by (apply Binary64Facts.round_mono; lra).
    lra.
Qed.

Section GuiRun.
Context `{Libs} `{Desktop}.

(** The loop counts at most as many files as it is given. *)
Lemma compress_each_effect (files : list (PurePath * Z)) (total_files : Z)
    (image_quality max_dpi : Z) (rest : list (PurePath * Z)) :
  (forall f, f ∈ rest -> f ∈ files /\ (0 <= snd f)%Z) ->
  forall idx s,
    gui_effect files (Z.of_nat (length rest)) s
      (snd (compress_each rest idx total_files image_quality max_dpi s)).
Proof.
  induction rest as [| [pdf_path original_size] rest IH]; intros Hin idx s.
  - apply gui_effect_refl.
  - cbn [compress_each].
    assert (Here : (pdf_path, original_size) ∈ files /\ (0 <= original_size)%Z).
    { apply (Hin (pdf_path, original_size)). apply elem_of_cons. left. reflexivity. }
    destruct Here as [Found Positive].
    assert (Len : (0 <= Z.of_nat (length rest))%Z) by lia.
    destruct (cancel_requested (host s)).
    + apply (gui_effect_weaken files 0); [cbn [length]; lia |].
      apply say_effect. exact I.
    + pose proof (handle_pdf_effect files idx total_files pdf_path original_size
                    image_quality max_dpi Found Positive s) as E.
      destruct (handle_pdf idx total_files pdf_path original_size image_quality max_dpi s)
        as [[u | e] s1]; cbn [snd] in E.
      * replace (Z.of_nat (length ((pdf_path, original_size) :: rest)))
          with (1 + Z.of_nat (length rest))%Z by (cbn [length]; lia).
        apply (gui_effect_trans files 1 _ s s1 _ E). apply IH.
        intros f Hf. apply Hin. apply elem_of_cons. right. exact Hf.
      * cbn [snd]. apply (gui_effect_weaken files 1); [cbn [length]; lia | exact E].
Qed.

Lemma query_effect {A} (files : list (PurePath * Z)) (op : world -> A) (s : Session) :
  gui_effect files 0 s (snd (query op s)).
Proof. apply gui_effect_refl. Qed.

Lemma compute_effect {A} (files : list (PurePath * Z)) (r : result A) (s : Session) :
  gui_effect files 0 s (snd (compute r s)).
Proof. apply gui_effect_refl. Qed.

(** The summary shows figures that are in order when the counters
    are. *)
Lemma summarize_effect (files : list (PurePath * Z)) (total_files : Z) (s : Session) :
  tally_ok s ->
  (compressed_count s + skipped_count s <= total_files)%Z ->
  gui_effect files 0 s (snd (summarize total_files s)).
Proof.
  intros Tally Bound. unfold summarize.
  eff_step (query_effect files (A := bool)) idtac.
  assert (Progress : gui_effect files 0 s0
            (snd ((if a then compute (Ok tt)
                   else perform (set_progress (Binary64.of_int 100)) (fun _ => [])) s0))).
  { destruct a; [apply compute_effect | apply quiet_effect]. }
  apply (bind_cases _ _ s0 (fun out => gui_effect files 0 s0 (snd out))).
  { intros e s1 Hm. cbn [snd]. rewrite Hm in Progress. exact Progress. }
  intros u s1 Hm. rewrite Hm in Progress. cbn [snd] in Progress.
  apply (gui_effect_after files 0 s0 s1 _ Progress).
  assert (Tally1 : tally_ok s1 /\ (compressed_count s1 + skipped_count s1 <= total_files)%Z).
  { split; [exact (ge_tally _ _ _ _ Progress (ge_tally _ _ _ _ Eff Tally)) |].
    pose proof (ge_counted _ _ _ _ Progress). pose proof (ge_counted _ _ _ _ Eff). lia. }
  clear Hm Progress Eff Tally Bound s s0 a u.
  apply (bind_cases _ _ s1 (fun out => gui_effect files 0 s1 (snd out)));
    [intros e s2 Hm; discriminate |].
  intros s s2 Hm. injection Hm as <- <-.
  destruct Tally1 as [(C0 & S0 & T0 & T1) Bound].
  assert (Reduction : exists ok : Q -> Prop,
            (forall red, ok red ->
               sane (CallLog (NoteTotalSize (total_original_size s1)
                                (total_compressed_size s1) red))
               \/ (0 <? total_original_size s1)%Z = false)
            /\ forall s, match (if (0 <? total_original_size s1)%Z
                                then
                                  ratio ← compute (Binary64.int_truediv
                                                     (total_compressed_size s1)
                                                     (total_original_size s1));
                                  compute (Ok (Binary64.mul
                                                 (Binary64Ops.sub (Binary64.of_int 1) ratio)
                                                 (Binary64.of_int 100)))
                                else compute (Ok 0%Q)) s with
                         | (Ok red, s') => ok red /\ s' = s
                         | (Raise _, _) => False
                         end).
  { destruct (0 <? total_original_size s1)%Z eqn:Pos.
    - apply Z.ltb_lt in Pos.
      destruct (reduction_range (total_compressed_size s1) (total_original_size s1) Pos
                  ltac:(lia)) as (ratio & Hr & R0 & R1).
      exists (fun red => (0 <= red)%Q /\ (red <= 100)%Q). split.
      + intros red [A B]. left. cbn. split; [lia | split; assumption].
      + intros s. unfold mbind, Gui_bind, compute. rewrite Hr. auto.
    - exists (fun _ => True). split; [intros; right; reflexivity |].
      intros s. cbn. auto. }
  destruct Reduction as (ok & Sane & Run).
  apply (bind_cases _ _ s1 (fun out => gui_effect files 0 s1 (snd out))).
  { intros e s2 Hm. specialize (Run s1). rewrite Hm in Run. contradiction. }
  intros red s2 Hm. specialize (Run s1). rewrite Hm in Run. destruct Run as [Ok_red ->].
  clear Hm.
  eff_step (say_effect files) ltac:(exact I).
  eff_step (query_effect files (A := bool)) idtac.
  eff_step (say_effect files) ltac:(exact I).
  eff_step (say_effect files) ltac:(exact I).
  cbv zeta.
  eff_step (say_effect files) ltac:(cbn; lia).
  eff_step (say_effect files) ltac:(exact I).
  eff_step (say_effect files) ltac:(exact I).
  lazymatch goal with
  | |- gui_effect _ 0 ?s0 _ =>
      assert (Size : gui_effect files 0 s0
                (snd ((if (0 <? total_original_size s1)%Z
                       then say (NoteTotalSize (total_original_size s1)
                                   (total_compressed_size s1) red) None
                       else compute (Ok tt)) s0)));
      [ destruct (Sane red Ok_red) as [S | ->];
        [ destruct (0 <? total_original_size s1)%Z;
          [apply say_effect; exact S | apply compute_effect]
        | apply compute_effect ]
      | apply (bind_cases _ _ s0 (fun out => gui_effect files 0 s0 (snd out)));
        [ intros e sz Hm; cbn [snd]; rewrite Hm in Size; exact Size
        | intros u sz Hm; rewrite Hm in Size; cbn [snd] in Size;
          apply (gui_effect_after files 0 s0 sz _ Size); clear Hm Size ] ]
  end.
  lazymatch goal with
  | |- gui_effect _ 0 ?s0 _ =>
      assert (Time : gui_effect files 0 s0
                (snd ((if Binary64.ltb 0 (total_time s1)
                          && (0 <? compressed_count s1 + skipped_count s1)%Z
                       then
                         _ ← say (NoteTotalTime (total_time s1)) None;
                         average ← compute (Binary64Ops.div_int (total_time s1)
                                              (compressed_count s1 + skipped_count s1));
                         say (NoteAverage average) None
                       else compute (Ok tt)) s0)));
      [ destruct (Binary64.ltb 0 (total_time s1)
                  && (0 <? compressed_count s1 + skipped_count s1)%Z);
        [ eff_step (say_effect files) ltac:(exact I);
          eff_step (compute_effect files (A := Q)) idtac;
          apply say_effect; exact I
        | apply compute_effect ]
      | apply (bind_cases _ _ s0 (fun out => gui_effect files 0 s0 (snd out)));
        [ intros e st Hm; cbn [snd]; rewrite Hm in Time; exact Time
        | intros u' st Hm; rewrite Hm in Time; cbn [snd] in Time;
          apply (gui_effect_after files 0 s0 st _ Time); clear Hm Time ] ]
  end.
  eff_step (query_effect files (A := bool)) idtac.
  lazymatch goal with
  | |- context [if ?b then compute _ else _] => destruct b
  end; [apply compute_effect | apply quiet_effect].
Qed.

(** *** Before the loop *)

Lemma survey_refl (s : Session) : survey [] s s.
Proof.
  split; [| auto]. exists []. rewrite app_nil_r.
  split; [reflexivity |]. repeat split; constructor.
Qed.

Lemma seen_in_app (scanned1 scanned2 : list call) (f : PurePath * Z) :
  seen_in scanned1 f \/ seen_in scanned2 f -> seen_in (scanned1 ++ scanned2) f.
Proof.
  intros [[Big (n & In & E)] | [Big (n & In & E)]]; (split; [exact Big |]);
    exists n; (split; [| exact E]); apply elem_of_app; [left | right]; exact In.
Qed.

Lemma survey_trans (files1 files2 : list (PurePath * Z)) (s s1 s2 : Session) :
  survey files1 s s1 -> survey files2 s1 s2 -> survey (files1 ++ files2) s s2.
Proof.
  intros [(m1 & C1 & R1 & S1 & F1) (A1 & B1 & D1 & E1)]
         [(m2 & C2 & R2 & S2 & F2) (A2 & B2 & D2 & E2)].
  split; [| repeat split; congruence].
  exists (m1 ++ m2). rewrite C2, C1, app_assoc. split; [reflexivity |].
  split; [apply Forall_app; auto |]. split; [apply Forall_app; auto |].
  apply Forall_app. split.
  - eapply Forall_impl; [exact F1 |]. intros f Hf. apply seen_in_app. left. exact Hf.
  - eapply Forall_impl; [exact F2 |]. intros f Hf. apply seen_in_app. right. exact Hf.
Qed.

Lemma survey_after (files : list (PurePath * Z)) (s s1 s2 : Session) :
  survey [] s s1 -> survey files s1 s2 -> survey files s s2.
Proof. intros E1 E2. exact (survey_trans [] files s s1 s2 E1 E2). Qed.

(** The files may be forgotten. *)
Lemma survey_only (files : list (PurePath * Z)) (s s1 : Session) :
  survey files s s1 -> survey [] s s1.
Proof.
  intros [(m & C & R & S & _) K]. split; [| exact K].
  exists m. repeat split; try assumption. constructor.
Qed.

(** What has been surveyed changes no file and handles none. *)
Lemma survey_quiet (seen files : list (PurePath * Z)) (s s1 : Session) :
  survey seen s s1 -> gui_effect files 0 s s1.
Proof.
  intros [(m & C & R & S & _) (A & B & D & E)]. split.
  - exists m. split; [exact C |]. split; [apply in_order_reads; exact R | exact S].
  - unfold tally_ok. rewrite A, B, D, E. tauto.
  - rewrite A, B. lia.
Qed.

Lemma perform_survey {A} (op : world -> result A * world) (made : result A -> list call)
    (s : Session) :
  (forall r, Forall reads (made r) /\ Forall sane (made r)) ->
  survey [] s (snd (perform op made s)).
Proof.
  intros Hm. unfold perform. destruct (op (host s)) as [r w]. cbn [snd].
  destruct (Hm r) as [R S]. split; [| cbn; auto].
  exists (made r). cbn. repeat split; try assumption. constructor.
Qed.

Lemma say_survey (message : note) (c : option colour) (s : Session) :
  sane (CallLog message) -> survey [] s (snd (say message c s)).
Proof.
  intros S. apply perform_survey. intros r.
  split; (constructor; [assumption || exact I | constructor]).
Qed.

Lemma report_pyvips_survey (s : Session) : survey [] s (snd (report_pyvips s)).
Proof.
  unfold report_pyvips.
  assert (E1 : survey [] s (snd (perform import_pyvips (fun _ => []) s))).
  { apply perform_survey. intros r. split; constructor. }
  destruct (perform import_pyvips _ s) as [[version | e] s1]; cbn [snd] in E1.
  - pose proof (say_survey (NotePyvipsVersion version) (Some Green) s1 I) as E2.
    destruct (say (NotePyvipsVersion version) (Some Green) s1) as [[u | e] s2];
      cbn [snd] in E2.
    + exact (survey_after [] s s1 s2 E1 E2).
    + apply (survey_after [] s s2 _ (survey_after [] s s1 s2 E1 E2)).
      apply say_survey. exact I.
  - apply (survey_after [] s s1 _ E1). apply say_survey. exact I.
Qed.

(** The scan only reads sizes, and every file it returns is one whose
    size it has read and found above 5 MiB. *)
Lemma scan_survey (found : list PurePath) :
  forall s,
    survey (match fst (scan found s) with
            | Ok pdf_files => pdf_files
            | Raise _ => []
            end) s (snd (scan found s)).
Proof.
  induction found as [| pdf_path rest IH]; intros s; [apply survey_refl |].
  cbn [scan]. unfold mbind, Gui_bind, ask. cbn [fst snd].
  destruct (is_file pdf_path (host s)) as [[|] | e]; [| apply IH | apply survey_refl].
  unfold perform.
  destruct (stat_size pdf_path (host s)) as [[st_size | e] w] eqn:Hs.
  2:{ cbn [fst snd]. split; [| cbn; auto].
      exists [CallStat pdf_path (Raise e)]. cbn.
      repeat split; constructor; try exact I; constructor. }
  cbv zeta.
  set (s1 := with_host s w [CallStat pdf_path (Ok st_size)]).
  specialize (IH s1).
  assert (Read : forall files,
            Forall (seen_in [CallStat pdf_path (Ok st_size)]) files -> survey files s s1).
  { intros files Seen. split; [| cbn; auto].
    exists [CallStat pdf_path (Ok st_size)]. cbn.
    repeat split; try assumption; constructor; try exact I; constructor. }
  destruct (scan rest s1) as [[more | e] s2]; cbn [fst snd] in IH |- *.
  - unfold compute. cbn [fst snd].
    destruct (5 * 1024 * 1024 <? Z.of_N st_size)%Z eqn:Big.
    + apply (survey_trans [(pdf_path, Z.of_N st_size)] more s s1 s2); [| exact IH].
      apply Read. constructor; [| constructor]. split; [apply Z.ltb_lt; exact Big |].
      exists st_size. split; [apply list_elem_of_singleton; reflexivity | reflexivity].
    + apply (survey_after more s s1 s2); [| exact IH]. apply Read. constructor.
  - apply (survey_after [] s s1 s2); [| exact IH]. apply Read. constructor.
Qed.

(** The files found are handled one by one and the summary follows. *)
Lemma compress_found_effect (pdf_files : list (PurePath * Z)) (image_quality max_dpi : Z)
    (s : Session) :
  Forall (fun f => (0 <= snd f)%Z) pdf_files ->
  tally_ok s -> (compressed_count s + skipped_count s = 0)%Z ->
  gui_effect pdf_files (Z.of_nat (length pdf_files)) s
    (snd (compress_found pdf_files image_quality max_dpi s)).
Proof.
  intros Sizes Tally Zero. unfold compress_found. cbv zeta.
  destruct (Z.of_nat (length pdf_files) =? 0)%Z.
  { apply (gui_effect_weaken pdf_files 0); [lia |]. apply say_effect. exact I. }
  apply (bind_cases _ _ s
           (fun out => gui_effect pdf_files (Z.of_nat (length pdf_files)) s (snd out))).
  { intros e s1 Hm. cbn [snd]. apply (gui_effect_weaken pdf_files 0); [lia |].
    replace s1 with (snd (say (NoteFound (Z.of_nat (length pdf_files))) None s))
      by (rewrite Hm; reflexivity).
    apply say_effect. exact I. }
  intros u1 s1 Hm1.
  assert (E1 : gui_effect pdf_files 0 s s1).
  { replace s1 with (snd (say (NoteFound (Z.of_nat (length pdf_files))) None s))
      by (rewrite Hm1; reflexivity).
    apply say_effect. exact I. }
  clear Hm1. apply (gui_effect_after pdf_files _ s s1 _ E1).
  apply (bind_cases _ _ s1
           (fun out => gui_effect pdf_files (Z.of_nat (length pdf_files)) s1 (snd out))).
  { intros e s2 Hm. cbn [snd]. apply (gui_effect_weaken pdf_files 0); [lia |].
    replace s2 with (snd (say (NoteSettings image_quality max_dpi) None s1))
      by (rewrite Hm; reflexivity).
    apply say_effect. exact I. }
  intros u2 s2 Hm2.
  assert (E2 : gui_effect pdf_files 0 s1 s2).
  { replace s2 with (snd (say (NoteSettings image_quality max_dpi) None s1))
      by (rewrite Hm2; reflexivity).
    apply say_effect. exact I. }
  clear Hm2. apply (gui_effect_after pdf_files _ s1 s2 _ E2).
  pose proof (gui_effect_after pdf_files 0 s s1 s2 E1 E2) as E12.
  assert (Loop : gui_effect pdf_files (Z.of_nat (length pdf_files)) s2
                   (snd (compress_each pdf_files 1 (Z.of_nat (length pdf_files))
                           image_quality max_dpi s2))).
  { apply compress_each_effect. intros f Hf. split; [exact Hf |].
    rewrite Forall_forall in Sizes. apply Sizes. exact Hf. }
  apply (bind_cases _ _ s2
           (fun out => gui_effect pdf_files (Z.of_nat (length pdf_files)) s2 (snd out))).
  { intros e s3 Hm. rewrite Hm in Loop. exact Loop. }
  intros u3 s3 Hm3. rewrite Hm3 in Loop. cbn [snd] in Loop. clear Hm3.
  replace (Z.of_nat (length pdf_files)) with (Z.of_nat (length pdf_files) + 0)%Z at 1
    by lia.
  apply (gui_effect_trans pdf_files _ 0 s2 s3 _ Loop).
  pose proof (gui_effect_trans pdf_files _ _ s s2 s3 E12 Loop) as [_ T N].
  apply summarize_effect; [exact (T Tally) | lia].
Qed.

(** A part of the run that only reads and writes messages may come
    first. *)
Lemma folder_after (s s1 : Session) (out : result unit * Session) :
  survey [] s s1 -> folder_effect s1 out -> folder_effect s out.
Proof.
  intros E F Tally Zero.
  pose proof (survey_quiet [] [] s s1 E) as [_ T N].
  destruct (F (T Tally) ltac:(lia)) as (pdf_files & seen & Sv & Eff).
  exists pdf_files, seen. split; [| exact Eff].
  exact (survey_after pdf_files s s1 seen E Sv).
Qed.

Lemma folder_raise (s s1 : Session) (e : exn) :
  survey [] s s1 -> folder_effect s (Raise e, s1).
Proof.
  intros E Tally Zero. exists [], s1. split; [exact E | apply gui_effect_refl].
Qed.

Lemma compress_folder_effect (folder : PurePath) (image_quality max_dpi : Z) (s : Session) :
  folder_effect s (compress_folder folder image_quality max_dpi s).
Proof.
  unfold compress_folder.
  apply bind_cases.
  { intros e s1 Hm. apply folder_raise.
    replace s1 with (snd (say NoteScanning None s)) by (rewrite Hm; reflexivity).
    apply say_survey. exact I. }
  intros u1 s1 Hm. apply (folder_after s s1).
  { replace s1 with (snd (say NoteScanning None s)) by (rewrite Hm; reflexivity).
    apply say_survey. exact I. }
  clear Hm s u1.
  apply bind_cases.
  { intros e s2 Hm. apply folder_raise.
    replace s2 with (snd (report_pyvips s1)) by (rewrite Hm; reflexivity).
    apply report_pyvips_survey. }
  intros u2 s2 Hm. apply (folder_after s1 s2).
  { replace s2 with (snd (report_pyvips s1)) by (rewrite Hm; reflexivity).
    apply report_pyvips_survey. }
  clear Hm s1 u2.
  apply bind_cases.
  { intros e s3 Hm. apply folder_raise.
    replace s3 with (snd (say NoteBlank None s2)) by (rewrite Hm; reflexivity).
    apply say_survey. exact I. }
  intros u3 s3 Hm. apply (folder_after s2 s3).
  { replace s3 with (snd (say NoteBlank None s2)) by (rewrite Hm; reflexivity).
    apply say_survey. exact I. }
  clear Hm s2 u3.
  apply bind_cases; [intros e s4 Hm; discriminate |].
  intros found s4 Hm. injection Hm as <- <-.
  pose proof (scan_survey (fst (rglob_pdf folder (host s3))) s3) as Scan.
  apply bind_cases.
  { intros e s5 Hm. rewrite Hm in Scan. cbn [fst snd] in Scan.
    apply folder_raise. exact Scan. }
  intros pdf_files s5 Hm. rewrite Hm in Scan. cbn [fst snd] in Scan. clear Hm.
  apply bind_cases.
  { intros e s6 Hm. unfold compute in Hm. injection Hm as _ <-.
    apply folder_raise. exact (survey_only pdf_files s3 s5 Scan). }
  intros u6 s6 Hm. unfold compute in Hm. injection Hm as _ <-.
  intros Tally Zero. exists pdf_files, s5. split; [exact Scan |].
  pose proof (survey_quiet pdf_files [] s3 s5 Scan) as [_ T N].
  apply compress_found_effect; [| exact (T Tally) | lia].
  destruct Scan as [(scanned & _ & _ & _ & Seen) _].
  eapply Forall_impl; [exact Seen |]. intros f [Big _]. lia.
Qed.

(** A whole run of [compress_pdfs]: the calls that see the files come
    first, and the calls that follow keep to these files. *)
Lemma compress_pdfs_effect (folder : PurePath) (image_quality max_dpi : Z) (w : world) :
  exists pdf_files scanned handled,
    calls (snd (compress_pdfs folder image_quality max_dpi (session w)))
    = scanned ++ handled
    /\ Forall reads scanned /\ Forall (seen_in scanned) pdf_files
    /\ in_order pdf_files handled
    /\ Forall sane (scanned ++ handled).
Proof.
  unfold compress_pdfs. cbv zeta.
  set (s0 := with_host (session w) (add_handler (host (session w))) []).
  assert (Tally : tally_ok s0) by (unfold tally_ok, s0; cbn; lia).
  assert (Zero : (compressed_count s0 + skipped_count s0 = 0)%Z) by reflexivity.
  destruct (compress_folder_effect folder image_quality max_dpi s0 Tally Zero)
    as (pdf_files & seen & [(scanned & Cs & Rs & Ss & Fs) _] & Eff).
  change (calls s0) with (@nil call) in Cs. rewrite app_nil_l in Cs.
  assert (Whole : forall out : result unit * Session,
             gui_effect pdf_files (Z.of_nat (length pdf_files)) seen (snd out) ->
             exists handled,
               calls (snd (let '(r, s) := out in
                           match perform reset_widgets (fun _ => []) s with
                           | (Ok _, s) => (r, s)
                           | (Raise e, s) => (Raise e, s)
                           end)) = scanned ++ handled
               /\ in_order pdf_files handled /\ Forall sane handled).
  { intros [r s1] E1. cbn [snd] in E1.
    pose proof (quiet_effect pdf_files reset_widgets s1) as E2.
    pose proof (gui_effect_trans pdf_files _ 0 seen s1 _ E1 E2)
      as [(handled & C & R & S) _ _].
    exists handled. rewrite Cs in C. split; [| split; [exact R | exact S]].
    destruct (perform reset_widgets _ s1) as [[u | e] s2]; cbn [snd] in C |- *; exact C. }
  assert (Done : forall out : result unit * Session,
             gui_effect pdf_files (Z.of_nat (length pdf_files)) seen (snd out) ->
             exists handled,
               calls (snd (let '(r, s) := out in
                           match perform reset_widgets (fun _ => []) s with
                           | (Ok _, s) => (r, s)
                           | (Raise e, s) => (Raise e, s)
                           end)) = scanned ++ handled
               /\ Forall reads scanned /\ Forall (seen_in scanned) pdf_files
               /\ in_order pdf_files handled
               /\ Forall sane (scanned ++ handled)).
  { intros out E. destruct (Whole out E) as (handled & C & R & S).
    exists handled. split; [exact C |]. split; [exact Rs |]. split; [exact Fs |].
    split; [exact R |]. apply Forall_app. split; [exact Ss | exact S]. }
  exists pdf_files, scanned.
  destruct (compress_folder folder image_quality max_dpi s0) as [[u | e] s1];
    cbn [snd] in Eff.
  - exact (Done (Ok tt, s1) Eff).
  - apply (Done ((_ ← say (NoteFatal e) (Some Red);
                  perform (showerror (NoteFatal e)) (fun _ => [])) s1)).
    replace (Z.of_nat (length pdf_files)) with (Z.of_nat (length pdf_files) + 0)%Z by lia.
    apply (gui_effect_trans pdf_files _ 0 seen s1 _ Eff).
    eff_step (say_effect pdf_files) ltac:(exact I).
    apply quiet_effect.
Qed.

End GuiRun.



(** A run on a disk with a report of 6 MiB and notes of 1 MiB: only the
    report is compressed, its copy of 4 MiB replaces it, and the notes
    stay as they are. *)
Example a_run_in_the_office :
  let before := [(Bench.report_pdf, (Sample.twins, 6291456%N));
                 (Bench.notes_pdf, (Sample.twins, 1048576%N))] in
  let temp := temp_output Bench.report_pdf in
  let run := @compress_pdfs Sample.halving Bench.disk Bench.office
               Bench.documents 90 250 (@session Bench.disk before) in
  fst run = Ok tt
  /\ Bench.file_calls (calls (snd run))
     = [CallStat Bench.report_pdf (Ok 6291456%N);
        CallStat Bench.notes_pdf (Ok 1048576%N);
        CallCompress Bench.report_pdf temp;
        CallStat temp (Ok 4194304%N);
        CallReplace temp Bench.report_pdf]
  /\ map (fun entry => (fst entry, snd (snd entry))) (host (snd run))
     = [(Bench.report_pdf, 4194304%N); (Bench.notes_pdf, 1048576%N)]
  /\ compressed_count (snd run) = 1%Z /\ skipped_count (snd run) = 0%Z.
Proof. vm_compute. repeat split; reflexivity. Qed.
